(** * Clothes_2_fe: the Redux slices that scope cart and orders to a user

    A shallow embedding of [src/store/slices/cartSlice.ts],
    [src/store/slices/ordersSlice.ts], the part of
    [src/store/slices/authSlice.ts] that drives them, and the configuration
    of the auto-logout hook.

    Conventions of the embedding.
    - A JavaScript object used as a dictionary is a [gmap] with string keys,
      its own properties; [Object.keys(o).length === 0] is [o = ∅].  The
      read [o[k]] is the lookup of the own key [k].  That is the read of the
      source at every key that [Object.prototype] does not define
      ([ordinary_key]); at the other keys ([constructor], [toString],
      [__proto__], ...) the source reads the inherited member and goes on to
      write to a built-in object, which the embedding does not represent.
      What a reducer does to an entry is therefore stated for ordinary keys.
    - A TypeScript [number] is a [Z]: the model covers integer quantities
      (no [NaN], no fractions), and its arithmetic is exact, as the
      arithmetic of the source is between [- MAX_SAFE_INTEGER] and
      [MAX_SAFE_INTEGER] ([safe_integer]).
    - A [string | null] is an [option string]; the test [!x] on it succeeds
      on [null] and on the empty string.
    - [localStorage] is a finite map from keys to texts, threaded through
      every operation; an exception is an explicit outcome.
    - A reducer written against an Immer draft is the function from the old
      slice state to the new one.
    - Toast notifications and console logging are not part of the state and
      are left out. *)

From Stdlib Require Import ZArith Ascii String.
From stdpp Require Import base option strings countable list gmap fin_maps pretty.

Open Scope string_scope.
Open Scope Z_scope.

(** ** Exceptions and the storage monad *)

Inductive exn : Type :=
  | SyntaxError.

Inductive completion (A : Type) : Type :=
  | Normal (a : A)
  | Throw (e : exn).
Arguments Normal {A} a.
Arguments Throw {A} e.

(** [localStorage]: key to stored text. *)
Abbreviation Storage := (gmap string string).

(** A computation reads and writes [localStorage] and either returns or
    throws; what it wrote before throwing stays written. *)
Definition js (A : Type) : Type := Storage → completion A * Storage.

Definition js_ret {A} (a : A) : js A := λ ls, (Normal a, ls).


Definition js_bind {A B} (m : js A) (k : A → js B) : js B :=
  λ ls, match m ls with
        | (Normal a, ls') => k a ls'
        | (Throw e, ls') => (Throw e, ls')
        end.

(** [try { body } catch (error) { handler }] *)
Definition try_catch {A} (body : js A) (handler : exn → js A) : js A :=
  λ ls, match body ls with
        | (Normal a, ls') => (Normal a, ls')
        | (Throw e, ls') => handler e ls'
        end.

#[global] Instance js_mret : MRet js := @js_ret.
#[global] Instance js_mbind : MBind js := λ A B k m, js_bind m k.

Module localStorage.
Definition getItem (key : string) : js (option string) :=
  λ ls, (Normal (ls !! key), ls).
Definition setItem (key value : string) : js unit :=
  λ ls, (Normal tt, <[key := value]> ls).
Definition removeItem (key : string) : js unit :=
  λ ls, (Normal tt, delete key ls).
End localStorage.

(** ** Truthiness *)

(** [!!s] for a string: false exactly on the empty string. *)
Definition truthy_string (s : string) : bool :=
  match s with
  | EmptyString => false
  | String _ _ => true
  end.

(** [!!x] for a [string | null]. *)
Definition truthy (x : option string) : bool :=
  match x with
  | None => false
  | Some s => truthy_string s
  end.

(** [!!n] for an integer-valued number. *)
Definition truthy_number (n : Z) : bool := negb (n =? 0).

(** ** Property names and numbers of the runtime *)

(** The property names that [Object.prototype] defines, and that every
    object literal and every parsed JSON object therefore inherits. *)
Definition Object_prototype : list string :=
  ["constructor"; "__defineGetter__"; "__defineSetter__"; "hasOwnProperty";
   "__lookupGetter__"; "__lookupSetter__"; "isPrototypeOf";
   "propertyIsEnumerable"; "toString"; "valueOf"; "__proto__";
   "toLocaleString"].

Definition inherited (key : string) : bool :=
  existsb (String.eqb key) Object_prototype.

(** A key at which the read [o[key]] of a dictionary sees own properties
    only. *)
Definition ordinary_key (key : string) : Prop := inherited key = false.

(** [Number.MAX_SAFE_INTEGER]: up to it, in both directions, the integers
    are numbers of the runtime and adding one is exact. *)
Definition MAX_SAFE_INTEGER : Z := 2 ^ 53 - 1.

Definition safe_integer (n : Z) : Prop :=
  - MAX_SAFE_INTEGER ≤ n ≤ MAX_SAFE_INTEGER.

(** ** The JSON built-ins

    [JSON.stringify] and [JSON.parse] belong to the runtime, not to the
    repository.  They are taken at each stored type as an interface with the
    two facts the slices rely on: the empty text is not JSON, and a value
    that was stringified parses back to itself. *)
Class JSON (A : Type) : Type := {
  JSON_stringify : A → string;
  JSON_parse : string → completion A;
  JSON_parse_empty : JSON_parse "" = Throw SyntaxError;
  JSON_parse_stringify : ∀ a, JSON_parse (JSON_stringify a) = Normal a
}.

Definition JSON_parse_js `{JSON A} (text : string) : js A :=
  λ ls, (JSON_parse text, ls).

(** ** cartSlice.ts *)

Abbreviation CartItem := (gmap string Z).
Abbreviation CartItems := (gmap string (gmap string Z)).

Record CartState : Type := mkCartState {
  cartItems : CartItems;
  currentUserId : option string
}.

Record AddToCartPayload : Type := mkAddToCartPayload {
  atc_itemId : string;
  atc_size : string
}.

(** [quantity: number] is stored as it comes; the embedding covers the
    payloads whose quantity is an integer. *)
Record UpdateQuantityPayload : Type := mkUpdateQuantityPayload {
  uq_itemId : string;
  uq_size : string;
  uq_quantity : Z
}.

Record SelectedItem : Type := mkSelectedItem {
  sel_itemId : string;
  sel_size : string
}.

(** [RemoveFromCartPayload] has the fields of [SelectedItem]. *)
Abbreviation RemoveFromCartPayload := SelectedItem.

Record Product : Type := mkProduct {
  _id : string;
  price : Z;
  product_name : option string;
  product_image : option string;
  product_description : option string
}.

Module cartSlice.
Section reducers.
Context `{JSON_cart : JSON CartItems}.

Definition loadCartFromStorage (userId : option string) : js CartItems :=
  try_catch
    (match userId with
     | Some u =>
         if negb (truthy_string u) then js_ret ∅
         else
           let cartKey := "cart_" +:+ u in
           storedCart ← localStorage.getItem cartKey;
           match storedCart with
           | Some text =>
               if truthy_string text then JSON_parse_js text else js_ret ∅
           | None => js_ret ∅
           end
     | None => js_ret ∅
     end)
    (λ _, js_ret ∅).

Definition saveCartToStorage (cartItems : CartItems)
    (userId : option string) : js unit :=
  try_catch
    (match userId with
     | Some u =>
         if negb (truthy_string u) then js_ret tt
         else
           let cartKey := "cart_" +:+ u in
           localStorage.setItem cartKey (JSON_stringify cartItems)
     | None => js_ret tt
     end)
    (λ _, js_ret tt).

Definition removeCartFromStorage (userId : string) : js unit :=
  try_catch
    (if negb (truthy_string userId) then js_ret tt
     else
       let cartKey := "cart_" +:+ userId in
       localStorage.removeItem cartKey)
    (λ _, js_ret tt).

Definition initialState : CartState :=
  {| cartItems := ∅; currentUserId := None |}.

Definition initializeCart (userId : string) (state : CartState)
    : js CartState :=
  loaded ← loadCartFromStorage (Some userId);
  js_ret {| cartItems := loaded; currentUserId := Some userId |}.

Definition clearCartOnLogout (state : CartState) : js CartState :=
  js_ret {| cartItems := ∅; currentUserId := None |}.

(** [cartData[itemId]] and [cartData[itemId][size]] are read as own keys:
    the reads of the source when [itemId] and [size] are ordinary keys. *)
Definition addToCart (payload : AddToCartPayload) (state : CartState)
    : js CartState :=
  let itemId := atc_itemId payload in
  let size := atc_size payload in
  if negb (truthy_string size) then js_ret state
  else if negb (truthy (currentUserId state)) then js_ret state
  else
    let cartData := cartItems state in
    let cartData :=
      match cartData !! itemId with
      | Some item =>
          match item !! size with
          | Some q =>
              if truthy_number q
              then <[itemId := <[size := q + 1]> item]> cartData
              else <[itemId := <[size := 1]> item]> cartData
          | None => <[itemId := <[size := 1]> item]> cartData
          end
      | None => <[itemId := {[size := 1]}]> cartData
      end in
    saveCartToStorage cartData (currentUserId state);;
    js_ret {| cartItems := cartData; currentUserId := currentUserId state |}.

(** [delete cartData[itemId][size]] followed by dropping the item when no
    size is left. *)
Definition delete_size (itemId size : string) (item : CartItem)
    (cartData : CartItems) : CartItems :=
  let item' := delete size item in
  if decide (item' = ∅) then delete itemId cartData
  else <[itemId := item']> cartData.

(** As in [addToCart], [cartData[itemId]] is read, and
    [cartData[itemId][size]] written, as an own key. *)
Definition updateQuantity (payload : UpdateQuantityPayload)
    (state : CartState) : js CartState :=
  if negb (truthy (currentUserId state)) then js_ret state
  else
    let itemId := uq_itemId payload in
    let size := uq_size payload in
    let quantity := uq_quantity payload in
    let cartData := cartItems state in
    let cartData :=
      if quantity =? 0 then
        match cartData !! itemId with
        | Some item => delete_size itemId size item cartData
        | None => cartData
        end
      else
        let item := default ∅ (cartData !! itemId) in
        <[itemId := <[size := quantity]> item]> cartData in
    saveCartToStorage cartData (currentUserId state);;
    js_ret {| cartItems := cartData; currentUserId := currentUserId state |}.

(** The body shared by [removeFromCart] and the loop of
    [removeSelectedItems]: remove the entry when it holds a truthy
    quantity. *)
Definition remove_entry (cartData : CartItems) (sel : SelectedItem)
    : CartItems :=
  match cartData !! sel_itemId sel with
  | Some item =>
      match item !! sel_size sel with
      | Some q =>
          if truthy_number q
          then delete_size (sel_itemId sel) (sel_size sel) item cartData
          else cartData
      | None => cartData
      end
  | None => cartData
  end.

Definition removeFromCart (payload : RemoveFromCartPayload)
    (state : CartState) : js CartState :=
  if negb (truthy (currentUserId state)) then js_ret state
  else
    let cartData := remove_entry (cartItems state) payload in
    saveCartToStorage cartData (currentUserId state);;
    js_ret {| cartItems := cartData; currentUserId := currentUserId state |}.

Definition removeSelectedItems (selectedItems : list SelectedItem)
    (state : CartState) : js CartState :=
  if negb (truthy (currentUserId state)) then js_ret state
  else if (length selectedItems =? 0)%nat then js_ret state
  else
    let cartData := foldl remove_entry (cartItems state) selectedItems in
    saveCartToStorage cartData (currentUserId state);;
    js_ret {| cartItems := cartData; currentUserId := currentUserId state |}.

Definition clearCart (state : CartState) : js CartState :=
  if negb (truthy (currentUserId state)) then js_ret state
  else if decide (cartItems state = ∅) then js_ret state
  else
    saveCartToStorage ∅ (currentUserId state);;
    js_ret {| cartItems := ∅; currentUserId := currentUserId state |}.

Definition deleteUserCart (userId : string) (state : CartState)
    : js CartState :=
  removeCartFromStorage userId;;
  if decide (currentUserId state = Some userId)
  then js_ret {| cartItems := ∅; currentUserId := currentUserId state |}
  else js_ret state.

(** [selectCartCount]: the two nested [for ... in] loops, with the running
    total as accumulator. *)
Definition selectCartCount (cart : CartState) : Z :=
  if negb (truthy (currentUserId cart)) then 0
  else
    map_fold
      (λ _item sizes totalCount,
         map_fold
           (λ _size quantity totalCount,
              if 0 <? quantity then totalCount + quantity else totalCount)
           totalCount sizes)
      0 (cartItems cart).

(** [products.find((product) => product._id === itemId)] *)
Definition find_product (products : list Product) (itemId : string)
    : option Product :=
  List.find (λ product, String.eqb (_id product) itemId) products.

(** [selectCartAmount], on the cart slice and the product list of the shop
    slice. *)
Definition selectCartAmount (cart : CartState) (products : list Product)
    : Z :=
  if negb (truthy (currentUserId cart)) then 0
  else
    map_fold
      (λ items sizes totalAmount,
         match find_product products items with
         | Some itemInfo =>
             map_fold
               (λ _item quantity totalAmount,
                  if 0 <? quantity
                  then totalAmount + price itemInfo * quantity
                  else totalAmount)
               totalAmount sizes
         | None => totalAmount
         end)
      0 (cartItems cart).

(** [selectSelectedCartAmount(selectedItems)], on the same two slices. *)
Definition selectSelectedCartAmount (selectedItems : list SelectedItem)
    (cart : CartState) (products : list Product) : Z :=
  if (length selectedItems =? 0)%nat then 0
  else
    foldl
      (λ totalAmount selectedItem,
         match find_product products (sel_itemId selectedItem) with
         | Some productData =>
             match cartItems cart !! sel_itemId selectedItem
                   ≫= λ sizes, sizes !! sel_size selectedItem with
             | Some cartItem =>
                 if truthy_number cartItem
                 then totalAmount + price productData * cartItem
                 else totalAmount
             | None => totalAmount
             end
         | None => totalAmount
         end)
      0 selectedItems.

End reducers.
End cartSlice.

(** ** ordersSlice.ts *)

Inductive OrderStatus : Type :=
  | pending | confirmed | processing | shipped | delivered | cancelled.

Inductive PaymentMethod : Type :=
  | cod | card | paypal | bank_transfer.

Record OrderItem : Type := mkOrderItem {
  oi_itemId : string;
  oi_size : string;
  oi_quantity : Z;
  oi_price : Z;
  oi_name : option string;
  oi_image : option string
}.

Record DeliveryInfo : Type := mkDeliveryInfo {
  firstName : string;
  lastName : string;
  di_email : string;
  street : string;
  city : string;
  di_state : string;
  zipcode : string;
  country : string;
  phone : string
}.

(** [items]: the cart dictionary or an array of order lines. *)
Inductive OrderItems : Type :=
  | ItemsOfCart (cart : CartItems)
  | ItemsOfLines (lines : list OrderItem).

(** The text [new Date(ms).toISOString()], kept as the instant it prints. *)
Inductive ISOString : Type :=
  | toISOString (ms : Z).

Record Order : Type := mkOrder {
  order_id : string;
  order_userId : string;
  items : OrderItems;
  deliveryInfo : DeliveryInfo;
  paymentMethod : PaymentMethod;
  totalAmount : Z;
  status : OrderStatus;
  createdAt : ISOString;
  estimatedDelivery : ISOString
}.

Record OrdersState : Type := mkOrdersState {
  orders : list Order;
  orders_currentUserId : option string;
  orders_isLoading : bool
}.

Record OrderData : Type := mkOrderData {
  od_paymentMethod : option PaymentMethod;
  od_totalAmount : Z
}.

Record AddOrderPayload : Type := mkAddOrderPayload {
  orderData : OrderData;
  ao_cartItems : OrderItems;
  ao_deliveryInfo : DeliveryInfo
}.

Record UpdateOrderStatusPayload : Type := mkUpdateOrderStatusPayload {
  uos_orderId : string;
  uos_status : OrderStatus
}.

(** The three readings of the clock that [addOrder] takes, in the order of
    the source: for the id, for [createdAt], for [estimatedDelivery]. *)
Record Clock : Type := mkClock {
  now_id : Z;
  now_created : Z;
  now_estimate : Z
}.

Definition set_status (s : OrderStatus) (o : Order) : Order :=
  {| order_id := order_id o; order_userId := order_userId o;
     items := items o; deliveryInfo := deliveryInfo o;
     paymentMethod := paymentMethod o; totalAmount := totalAmount o;
     status := s; createdAt := createdAt o;
     estimatedDelivery := estimatedDelivery o |}.

Module ordersSlice.
Section reducers.
Context `{JSON_orders : JSON (list Order)}.

Definition loadOrdersFromStorage (userId : option string)
    : js (list Order) :=
  try_catch
    (match userId with
     | Some u =>
         if negb (truthy_string u) then js_ret []
         else
           let ordersKey := "orders_" +:+ u in
           storedOrders ← localStorage.getItem ordersKey;
           match storedOrders with
           | Some text =>
               if truthy_string text then JSON_parse_js text else js_ret []
           | None => js_ret []
           end
     | None => js_ret []
     end)
    (λ _, js_ret []).

Definition saveOrdersToStorage (orders : list Order)
    (userId : option string) : js unit :=
  try_catch
    (match userId with
     | Some u =>
         if negb (truthy_string u) then js_ret tt
         else
           let ordersKey := "orders_" +:+ u in
           localStorage.setItem ordersKey (JSON_stringify orders)
     | None => js_ret tt
     end)
    (λ _, js_ret tt).

Definition initialState : OrdersState :=
  {| orders := []; orders_currentUserId := None; orders_isLoading := false |}.

Definition initializeOrders (userId : string) (state : OrdersState)
    : js OrdersState :=
  loaded ← loadOrdersFromStorage (Some userId);
  js_ret {| orders := loaded; orders_currentUserId := Some userId;
            orders_isLoading := orders_isLoading state |}.

Definition clearOrdersOnLogout (state : OrdersState) : js OrdersState :=
  js_ret {| orders := []; orders_currentUserId := None;
            orders_isLoading := orders_isLoading state |}.

Definition addOrder (clock : Clock) (payload : AddOrderPayload)
    (state : OrdersState) : js OrdersState :=
  match orders_currentUserId state with
  | Some u =>
      if negb (truthy_string u) then js_ret state
      else
        let newOrder :=
          {| order_id := pretty (now_id clock);
             order_userId := u;
             items := ao_cartItems payload;
             deliveryInfo := ao_deliveryInfo payload;
             paymentMethod :=
               default cod (od_paymentMethod (orderData payload));
             totalAmount := od_totalAmount (orderData payload);
             status := confirmed;
             createdAt := toISOString (now_created clock);
             estimatedDelivery :=
               toISOString (now_estimate clock + 7 * 24 * 60 * 60 * 1000) |} in
        let orders' := newOrder :: orders state in
        saveOrdersToStorage orders' (Some u);;
        js_ret {| orders := orders'; orders_currentUserId := Some u;
                  orders_isLoading := orders_isLoading state |}
  | None => js_ret state
  end.

(** [state.orders.findIndex(order => order.id === orderId)] *)
Definition findIndex_id (orderId : string) (l : list Order) : option nat :=
  fst <$> list_find (λ o, order_id o = orderId) l.

Definition updateOrderStatus (payload : UpdateOrderStatusPayload)
    (state : OrdersState) : js OrdersState :=
  if negb (truthy (orders_currentUserId state)) then js_ret state
  else
    let orderId := uos_orderId payload in
    match findIndex_id orderId (orders state) with
    | Some orderIndex =>
        let orders' :=
          alter (set_status (uos_status payload)) orderIndex (orders state) in
        saveOrdersToStorage orders' (orders_currentUserId state);;
        js_ret {| orders := orders';
                  orders_currentUserId := orders_currentUserId state;
                  orders_isLoading := orders_isLoading state |}
    | None => js_ret state
    end.

Definition cancelOrder (orderId : string) (state : OrdersState)
    : js OrdersState :=
  if negb (truthy (orders_currentUserId state)) then js_ret state
  else
    match findIndex_id orderId (orders state) with
    | Some orderIndex =>
        let orders' := alter (set_status cancelled) orderIndex (orders state) in
        saveOrdersToStorage orders' (orders_currentUserId state);;
        js_ret {| orders := orders';
                  orders_currentUserId := orders_currentUserId state;
                  orders_isLoading := orders_isLoading state |}
    | None => js_ret state
    end.

Definition setLoading (b : bool) (state : OrdersState) : js OrdersState :=
  js_ret {| orders := orders state;
            orders_currentUserId := orders_currentUserId state;
            orders_isLoading := b |}.

(** [selectOrderById(orderId)]: the first order with that id. *)
Definition selectOrderById (orderId : string) (state : OrdersState)
    : option Order :=
  snd <$> list_find (λ o, order_id o = orderId) (orders state).

Definition selectTotalOrdersCount (state : OrdersState) : nat :=
  length (orders state).

(** [orders.reduce((total, order) => total + order.totalAmount, 0)] *)
Definition selectOrdersTotalAmount (state : OrdersState) : Z :=
  foldl (λ total order, total + totalAmount order) 0 (orders state).

End reducers.
End ordersSlice.

(** ** authSlice.ts *)

(** Modelled from the spec: the declarations of [User], [UserWithPassword]
    and [LoginCredentials] live in [src/types], which is not among the
    sources.  The fields are those of the Principal and of the directory
    record of the data model, as [registerUser] builds them. *)
Record User : Type := mkUser {
  user_id : string;
  user_name : string;
  user_email : string;
  user_createdAt : ISOString;
  user_avatar : string
}.

Record UserWithPassword : Type := mkUserWithPassword {
  uwp_id : string;
  uwp_name : string;
  uwp_email : string;
  uwp_password : string;
  uwp_createdAt : ISOString;
  uwp_avatar : string
}.

Record LoginCredentials : Type := mkLoginCredentials {
  cred_email : string;
  cred_password : string
}.

(** Modelled from the spec: [RegisterData] is declared in [src/types]; the
    fields are the ones [registerUser] reads. *)
Record RegisterData : Type := mkRegisterData {
  rd_name : string;
  rd_email : string;
  rd_password : string
}.

(** [Partial<User>]: each field of [User], present or not. *)
Record PartialUser : Type := mkPartialUser {
  pu_id : option string;
  pu_name : option string;
  pu_email : option string;
  pu_createdAt : option ISOString;
  pu_avatar : option string
}.

Record AuthState : Type := mkAuthState {
  user : option User;
  isAuthenticated : bool;
  isLoading : bool;
  error : option string;
  users : list UserWithPassword
}.

(** [const { password, ...userWithoutPassword } = user] *)
Definition userWithoutPassword (u : UserWithPassword) : User :=
  {| user_id := uwp_id u; user_name := uwp_name u; user_email := uwp_email u;
     user_createdAt := uwp_createdAt u; user_avatar := uwp_avatar u |}.

Module authSlice.
Section reducers.
Context `{JSON_user : JSON User}.

Definition saveUserToStorage (user : option User) : js unit :=
  try_catch
    (match user with
     | Some u => localStorage.setItem "user" (JSON_stringify u)
     | None => localStorage.removeItem "user"
     end)
    (λ _, js_ret tt).

Definition loginStart (state : AuthState) : js AuthState :=
  js_ret {| user := user state; isAuthenticated := isAuthenticated state;
            isLoading := true; error := None; users := users state |}.

Definition loginSuccess (payload : User) (state : AuthState)
    : js AuthState :=
  saveUserToStorage (Some payload);;
  js_ret {| user := Some payload; isAuthenticated := true;
            isLoading := false; error := None; users := users state |}.

Definition loginFailure (payload : string) (state : AuthState)
    : js AuthState :=
  js_ret {| user := None; isAuthenticated := false;
            isLoading := false; error := Some payload;
            users := users state |}.

Definition logout (state : AuthState) : js AuthState :=
  saveUserToStorage None;;
  js_ret {| user := None; isAuthenticated := false;
            isLoading := isLoading state; error := None;
            users := users state |}.

Definition clearError (state : AuthState) : js AuthState :=
  js_ret {| user := user state; isAuthenticated := isAuthenticated state;
            isLoading := isLoading state; error := None;
            users := users state |}.

End reducers.

Section directory.
Context `{JSON_user : JSON User} `{JSON_users : JSON (list UserWithPassword)}.
(** [encodeURIComponent] belongs to the runtime; it is taken as given. *)
Variable encodeURIComponent : string → string.

Definition loadUserFromStorage : js (option User) :=
  try_catch
    (storedUser ← localStorage.getItem "user";
     match storedUser with
     | Some text =>
         if truthy_string text
         then parsed ← JSON_parse_js text; js_ret (Some parsed)
         else js_ret None
     | None => js_ret None
     end)
    (λ _, js_ret None).

Definition loadUsersFromStorage : js (list UserWithPassword) :=
  try_catch
    (storedUsers ← localStorage.getItem "users";
     match storedUsers with
     | Some text =>
         if truthy_string text then JSON_parse_js text else js_ret []
     | None => js_ret []
     end)
    (λ _, js_ret []).

Definition saveUsersToStorage (users : list UserWithPassword) : js unit :=
  try_catch
    (localStorage.setItem "users" (JSON_stringify users))
    (λ _, js_ret tt).

(** The initial state of the slice, computed when the store is created. *)
Definition initialState : js AuthState :=
  loaded ← loadUserFromStorage;
  loaded_again ← loadUserFromStorage;
  directory ← loadUsersFromStorage;
  js_ret {| user := loaded;
            isAuthenticated := bool_decide (is_Some loaded_again);
            isLoading := false; error := None; users := directory |}.

Definition registerStart (state : AuthState) : js AuthState :=
  js_ret {| user := user state; isAuthenticated := isAuthenticated state;
            isLoading := true; error := None; users := users state |}.

(** [registerSuccess], with the payload [{ user, newUser }]. *)
Definition registerSuccess (payload_user : User)
    (payload_newUser : UserWithPassword) (state : AuthState) : js AuthState :=
  let users' := (users state ++ [payload_newUser])%list in
  saveUserToStorage (Some payload_user);;
  saveUsersToStorage users';;
  js_ret {| user := Some payload_user; isAuthenticated := true;
            isLoading := false; error := None; users := users' |}.

Definition registerFailure (payload : string) (state : AuthState)
    : js AuthState :=
  js_ret {| user := user state; isAuthenticated := isAuthenticated state;
            isLoading := false; error := Some payload;
            users := users state |}.

(** The avatar address built from a name. *)
Definition avatar_of (name : string) : string :=
  "https://ui-avatars.com/api/?name=" +:+ encodeURIComponent name
  +:+ "&background=000&color=fff".

(** [{ ...user, ...payload }] *)
Definition spread_user (u : User) (payload : PartialUser) : User :=
  {| user_id := default (user_id u) (pu_id payload);
     user_name := default (user_name u) (pu_name payload);
     user_email := default (user_email u) (pu_email payload);
     user_createdAt := default (user_createdAt u) (pu_createdAt payload);
     user_avatar := default (user_avatar u) (pu_avatar payload) |}.

(** [{ ...entry, ...updatedData }]: the fields of the profile over the
    entry of the directory, whose password stays. *)
Definition spread_entry (entry : UserWithPassword) (updatedData : User)
    : UserWithPassword :=
  {| uwp_id := user_id updatedData; uwp_name := user_name updatedData;
     uwp_email := user_email updatedData;
     uwp_password := uwp_password entry;
     uwp_createdAt := user_createdAt updatedData;
     uwp_avatar := user_avatar updatedData |}.

Definition updateProfile (payload : PartialUser) (state : AuthState)
    : js AuthState :=
  match user state with
  | Some current =>
      let updatedData := spread_user current payload in
      let updatedData :=
        match pu_name payload with
        | Some name =>
            if truthy_string name && negb (String.eqb name (user_name current))
            then {| user_id := user_id updatedData;
                    user_name := user_name updatedData;
                    user_email := user_email updatedData;
                    user_createdAt := user_createdAt updatedData;
                    user_avatar := avatar_of name |}
            else updatedData
        | None => updatedData
        end in
      saveUserToStorage (Some updatedData);;
      match list_find (λ u, uwp_id u = user_id updatedData) (users state) with
      | Some (userIndex, _) =>
          let users' :=
            alter (λ entry, spread_entry entry updatedData) userIndex
                  (users state) in
          saveUsersToStorage users';;
          js_ret {| user := Some updatedData;
                    isAuthenticated := isAuthenticated state;
                    isLoading := isLoading state; error := error state;
                    users := users' |}
      | None =>
          js_ret {| user := Some updatedData;
                    isAuthenticated := isAuthenticated state;
                    isLoading := isLoading state; error := error state;
                    users := users state |}
      end
  | None => js_ret state
  end.

End directory.
End authSlice.

(** ** store.ts: the combined store and the thunks of authSlice.ts *)

Record RootState : Type := mkRootState {
  auth : AuthState;
  cart : CartState;
  ordersOf : OrdersState
}.

Inductive Action : Type :=
  | cart_initializeCart (userId : string)
  | cart_clearCartOnLogout
  | cart_addToCart (payload : AddToCartPayload)
  | cart_updateQuantity (payload : UpdateQuantityPayload)
  | cart_removeFromCart (payload : RemoveFromCartPayload)
  | cart_removeSelectedItems (payload : list SelectedItem)
  | cart_clearCart
  | cart_deleteUserCart (userId : string)
  | orders_initializeOrders (userId : string)
  | orders_clearOrdersOnLogout
  | orders_addOrder (clock : Clock) (payload : AddOrderPayload)
  | orders_updateOrderStatus (payload : UpdateOrderStatusPayload)
  | orders_cancelOrder (orderId : string)
  | orders_setLoading (payload : bool)
  | auth_loginStart
  | auth_loginSuccess (payload : User)
  | auth_loginFailure (payload : string)
  | auth_logout
  | auth_clearError.

Section Store.
Context `{JSON_cart : JSON CartItems} `{JSON_orders : JSON (list Order)}
        `{JSON_user : JSON User}.

Definition cartReducer (a : Action) (state : CartState) : js CartState :=
  match a with
  | cart_initializeCart u => cartSlice.initializeCart u state
  | cart_clearCartOnLogout => cartSlice.clearCartOnLogout state
  | cart_addToCart p => cartSlice.addToCart p state
  | cart_updateQuantity p => cartSlice.updateQuantity p state
  | cart_removeFromCart p => cartSlice.removeFromCart p state
  | cart_removeSelectedItems p => cartSlice.removeSelectedItems p state
  | cart_clearCart => cartSlice.clearCart state
  | cart_deleteUserCart u => cartSlice.deleteUserCart u state
  | _ => js_ret state
  end.

Definition ordersReducer (a : Action) (state : OrdersState)
    : js OrdersState :=
  match a with
  | orders_initializeOrders u => ordersSlice.initializeOrders u state
  | orders_clearOrdersOnLogout => ordersSlice.clearOrdersOnLogout state
  | orders_addOrder clock p => ordersSlice.addOrder clock p state
  | orders_updateOrderStatus p => ordersSlice.updateOrderStatus p state
  | orders_cancelOrder i => ordersSlice.cancelOrder i state
  | orders_setLoading b => ordersSlice.setLoading b state
  | _ => js_ret state
  end.

Definition authReducer (a : Action) (state : AuthState) : js AuthState :=
  match a with
  | auth_loginStart => authSlice.loginStart state
  | auth_loginSuccess u => authSlice.loginSuccess u state
  | auth_loginFailure msg => authSlice.loginFailure msg state
  | auth_logout => authSlice.logout state
  | auth_clearError => authSlice.clearError state
  | _ => js_ret state
  end.

(** [store.dispatch]: every slice reducer sees the action, in the order
    of the [reducer] table ([cart], [auth], [orders]).  The store is built
    with the default middleware only: [authMiddleware.ts] is not installed
    and plays no part. *)
Definition dispatch (a : Action) (s : RootState) : js RootState :=
  cart' ← cartReducer a (cart s);
  auth' ← authReducer a (auth s);
  orders' ← ordersReducer a (ordersOf s);
  js_ret {| auth := auth'; cart := cart'; ordersOf := orders' |}.

Fixpoint dispatch_all (l : list Action) (s : RootState) : js RootState :=
  match l with
  | [] => js_ret s
  | a :: l' => s' ← dispatch a s; dispatch_all l' s'
  end.

Definition credentials_match (credentials : LoginCredentials)
    (u : UserWithPassword) : bool :=
  String.eqb (uwp_email u) (cred_email credentials)
  && String.eqb (uwp_password u) (cred_password credentials).

(** The callback that [loginUser] hands to [setTimeout]. *)
Definition loginUser_callback (credentials : LoginCredentials)
    (s : RootState) : js RootState :=
  match List.find (credentials_match credentials) (users (auth s)) with
  | Some u =>
      dispatch_all [auth_loginSuccess (userWithoutPassword u);
                    cart_initializeCart (uwp_id u);
                    orders_initializeOrders (uwp_id u)] s
  | None =>
      dispatch (auth_loginFailure "Email or password is incorrect.") s
  end.

(** [loginUser] when nothing else is dispatched before the timer fires. *)
Definition loginUser (credentials : LoginCredentials) (s : RootState)
    : js RootState :=
  s' ← dispatch auth_loginStart s;
  loginUser_callback credentials s'.

Definition logoutUser (s : RootState) : js RootState :=
  dispatch_all [cart_clearCartOnLogout; orders_clearOrdersOnLogout;
                auth_logout] s.

Definition initializeApp (s : RootState) : js RootState :=
  match user (auth s) with
  | Some u =>
      if isAuthenticated (auth s) && truthy_string (user_id u)
      then dispatch_all [cart_initializeCart (user_id u);
                         orders_initializeOrders (user_id u)] s
      else dispatch_all [cart_clearCartOnLogout;
                         orders_clearOrdersOnLogout] s
  | None =>
      dispatch_all [cart_clearCartOnLogout; orders_clearOrdersOnLogout] s
  end.

End Store.

Section Accounts.
Context `{JSON_cart : JSON CartItems} `{JSON_orders : JSON (list Order)}
        `{JSON_user : JSON User} `{JSON_users : JSON (list UserWithPassword)}.
Variable encodeURIComponent : string → string.

(** [store.dispatch] of an action of the auth slice that [Action] does not
    list: the cart and orders reducers have no case for it and return
    their state. *)
Definition dispatch_auth (reducer : AuthState → js AuthState)
    (s : RootState) : js RootState :=
  auth' ← reducer (auth s);
  js_ret {| auth := auth'; cart := cart s; ordersOf := ordersOf s |}.

(** The callback that [registerUser] hands to [setTimeout].  [now_id] and
    [now_created] are the readings of the clock for [Date.now()] and
    [new Date()]. *)
Definition registerUser_callback (now_id now_created : Z)
    (userData : RegisterData) (s : RootState) : js RootState :=
  match List.find (λ u, String.eqb (uwp_email u) (rd_email userData))
                  (users (auth s)) with
  | Some existingUser =>
      dispatch_auth (authSlice.registerFailure "Email has already been used.")
                    s
  | None =>
      let newUser :=
        {| uwp_id := pretty now_id;
           uwp_name := rd_name userData;
           uwp_email := rd_email userData;
           uwp_password := rd_password userData;
           uwp_createdAt := toISOString now_created;
           uwp_avatar :=
             authSlice.avatar_of encodeURIComponent (rd_name userData) |} in
      s' ← dispatch_auth
             (authSlice.registerSuccess (userWithoutPassword newUser) newUser)
             s;
      dispatch_all [cart_initializeCart (uwp_id newUser);
                    orders_initializeOrders (uwp_id newUser)] s'
  end.

(** [registerUser] when nothing else is dispatched before the timer
    fires. *)
Definition registerUser (now_id now_created : Z) (userData : RegisterData)
    (s : RootState) : js RootState :=
  s' ← dispatch_auth authSlice.registerStart s;
  registerUser_callback now_id now_created userData s'.

(** A page load: the store is created, each slice with its initial state,
    and the effect of [App] dispatches [initializeApp]. *)
Definition App_mount : js RootState :=
  auth0 ← authSlice.initialState;
  initializeApp {| auth := auth0; cart := cartSlice.initialState;
                   ordersOf := ordersSlice.initialState |}.

End Accounts.

(** ** The auto-logout configuration: useAutoLogout.ts, AutoLogoutProvider,
    App.jsx *)

Definition TIMEOUT_DURATION : Z := 5 * 60 * 1000.
Definition WARNING_DURATION : Z := 30 * 1000.

Record UseAutoLogoutOptions : Type := mkUseAutoLogoutOptions {
  opt_timeoutDuration : option Z;
  opt_warningDuration : option Z;
  opt_showWarning : option bool
}.

(** The session configuration in force: [timeoutMs], [warningMs] and
    whether the warning is shown. *)
Record SessionConfig : Type := mkSessionConfig {
  timeoutMs : Z;
  warningMs : Z;
  showWarning : bool
}.

(** The destructuring with defaults at the head of [useAutoLogout]. *)
Definition useAutoLogout (options : UseAutoLogoutOptions) : SessionConfig :=
  {| timeoutMs := default TIMEOUT_DURATION (opt_timeoutDuration options);
     warningMs := default WARNING_DURATION (opt_warningDuration options);
     showWarning := default true (opt_showWarning options) |}.

(** [AutoLogoutProvider]: its own defaults, then the call of the hook with
    all three options set. *)
Definition AutoLogoutProvider (props : UseAutoLogoutOptions) : SessionConfig :=
  let timeoutDuration := default (5 * 60 * 1000) (opt_timeoutDuration props) in
  let warningDuration := default (30 * 1000) (opt_warningDuration props) in
  let showWarning := default true (opt_showWarning props) in
  useAutoLogout {| opt_timeoutDuration := Some timeoutDuration;
                   opt_warningDuration := Some warningDuration;
                   opt_showWarning := Some showWarning |}.

(** The props that [App] passes at the composition root. *)
Definition App_props : UseAutoLogoutOptions :=
  {| opt_timeoutDuration := Some (5 * 60 * 1000);
     opt_warningDuration := Some (30 * 1000);
     opt_showWarning := Some true |}.


(** ** useAutoLogout.ts: the timers of the hook

    The timers of the page are a table from handle to the instant at which
    the timer is due and the callback it runs; [setTimeout] returns the
    next free handle, [clearTimeout] removes the entry and leaves the
    variable that held the handle as it is.  The readings of [Date.now()]
    and the value of [isAuthenticated] that a callback closes over are
    arguments. *)

Module autoLogout.

Inductive Callback : Type :=
  | showWarningMessage
  | performLogout.

Record Timers : Type := mkTimers {
  pending : gmap positive (Z * Callback);
  next_handle : positive
}.

(** [setTimeout(callback, delay)], called at the instant [now]. *)
Definition setTimeout (callback : Callback) (delay now : Z) (t : Timers)
    : positive * Timers :=
  (next_handle t,
   {| pending := <[next_handle t := (now + delay, callback)]> (pending t);
      next_handle := Pos.succ (next_handle t) |}).

Definition clearTimeout (handle : positive) (t : Timers) : Timers :=
  {| pending := delete handle (pending t); next_handle := next_handle t |}.

(** The three refs of the hook, and the timers of the page. *)
Record HookState : Type := mkHookState {
  timeoutRef : option positive;
  warningTimeoutRef : option positive;
  lastActivityRef : Z;
  timers : Timers
}.

(** [if (ref.current) { clearTimeout(ref.current); }] *)
Definition clear_ref (ref : option positive) (t : Timers) : Timers :=
  match ref with
  | Some handle => clearTimeout handle t
  | None => t
  end.

Definition resetTimer (config : SessionConfig) (isAuthenticated : bool)
    (now : Z) (h : HookState) : HookState :=
  if negb isAuthenticated then h
  else
    let t := clear_ref (timeoutRef h) (timers h) in
    let t := clear_ref (warningTimeoutRef h) t in
    let '(warningRef, t) :=
      if showWarning config then
        let '(handle, t) :=
          setTimeout showWarningMessage
                     (timeoutMs config - warningMs config) now t in
        (Some handle, t)
      else (warningTimeoutRef h, t) in
    let '(handle, t) := setTimeout performLogout (timeoutMs config) now t in
    {| timeoutRef := Some handle; warningTimeoutRef := warningRef;
       lastActivityRef := now; timers := t |}.

(** The effect that follows [isAuthenticated]: its body, run at [now]. *)
Definition effect_setup (config : SessionConfig) (isAuthenticated : bool)
    (now : Z) (h : HookState) : HookState :=
  if negb isAuthenticated then
    {| timeoutRef := None; warningTimeoutRef := None;
       lastActivityRef := lastActivityRef h;
       timers := clear_ref (warningTimeoutRef h)
                   (clear_ref (timeoutRef h) (timers h)) |}
  else resetTimer config isAuthenticated now h.

(** The cleanup of that effect. *)
Definition effect_cleanup (h : HookState) : HookState :=
  {| timeoutRef := timeoutRef h; warningTimeoutRef := warningTimeoutRef h;
     lastActivityRef := lastActivityRef h;
     timers := clear_ref (warningTimeoutRef h)
                 (clear_ref (timeoutRef h) (timers h)) |}.

(** [handleVisibilityChange], with [document.hidden] and the clock as
    arguments.  The boolean tells whether [performLogout] was called. *)
Definition handleVisibilityChange (config : SessionConfig)
    (isAuthenticated hidden : bool) (now : Z) (h : HookState)
    : HookState * bool :=
  if negb isAuthenticated then (h, false)
  else if hidden then
    ({| timeoutRef := timeoutRef h; warningTimeoutRef := warningTimeoutRef h;
        lastActivityRef := now; timers := timers h |}, false)
  else
    let timeAwayFromTab := now - lastActivityRef h in
    if timeoutMs config <=? timeAwayFromTab then (h, true)
    else (resetTimer config isAuthenticated now h, false).

Definition getRemainingTime (config : SessionConfig) (isAuthenticated : bool)
    (now : Z) (h : HookState) : Z :=
  if negb isAuthenticated then 0
  else
    let elapsed := now - lastActivityRef h in
    Z.max 0 (timeoutMs config - elapsed).

Definition getLastActivity (h : HookState) : Z := lastActivityRef h.

Definition isTimerActive (h : HookState) : bool :=
  bool_decide (is_Some (timeoutRef h)).

End autoLogout.

(** ** A lawful instance of the JSON interface

    Any countable type can be written as a text and read back: the text is
    a mark followed by the binary digits of the code of the value.  The
    instance is used to run the model on concrete inputs. *)

Fixpoint pos_digits (p : positive) : string :=
  match p with
  | xH => ""
  | xO p' => String "0"%char (pos_digits p')
  | xI p' => String "1"%char (pos_digits p')
  end.

Fixpoint digits_pos (s : string) : option positive :=
  match s with
  | EmptyString => Some xH
  | String c s' =>
      match digits_pos s' with
      | Some p =>
          if Ascii.eqb c "0"%char then Some (xO p)
          else if Ascii.eqb c "1"%char then Some (xI p)
          else None
      | None => None
      end
  end.

Definition reference_stringify `{Countable A} (a : A) : string :=
  String "#"%char (pos_digits (encode a)).

Definition reference_parse `{Countable A} (text : string) : completion A :=
  match text with
  | String c digits =>
      if Ascii.eqb c "#"%char then
        match digits_pos digits ≫= decode with
        | Some a => Normal a
        | None => Throw SyntaxError
        end
      else Throw SyntaxError
  | EmptyString => Throw SyntaxError
  end.

Definition reference_JSON `{Countable A} : JSON A.
Proof.
  refine {| JSON_stringify := reference_stringify;
            JSON_parse := reference_parse |}.
  - reflexivity.
  - intros a. unfold reference_stringify, reference_parse.
    assert (Hd : ∀ p, digits_pos (pos_digits p) = Some p).
    { induction p as [p IH|p IH|]; simpl; [rewrite IH|rewrite IH|]; done. }
    simpl. rewrite Hd. simpl. by rewrite decode_encode.
Defined.

#[global] Instance OrderStatus_eq_dec : EqDecision OrderStatus.
Proof. solve_decision. Defined.
#[global] Instance PaymentMethod_eq_dec : EqDecision PaymentMethod.
Proof. solve_decision. Defined.
#[global] Instance ISOString_eq_dec : EqDecision ISOString.
Proof. solve_decision. Defined.
#[global] Instance OrderItem_eq_dec : EqDecision OrderItem.
Proof. solve_decision. Defined.
#[global] Instance DeliveryInfo_eq_dec : EqDecision DeliveryInfo.
Proof. solve_decision. Defined.
#[global] Instance OrderItems_eq_dec : EqDecision OrderItems.
Proof. solve_decision. Defined.
#[global] Instance Order_eq_dec : EqDecision Order.
Proof. solve_decision. Defined.
#[global] Instance User_eq_dec : EqDecision User.
Proof. solve_decision. Defined.

#[global] Instance OrderStatus_countable : Countable OrderStatus.
Proof.
  refine (inj_countable'
    (λ s, match s with
          | pending => 0%nat | confirmed => 1%nat | processing => 2%nat
          | shipped => 3%nat | delivered => 4%nat | cancelled => 5%nat
          end)
    (λ n, match n with
          | 0%nat => pending | 1%nat => confirmed | 2%nat => processing
          | 3%nat => shipped | 4%nat => delivered | _ => cancelled
          end) _).
  by intros [].
Defined.

#[global] Instance PaymentMethod_countable : Countable PaymentMethod.
Proof.
  refine (inj_countable'
    (λ m, match m with
          | cod => 0%nat | card => 1%nat | paypal => 2%nat
          | bank_transfer => 3%nat
          end)
    (λ n, match n with
          | 0%nat => cod | 1%nat => card | 2%nat => paypal
          | _ => bank_transfer
          end) _).
  by intros [].
Defined.

#[global] Instance ISOString_countable : Countable ISOString.
Proof.
  refine (inj_countable' (λ '(toISOString ms), ms) toISOString _).
  by intros [].
Defined.

#[global] Instance OrderItem_countable : Countable OrderItem.
Proof.
  refine (inj_countable'
    (λ i, (oi_itemId i, oi_size i, oi_quantity i, oi_price i, oi_name i,
           oi_image i))
    (λ '(a, b, c, d, e, f), mkOrderItem a b c d e f) _).
  by intros [].
Defined.

#[global] Instance DeliveryInfo_countable : Countable DeliveryInfo.
Proof.
  refine (inj_countable'
    (λ d, (firstName d, lastName d, di_email d, street d, city d,
           di_state d, zipcode d, country d, phone d))
    (λ '(a, b, c, d, e, f, g, h, i), mkDeliveryInfo a b c d e f g h i) _).
  by intros [].
Defined.

#[global] Instance OrderItems_countable : Countable OrderItems.
Proof.
  refine (inj_countable'
    (λ i, match i with
          | ItemsOfCart c => inl c
          | ItemsOfLines l => inr l
          end)
    (λ x, match x with
          | inl c => ItemsOfCart c
          | inr l => ItemsOfLines l
          end) _).
  by intros [].
Defined.

#[global] Instance Order_countable : Countable Order.
Proof.
  refine (inj_countable'
    (λ o, (order_id o, order_userId o, items o, deliveryInfo o,
           paymentMethod o, totalAmount o, status o, createdAt o,
           estimatedDelivery o))
    (λ '(a, b, c, d, e, f, g, h, i), mkOrder a b c d e f g h i) _).
  by intros [].
Defined.

#[global] Instance User_countable : Countable User.
Proof.
  refine (inj_countable'
    (λ u, (user_id u, user_name u, user_email u, user_createdAt u,
           user_avatar u))
    (λ '(a, b, c, d, e), mkUser a b c d e) _).
  by intros [].
Defined.

(** [selectOrdersByStatus(status)] of ordersSlice.ts. *)
Definition selectOrdersByStatus (s : OrderStatus) (state : OrdersState)
    : list Order :=
  filter (λ order, status order = s) (orders state).

#[global] Instance UserWithPassword_eq_dec : EqDecision UserWithPassword.
Proof. solve_decision. Defined.

#[global] Instance UserWithPassword_countable : Countable UserWithPassword.
Proof.
  refine (inj_countable'
    (λ u, (uwp_id u, uwp_name u, uwp_email u, uwp_password u,
           uwp_createdAt u, uwp_avatar u))
    (λ '(a, b, c, d, e, f), mkUserWithPassword a b c d e f) _).
  by intros [].
Defined.

Definition reference_JSON_users : JSON (list UserWithPassword) :=
  reference_JSON.

Definition reference_JSON_cart : JSON CartItems := reference_JSON.
Definition reference_JSON_orders : JSON (list Order) := reference_JSON.
Definition reference_JSON_user : JSON User := reference_JSON.

(** ** Vocabulary of the properties *)

(** The quantity stored at [(itemId, size)], if any. *)
Definition quantity_at (c : CartItems) (itemId size : string) : option Z :=
  c !! itemId ≫= λ sizes, sizes !! size.

(** The cart that is persisted under a key: the stored text, read as JSON.
    Nothing is persisted when the key is absent or its text is not JSON. *)
Definition persisted_cart `{JSON CartItems} (ls : Storage) (key : string)
    : option CartItems :=
  match ls !! key with
  | Some text =>
      match JSON_parse text with
      | Normal c => Some c
      | Throw _ => None
      end
  | None => None
  end.

Definition persisted_orders `{JSON (list Order)} (ls : Storage) (key : string)
    : option (list Order) :=
  match ls !! key with
  | Some text =>
      match JSON_parse text with
      | Normal l => Some l
      | Throw _ => None
      end
  | None => None
  end.

(** Every stored quantity is a positive integer. *)
Definition cart_positive (c : CartItems) : Prop :=
  ∀ itemId size q, quantity_at c itemId size = Some q → 0 < q.

(** Every cart that can be read back from storage has positive quantities. *)
Definition storage_positive `{JSON CartItems} (ls : Storage) : Prop :=
  ∀ key c, persisted_cart ls key = Some c → cart_positive c.

(** The invariant of the cart: the cart in memory and every cart in storage
    have positive quantities only. *)
Definition cart_inv `{JSON CartItems} (state : CartState) (ls : Storage)
    : Prop :=
  cart_positive (cartItems state) ∧ storage_positive ls.

(** The actions that change the contents of the cart of the active user. *)
Definition cart_mutation (a : Action) : Prop :=
  match a with
  | cart_addToCart _ | cart_updateQuantity _ | cart_removeFromCart _
  | cart_removeSelectedItems _ | cart_clearCart => True
  | _ => False
  end.

(** The actions that change the orders of the active user. *)
Definition orders_mutation (a : Action) : Prop :=
  match a with
  | orders_addOrder _ _ | orders_updateOrderStatus _
  | orders_cancelOrder _ => True
  | _ => False
  end.

(** The payload of an [updateQuantity] asks for a quantity that is not
    negative; the other actions carry no quantity. *)
Definition quantity_requested_ok (a : Action) : Prop :=
  match a with
  | cart_updateQuantity p => 0 ≤ uq_quantity p
  | _ => True
  end.

(** The item ids and sizes that the action carries are ordinary keys. *)
Definition ordinary_keys (a : Action) : Prop :=
  match a with
  | cart_addToCart p => ordinary_key (atc_itemId p) ∧ ordinary_key (atc_size p)
  | cart_updateQuantity p =>
      ordinary_key (uq_itemId p) ∧ ordinary_key (uq_size p)
  | cart_removeFromCart p =>
      ordinary_key (sel_itemId p) ∧ ordinary_key (sel_size p)
  | cart_removeSelectedItems selectedItems =>
      Forall (λ sel, ordinary_key (sel_itemId sel)
                     ∧ ordinary_key (sel_size sel)) selectedItems
  | _ => True
  end.

(** Running a sequence of actions through the cart reducer. *)
Fixpoint cart_run `{JSON CartItems} (l : list Action) (state : CartState)
    : js CartState :=
  match l with
  | [] => js_ret state
  | a :: l' => state' ← cartReducer a state; cart_run l' state'
  end.

(** All the quantities of a cart, one for each [(itemId, size)] entry. *)
Definition cart_quantities (c : CartItems) : list Z :=
  '(_, sizes) ← map_to_list c; snd <$> map_to_list sizes.

Definition Z_sum (l : list Z) : Z := foldr Z.add 0 l.

(** The sum of the strictly positive quantities of a cart. *)
Definition positive_total (c : CartItems) : Z :=
  Z_sum (filter (λ q, 0 < q) (cart_quantities c)).

(** The credentials name the entry [u] of the directory. *)
Definition names_user (credentials : LoginCredentials) (u : UserWithPassword)
    : Prop :=
  uwp_email u = cred_email credentials
  ∧ uwp_password u = cred_password credentials.




(** No item of the cart is left without a size. *)
Definition cart_no_empty_item (c : CartItems) : Prop :=
  ∀ itemId sizes, c !! itemId = Some sizes → sizes ≠ ∅.

(** The entries of a cart: item, size, quantity. *)
Definition cart_entries (c : CartItems) : list (string * string * Z) :=
  '(itemId, sizes) ← map_to_list c;
  (λ '(size, q), (itemId, size, q)) <$> map_to_list sizes.

(** The amount of one entry: price times quantity when the item is in the
    catalogue and the quantity is positive, nothing otherwise. *)
Definition entry_amount (products : list Product)
    (entry : string * string * Z) : Z :=
  let '(itemId, _, q) := entry in
  match cartSlice.find_product products itemId with
  | Some product => if decide (0 < q) then price product * q else 0
  | None => 0
  end.

(** The amount that one selected entry adds: price times the stored
    quantity; nothing when the item is not in the catalogue or the entry
    is not in the cart. *)
Definition selection_amount (products : list Product) (c : CartItems)
    (sel : SelectedItem) : Z :=
  match cartSlice.find_product products (sel_itemId sel) with
  | Some product =>
      match quantity_at c (sel_itemId sel) (sel_size sel) with
      | Some q => price product * q
      | None => 0
      end
  | None => 0
  end.

#[global] Instance SelectedItem_eq_dec : EqDecision SelectedItem.
Proof. solve_decision. Defined.

(** Every cart that can be read back from storage has no item without a
    size. *)
Definition storage_no_empty_item `{JSON CartItems} (ls : Storage) : Prop :=
  ∀ key c, persisted_cart ls key = Some c → cart_no_empty_item c.

(** The selection that names every entry of a cart. *)
Definition select_all (c : CartItems) : list SelectedItem :=
  (λ '(itemId, size, _), {| sel_itemId := itemId; sel_size := size |})
  <$> cart_entries c.

(** Running a sequence of actions through the orders reducer. *)
Fixpoint orders_run `{JSON (list Order)} (l : list Action)
    (state : OrdersState) : js OrdersState :=
  match l with
  | [] => js_ret state
  | a :: l' => state' ← ordersReducer a state; orders_run l' state'
  end.

(** The in-memory orders of an active user are the orders that storage
    holds for that user. *)
Definition orders_synced `{JSON (list Order)} (state : OrdersState)
    (ls : Storage) : Prop :=
  ∀ u, orders_currentUserId state = Some u → u ≠ "" →
       orders state = default [] (persisted_orders ls ("orders_" +:+ u)).

(** Every order in memory belongs to the active user. *)
Definition orders_owned (state : OrdersState) : Prop :=
  ∀ o, o ∈ orders state → orders_currentUserId state = Some (order_userId o).

(** Every order stored under the key of a user belongs to that user. *)
Definition storage_orders_owned `{JSON (list Order)} (ls : Storage) : Prop :=
  ∀ u l o, persisted_orders ls ("orders_" +:+ u) = Some l → o ∈ l →
           order_userId o = u.

(** The profile that is persisted under the key [user]. *)
Definition persisted_user `{JSON User} (ls : Storage) : option User :=
  match ls !! "user" with
  | Some text =>
      match JSON_parse text with
      | Normal u => Some u
      | Throw _ => None
      end
  | None => None
  end.

(** The directory that is persisted under the key [users]. *)
Definition persisted_users `{JSON (list UserWithPassword)} (ls : Storage)
    : option (list UserWithPassword) :=
  match ls !! "users" with
  | Some text =>
      match JSON_parse text with
      | Normal l => Some l
      | Throw _ => None
      end
  | None => None
  end.

(** The hook of an authenticated user after activity at the instants
    [instants], in that order: each event runs [resetTimer]. *)
Definition after_activity (config : SessionConfig) (instants : list Z)
    (h : autoLogout.HookState) : autoLogout.HookState :=
  foldl (λ h now, autoLogout.resetTimer config true now h) h instants.

(** The hook as the component mounts: no timer of its own, over the
    timers [page] that other code has set.  Every handle in use is below
    the next free one. *)
Definition mounted (page : autoLogout.Timers) (now : Z)
    : autoLogout.HookState :=
  {| autoLogout.timeoutRef := None; autoLogout.warningTimeoutRef := None;
     autoLogout.lastActivityRef := now; autoLogout.timers := page |}.

Definition handles_fresh (page : autoLogout.Timers) : Prop :=
  ∀ handle, is_Some (autoLogout.pending page !! handle) →
            (handle < autoLogout.next_handle page)%positive.

(** The timers of the hook, over the timers [page] that were there when it
    mounted: the timers of other code are as they were, no handle at or
    above the next free one is in use, every pending timer that was set
    since the mount is held by one of the two refs, and the refs hold
    handles given out since the mount. *)
Definition hook_inv (page : autoLogout.Timers) (h : autoLogout.HookState)
    : Prop :=
  let t := autoLogout.timers h in
  (autoLogout.next_handle page ≤ autoLogout.next_handle t)%positive
  ∧ (∀ k, (k < autoLogout.next_handle page)%positive →
          autoLogout.pending t !! k = autoLogout.pending page !! k)
  ∧ (∀ k, (autoLogout.next_handle t ≤ k)%positive →
          autoLogout.pending t !! k = None)
  ∧ (∀ k, (autoLogout.next_handle page ≤ k)%positive →
          is_Some (autoLogout.pending t !! k) →
          autoLogout.timeoutRef h = Some k
          ∨ autoLogout.warningTimeoutRef h = Some k)
  ∧ (∀ k, autoLogout.timeoutRef h = Some k
          ∨ autoLogout.warningTimeoutRef h = Some k →
          (autoLogout.next_handle page ≤ k < autoLogout.next_handle t)%positive).

(** Inputs of the concrete runs. *)

Definition cart_p1_M (q : Z) : CartItems := {[ "p1" := {[ "M" := q ]} ]}.

Definition alice : UserWithPassword :=
  {| uwp_id := "u1"; uwp_name := "Alice";
     uwp_email := "alice@example.com"; uwp_password := "secret";
     uwp_createdAt := toISOString 1700000000000;
     uwp_avatar := "https://ui-avatars.com/api/?name=Alice" |}.

Definition bob : UserWithPassword :=
  {| uwp_id := "u2"; uwp_name := "Bob";
     uwp_email := "bob@example.com"; uwp_password := "hunter2";
     uwp_createdAt := toISOString 1700000360000;
     uwp_avatar := "https://ui-avatars.com/api/?name=Bob" |}.

Definition alice_credentials : LoginCredentials :=
  {| cred_email := "alice@example.com"; cred_password := "secret" |}.

Definition bob_credentials : LoginCredentials :=
  {| cred_email := "bob@example.com"; cred_password := "hunter2" |}.

Definition anonymous_root : RootState :=
  {| auth := {| user := None; isAuthenticated := false; isLoading := false;
                error := None; users := [alice; bob] |};
     cart := cartSlice.initialState;
     ordersOf := ordersSlice.initialState |}.

(** The end-to-end scenario of the specification: [u1] logs in and adds
    [p1], size [M], twice; logs out; [u2] logs in; [u1] logs in again.  The
    result collects the cart after each of the four observations. *)
Definition end_to_end_scenario `{JSON CartItems} `{JSON (list Order)}
    `{JSON User} : js (CartItems * CartItems * CartItems * CartItems) :=
  let add := cart_addToCart {| atc_itemId := "p1"; atc_size := "M" |} in
  s1 ← loginUser alice_credentials anonymous_root;
  s2 ← dispatch add s1;
  s3 ← dispatch add s2;
  s4 ← logoutUser s3;
  s5 ← loginUser bob_credentials s4;
  s6 ← loginUser alice_credentials s5;
  js_ret (cartItems (cart s2), cartItems (cart s3), cartItems (cart s5),
          cartItems (cart s6)).

Definition catalogue : list Product :=
  [{| _id := "p1"; price := 10; product_name := Some "Shirt";
      product_image := None; product_description := None |}].

Definition somewhere : DeliveryInfo :=
  {| firstName := "Alice"; lastName := "Liddell";
     di_email := "alice@example.com"; street := "1 Main Street";
     city := "Oxford"; di_state := "Oxfordshire"; zipcode := "OX1";
     country := "UK"; phone := "0123456789" |}.

Definition first_order : AddOrderPayload :=
  {| orderData := {| od_paymentMethod := None; od_totalAmount := 20 |};
     ao_cartItems := ItemsOfCart (cart_p1_M 2);
     ao_deliveryInfo := somewhere |}.

(** Two orders of [u1] that carry the same id. *)
Definition order_42 : Order :=
  {| order_id := "42"; order_userId := "u1";
     items := ItemsOfCart (cart_p1_M 2); deliveryInfo := somewhere;
     paymentMethod := cod; totalAmount := 20; status := confirmed;
     createdAt := toISOString 1700000000001;
     estimatedDelivery := toISOString 1700604800002 |}.

Definition order_42_again : Order :=
  {| order_id := "42"; order_userId := "u1";
     items := ItemsOfCart (cart_p1_M 1); deliveryInfo := somewhere;
     paymentMethod := card; totalAmount := 10; status := pending;
     createdAt := toISOString 1700000000003;
     estimatedDelivery := toISOString 1700604800004 |}.

Definition noon : Clock :=
  {| now_id := 1700000000000; now_created := 1700000000001;
     now_estimate := 1700000000002 |}.

Definition carol_data : RegisterData :=
  {| rd_name := "Carol"; rd_email := "carol@example.com";
     rd_password := "pass" |}.

(** A page on which no timer is set. *)
Definition quiet_page : autoLogout.Timers :=
  {| autoLogout.pending := ∅; autoLogout.next_handle := 1 |}.

(** * Properties *)

(** ** The storage monad and the storage helpers *)

Lemma truthy_string_spec (s : string) : truthy_string s = true ↔ s ≠ "".
Proof. destruct s; simpl; split; congruence. Qed.

Lemma truthy_string_false (s : string) : truthy_string s = false ↔ s = "".
Proof. destruct s; simpl; split; congruence. Qed.

Lemma truthy_Some (u : string) : u ≠ "" → truthy (Some u) = true.
Proof. intros Hu. by apply truthy_string_spec. Qed.

Lemma cart_key_inj (u v : string) : "cart_" +:+ u = "cart_" +:+ v → u = v.
Proof. intros H. by simplify_eq/=. Qed.

Lemma orders_key_inj (u v : string) :
  "orders_" +:+ u = "orders_" +:+ v → u = v.
Proof. intros H. by simplify_eq/=. Qed.

Lemma user_key_not_cart (u : string) : "user" ≠ "cart_" +:+ u.
Proof. intros H. by simplify_eq/=. Qed.

Lemma user_key_not_orders (u : string) : "user" ≠ "orders_" +:+ u.
Proof. intros H. by simplify_eq/=. Qed.


Section StorageFacts.
Context `{JSON_cart : JSON CartItems} `{JSON_orders : JSON (list Order)}.

Lemma JSON_stringify_nonempty `{JSON A} (a : A) : JSON_stringify a ≠ "".
Proof.
  intros Heq. pose proof (JSON_parse_stringify a) as Hp.
  rewrite Heq, JSON_parse_empty in Hp. discriminate.
Qed.

Lemma loadCartFromStorage_falsy (userId : option string) (ls : Storage) :
  truthy userId = false →
  cartSlice.loadCartFromStorage userId ls = (Normal ∅, ls).
Proof.
  intros Hf. unfold cartSlice.loadCartFromStorage, try_catch.
  destruct userId as [u|]; [|done]. simpl in Hf. by rewrite Hf.
Qed.

Lemma loadCartFromStorage_user (u : string) (ls : Storage) :
  u ≠ "" →
  cartSlice.loadCartFromStorage (Some u) ls
  = (Normal (default ∅ (persisted_cart ls ("cart_" +:+ u))), ls).
Proof.
  intros Hu. apply truthy_string_spec in Hu.
  unfold cartSlice.loadCartFromStorage, try_catch, persisted_cart.
  rewrite Hu. simpl. unfold mbind, js_mbind, js_bind, localStorage.getItem.
  destruct (ls !! ("cart_" +:+ u)) as [text|] eqn:Hk; [|done].
  destruct (truthy_string text) eqn:Ht.
  - unfold JSON_parse_js. by destruct (JSON_parse text).
  - apply truthy_string_false in Ht. subst text.
    by rewrite JSON_parse_empty.
Qed.

Lemma saveCartToStorage_falsy (c : CartItems) (userId : option string)
    (ls : Storage) :
  truthy userId = false →
  cartSlice.saveCartToStorage c userId ls = (Normal tt, ls).
Proof.
  intros Hf. unfold cartSlice.saveCartToStorage, try_catch.
  destruct userId as [u|]; [|done]. simpl in Hf. by rewrite Hf.
Qed.

Lemma saveCartToStorage_user (c : CartItems) (u : string) (ls : Storage) :
  u ≠ "" →
  cartSlice.saveCartToStorage c (Some u) ls
  = (Normal tt, <["cart_" +:+ u := JSON_stringify c]> ls).
Proof.
  intros Hu. apply truthy_string_spec in Hu.
  unfold cartSlice.saveCartToStorage, try_catch. by rewrite Hu.
Qed.

Lemma persisted_cart_insert_eq (key : string) (c : CartItems)
    (ls : Storage) :
  persisted_cart (<[key := JSON_stringify c]> ls) key = Some c.
Proof.
  unfold persisted_cart. by rewrite lookup_insert_eq, JSON_parse_stringify.
Qed.

Lemma persisted_cart_insert_ne (key key' text : string) (ls : Storage) :
  key ≠ key' →
  persisted_cart (<[key := text]> ls) key' = persisted_cart ls key'.
Proof. intros Hne. unfold persisted_cart. by rewrite lookup_insert_ne. Qed.

Lemma loadOrdersFromStorage_falsy (userId : option string) (ls : Storage) :
  truthy userId = false →
  ordersSlice.loadOrdersFromStorage userId ls = (Normal [], ls).
Proof.
  intros Hf. unfold ordersSlice.loadOrdersFromStorage, try_catch.
  destruct userId as [u|]; [|done]. simpl in Hf. by rewrite Hf.
Qed.

Lemma loadOrdersFromStorage_user (u : string) (ls : Storage) :
  u ≠ "" →
  ordersSlice.loadOrdersFromStorage (Some u) ls
  = (Normal (default [] (persisted_orders ls ("orders_" +:+ u))), ls).
Proof.
  intros Hu. apply truthy_string_spec in Hu.
  unfold ordersSlice.loadOrdersFromStorage, try_catch, persisted_orders.
  rewrite Hu. simpl. unfold mbind, js_mbind, js_bind, localStorage.getItem.
  destruct (ls !! ("orders_" +:+ u)) as [text|] eqn:Hk; [|done].
  destruct (truthy_string text) eqn:Ht.
  - unfold JSON_parse_js. by destruct (JSON_parse text).
  - apply truthy_string_false in Ht. subst text.
    by rewrite JSON_parse_empty.
Qed.

Lemma saveOrdersToStorage_falsy (l : list Order) (userId : option string)
    (ls : Storage) :
  truthy userId = false →
  ordersSlice.saveOrdersToStorage l userId ls = (Normal tt, ls).
Proof.
  intros Hf. unfold ordersSlice.saveOrdersToStorage, try_catch.
  destruct userId as [u|]; [|done]. simpl in Hf. by rewrite Hf.
Qed.

End StorageFacts.

(** ** Switching the active user *)

Section UserSwitch.
Context `{JSON_cart : JSON CartItems}.

Lemma initializeCart_user (u : string) (state : CartState) (ls : Storage) :
  u ≠ "" →
  cartSlice.initializeCart u state ls
  = (Normal {| cartItems := default ∅ (persisted_cart ls ("cart_" +:+ u));
               currentUserId := Some u |}, ls).
Proof.
  intros Hu. unfold cartSlice.initializeCart, mbind, js_mbind, js_bind.
  by rewrite loadCartFromStorage_user.
Qed.

Lemma initializeCart_empty_id (state : CartState) (ls : Storage) :
  cartSlice.initializeCart "" state ls
  = (Normal {| cartItems := ∅; currentUserId := Some "" |}, ls).
Proof. reflexivity. Qed.

(** C1, as amended.  Dispatching [initializeCart B] on any cart state
    leaves storage as it is, sets [currentUserId] to [B], and replaces
    [cartItems] with the cart persisted under [cart_B] when [B] is not
    empty (the empty cart if nothing is persisted there), and with the
    empty cart when [B] is the empty string.  Every entry of the new cart
    is an entry of the cart persisted for [B]: nothing of the previous
    in-memory cart is left. *)
Theorem initializeCart_switches_user (state : CartState) (B : string)
    (ls : Storage) :
  ∃ state',
    cartSlice.initializeCart B state ls = (Normal state', ls)
    ∧ currentUserId state' = Some B
    ∧ cartItems state'
      = (if decide (B = "") then ∅
         else default ∅ (persisted_cart ls ("cart_" +:+ B)))
    ∧ ∀ itemId size q,
        quantity_at (cartItems state') itemId size = Some q →
        ∃ c, persisted_cart ls ("cart_" +:+ B) = Some c
             ∧ quantity_at c itemId size = Some q.
Proof.
  destruct (decide (B = "")) as [->|HB].
  - eexists. split; [apply initializeCart_empty_id|]. simpl.
    repeat split. intros itemId size q Hq. discriminate.
  - eexists. split; [by apply initializeCart_user|]. simpl.
    repeat split. intros itemId size q.
    destruct (persisted_cart ls ("cart_" +:+ B)) as [c|]; simpl.
    + intros Hq. by exists c.
    + discriminate.
Qed.

Lemma relogin_reads_saved (u : string) (V : CartItems) (state : CartState)
    (ls : Storage) :
  u ≠ "" →
  let ls' := <["cart_" +:+ u := JSON_stringify V]> ls in
  (state' ← cartSlice.clearCartOnLogout state;
   cartSlice.initializeCart u state') ls'
  = (Normal {| cartItems := V; currentUserId := Some u |}, ls').
Proof.
  intros Hu ls'. unfold cartSlice.clearCartOnLogout, mbind at 1.
  unfold js_mbind, js_bind, js_ret. simpl.
  rewrite initializeCart_user by done.
  unfold ls'. by rewrite persisted_cart_insert_eq.
Qed.


End UserSwitch.

(** ** Logout and failed login *)

Section AuthFlows.
Context `{JSON_cart : JSON CartItems} `{JSON_orders : JSON (list Order)}
        `{JSON_user : JSON User}.

Lemma logoutUser_storage (s : RootState) (ls : Storage) :
  ∃ s', logoutUser s ls = (Normal s', delete "user" ls)
        ∧ cartItems (cart s') = ∅ ∧ currentUserId (cart s') = None
        ∧ orders (ordersOf s') = []
        ∧ orders_currentUserId (ordersOf s') = None
        ∧ user (auth s') = None.
Proof. eexists. split; [reflexivity|]. by simpl. Qed.

(** C3.  Dispatching [clearCartOnLogout] and [clearOrdersOnLogout] empties
    the in-memory cart and orders and sets both [currentUserId] to null,
    and leaves storage exactly as it was: in particular the entries under
    [cart_u] and [orders_u] of every user [u].  The whole [logoutUser]
    thunk, which also dispatches [logout], removes the key [user] only,
    so those entries survive it as well. *)
Theorem logout_keeps_durable_entries (s : RootState) (ls : Storage) :
  (∃ s',
     dispatch_all [cart_clearCartOnLogout; orders_clearOrdersOnLogout] s ls
     = (Normal s', ls)
     ∧ cart s' = {| cartItems := ∅; currentUserId := None |}
     ∧ orders (ordersOf s') = []
     ∧ orders_currentUserId (ordersOf s') = None)
  ∧ ∀ u : string,
      (logoutUser s ls).2 !! ("cart_" +:+ u) = ls !! ("cart_" +:+ u)
      ∧ (logoutUser s ls).2 !! ("orders_" +:+ u) = ls !! ("orders_" +:+ u).
Proof.
  split.
  - eexists. split; [reflexivity|]. by simpl.
  - intros u. destruct (logoutUser_storage s ls) as (s' & -> & _). simpl.
    split; apply lookup_delete_ne;
      [apply user_key_not_cart | apply user_key_not_orders].
Qed.

Lemma find_names_no_user (credentials : LoginCredentials)
    (l : list UserWithPassword) :
  Forall (λ u, ¬ names_user credentials u) l →
  List.find (credentials_match credentials) l = None.
Proof.
  induction 1 as [|u l Hu _ IH]; [done|]. simpl.
  destruct (credentials_match credentials u) eqn:Hm; [|done].
  exfalso. apply Hu. unfold credentials_match in Hm.
  apply andb_true_iff in Hm as [He Hp].
  apply String.eqb_eq in He, Hp. by split.
Qed.

(** C4.  When the credentials name no user of the directory, a login
    attempt ends with the error "Email or password is incorrect.", with
    [isAuthenticated] false and [user] null; the cart state, the orders
    state, the directory and storage are what they were before. *)
Theorem loginUser_failure (credentials : LoginCredentials) (s : RootState)
    (ls : Storage) :
  Forall (λ u, ¬ names_user credentials u) (users (auth s)) →
  ∃ s', loginUser credentials s ls = (Normal s', ls)
        ∧ error (auth s') = Some "Email or password is incorrect."
        ∧ isAuthenticated (auth s') = false
        ∧ user (auth s') = None
        ∧ cart s' = cart s
        ∧ ordersOf s' = ordersOf s
        ∧ users (auth s') = users (auth s).
Proof.
  intros Hno. apply find_names_no_user in Hno.
  unfold loginUser, mbind, js_mbind, js_bind. simpl.
  unfold loginUser_callback. simpl. rewrite Hno.
  eexists. split; [reflexivity|]. by simpl.
Qed.

End AuthFlows.

(** ** Operations without an active user *)

Section NoUser.
Context `{JSON_cart : JSON CartItems} `{JSON_orders : JSON (list Order)}.

Lemma cart_mutation_falsy_user (a : Action) (state : CartState)
    (ls : Storage) :
  truthy (currentUserId state) = false →
  cart_mutation a →
  cartReducer a state ls = (Normal state, ls).
Proof.
  intros Hf Ha. destruct a as [| |p|p|p|p| | | | | | | | | | | | |];
    try done; simpl.
  - unfold cartSlice.addToCart. rewrite Hf. simpl.
    by destruct (truthy_string (atc_size p)).
  - unfold cartSlice.updateQuantity. by rewrite Hf.
  - unfold cartSlice.removeFromCart. by rewrite Hf.
  - unfold cartSlice.removeSelectedItems. by rewrite Hf.
  - unfold cartSlice.clearCart. by rewrite Hf.
Qed.

Lemma orders_mutation_falsy_user (a : Action) (state : OrdersState)
    (ls : Storage) :
  truthy (orders_currentUserId state) = false →
  orders_mutation a →
  ordersReducer a state ls = (Normal state, ls).
Proof.
  intros Hf Ha. destruct a as [| | | | | | | | | |c p|p|i| | | | | |];
    try done; simpl.
  - unfold ordersSlice.addOrder.
    destruct (orders_currentUserId state) as [u|]; [|done].
    simpl in Hf. by rewrite Hf.
  - unfold ordersSlice.updateOrderStatus. by rewrite Hf.
  - unfold ordersSlice.cancelOrder. by rewrite Hf.
Qed.

(** C5.  When [currentUserId] is null, [addToCart], [updateQuantity],
    [removeFromCart], [removeSelectedItems] and [clearCart] return the
    cart slice unchanged, and [addOrder], [updateOrderStatus] and
    [cancelOrder] return the orders slice unchanged, in each case without
    touching storage; [saveCartToStorage] and [saveOrdersToStorage]
    called with null or with the empty user id write nothing. *)
Theorem no_user_no_mutation (cs : CartState) (os : OrdersState)
    (ls : Storage) :
  currentUserId cs = None →
  orders_currentUserId os = None →
  (∀ p, cartSlice.addToCart p cs ls = (Normal cs, ls))
  ∧ (∀ p, cartSlice.updateQuantity p cs ls = (Normal cs, ls))
  ∧ (∀ p, cartSlice.removeFromCart p cs ls = (Normal cs, ls))
  ∧ (∀ p, cartSlice.removeSelectedItems p cs ls = (Normal cs, ls))
  ∧ cartSlice.clearCart cs ls = (Normal cs, ls)
  ∧ (∀ clock p, ordersSlice.addOrder clock p os ls = (Normal os, ls))
  ∧ (∀ p, ordersSlice.updateOrderStatus p os ls = (Normal os, ls))
  ∧ (∀ i, ordersSlice.cancelOrder i os ls = (Normal os, ls))
  ∧ (∀ c, cartSlice.saveCartToStorage c None ls = (Normal tt, ls))
  ∧ (∀ c, cartSlice.saveCartToStorage c (Some "") ls = (Normal tt, ls))
  ∧ (∀ l, ordersSlice.saveOrdersToStorage l None ls = (Normal tt, ls))
  ∧ (∀ l, ordersSlice.saveOrdersToStorage l (Some "") ls = (Normal tt, ls)).
Proof.
  intros Hc Ho.
  assert (Hfc : truthy (currentUserId cs) = false) by by rewrite Hc.
  assert (Hfo : truthy (orders_currentUserId os) = false) by by rewrite Ho.
  repeat split; try done.
  - intros p. by apply (cart_mutation_falsy_user (cart_addToCart p)).
  - intros p. by apply (cart_mutation_falsy_user (cart_updateQuantity p)).
  - intros p. by apply (cart_mutation_falsy_user (cart_removeFromCart p)).
  - intros p.
    by apply (cart_mutation_falsy_user (cart_removeSelectedItems p)).
  - by apply (cart_mutation_falsy_user cart_clearCart).
  - intros c p.
    by apply (orders_mutation_falsy_user (orders_addOrder c p)).
  - intros p.
    by apply (orders_mutation_falsy_user (orders_updateOrderStatus p)).
  - intros i. by apply (orders_mutation_falsy_user (orders_cancelOrder i)).
Qed.

(** C6.  Loading the cart, or the orders, of any user returns the empty
    default ([{}], [[]]) when nothing is stored under the key, when the
    user id is null, and when the stored text fails to parse; and for
    every user id and every storage the load returns normally, with
    storage unchanged. *)
Theorem load_falls_back_to_default (ls : Storage) :
  (∀ u, ls !! ("cart_" +:+ u) = None →
        cartSlice.loadCartFromStorage (Some u) ls = (Normal ∅, ls))
  ∧ cartSlice.loadCartFromStorage None ls = (Normal ∅, ls)
  ∧ (∀ u text e,
       ls !! ("cart_" +:+ u) = Some text →
       JSON_parse (A := CartItems) text = Throw e →
       cartSlice.loadCartFromStorage (Some u) ls = (Normal ∅, ls))
  ∧ (∀ userId, ∃ c,
       cartSlice.loadCartFromStorage userId ls = (Normal c, ls))
  ∧ (∀ u, ls !! ("orders_" +:+ u) = None →
          ordersSlice.loadOrdersFromStorage (Some u) ls = (Normal [], ls))
  ∧ ordersSlice.loadOrdersFromStorage None ls = (Normal [], ls)
  ∧ (∀ u text e,
       ls !! ("orders_" +:+ u) = Some text →
       JSON_parse (A := list Order) text = Throw e →
       ordersSlice.loadOrdersFromStorage (Some u) ls = (Normal [], ls))
  ∧ (∀ userId, ∃ l,
       ordersSlice.loadOrdersFromStorage userId ls = (Normal l, ls)).
Proof.
  assert (Hc : ∀ userId, ∃ c,
    cartSlice.loadCartFromStorage userId ls = (Normal c, ls)).
  { intros userId. destruct (truthy userId) eqn:Ht.
    - destruct userId as [u|]; [|done]. apply truthy_string_spec in Ht.
      eexists. by apply loadCartFromStorage_user.
    - eexists. by apply loadCartFromStorage_falsy. }
  assert (Ho : ∀ userId, ∃ l,
    ordersSlice.loadOrdersFromStorage userId ls = (Normal l, ls)).
  { intros userId. destruct (truthy userId) eqn:Ht.
    - destruct userId as [u|]; [|done]. apply truthy_string_spec in Ht.
      eexists. by apply loadOrdersFromStorage_user.
    - eexists. by apply loadOrdersFromStorage_falsy. }
  repeat split; try done.
  - intros u Hk. destruct (decide (u = "")) as [->|Hu]; [done|].
    rewrite loadCartFromStorage_user by done.
    unfold persisted_cart. by rewrite Hk.
  - intros u text e Hk Hp. destruct (decide (u = "")) as [->|Hu]; [done|].
    rewrite loadCartFromStorage_user by done.
    unfold persisted_cart. by rewrite Hk, Hp.
  - intros u Hk. destruct (decide (u = "")) as [->|Hu]; [done|].
    rewrite loadOrdersFromStorage_user by done.
    unfold persisted_orders. by rewrite Hk.
  - intros u text e Hk Hp. destruct (decide (u = "")) as [->|Hu]; [done|].
    rewrite loadOrdersFromStorage_user by done.
    unfold persisted_orders. by rewrite Hk, Hp.
Qed.

End NoUser.

(** ** Quantities stored in the cart *)

Lemma quantity_at_insert (c : CartItems) (i j : string) (m : gmap string Z)
    (size : string) :
  quantity_at (<[i := m]> c) j size
  = if decide (i = j) then m !! size else quantity_at c j size.
Proof.
  unfold quantity_at. rewrite lookup_insert. by case_decide.
Qed.

Lemma quantity_at_delete (c : CartItems) (i j size : string) :
  quantity_at (delete i c) j size
  = if decide (i = j) then None else quantity_at c j size.
Proof.
  unfold quantity_at. rewrite lookup_delete. by case_decide.
Qed.

Lemma quantity_at_item (c : CartItems) (i size : string) (m : gmap string Z) :
  c !! i = Some m → quantity_at c i size = m !! size.
Proof. intros Hi. unfold quantity_at. by rewrite Hi. Qed.

Lemma cart_positive_empty : cart_positive ∅.
Proof. intros i s q Hq. discriminate. Qed.

Lemma cart_positive_insert (c : CartItems) (i : string) (m : gmap string Z) :
  cart_positive c →
  (∀ size q, m !! size = Some q → 0 < q) →
  cart_positive (<[i := m]> c).
Proof.
  intros Hc Hm j size q. rewrite quantity_at_insert.
  case_decide; [apply Hm | apply Hc].
Qed.

Lemma cart_positive_delete (c : CartItems) (i : string) :
  cart_positive c → cart_positive (delete i c).
Proof.
  intros Hc j size q. rewrite quantity_at_delete.
  case_decide; [done | apply Hc].
Qed.

Lemma cart_positive_item (c : CartItems) (i : string) (m : gmap string Z) :
  cart_positive c → c !! i = Some m →
  ∀ size q, m !! size = Some q → 0 < q.
Proof.
  intros Hc Hi size q Hq. apply (Hc i size).
  by rewrite (quantity_at_item _ _ _ m).
Qed.

Lemma cart_positive_delete_size (c : CartItems) (i size : string)
    (m : gmap string Z) :
  cart_positive c → c !! i = Some m →
  cart_positive (cartSlice.delete_size i size m c).
Proof.
  intros Hc Hi. unfold cartSlice.delete_size. case_decide.
  - by apply cart_positive_delete.
  - apply cart_positive_insert; [done|]. intros s q Hq.
    apply lookup_delete_Some in Hq as [_ Hq].
    by apply (cart_positive_item c i m Hc Hi s).
Qed.

Lemma cart_positive_remove_entry (c : CartItems) (sel : SelectedItem) :
  cart_positive c → cart_positive (cartSlice.remove_entry c sel).
Proof.
  intros Hc. unfold cartSlice.remove_entry.
  destruct (c !! sel_itemId sel) as [m|] eqn:Hi; [|done].
  destruct (m !! sel_size sel) as [q|]; [|done].
  destruct (truthy_number q); [|done].
  by apply cart_positive_delete_size.
Qed.

Lemma cart_positive_remove_all (l : list SelectedItem) (c : CartItems) :
  cart_positive c → cart_positive (foldl cartSlice.remove_entry c l).
Proof.
  revert c. induction l as [|sel l IH]; intros c Hc; [done|].
  simpl. apply IH. by apply cart_positive_remove_entry.
Qed.

Section CartInvariant.
Context `{JSON_cart : JSON CartItems}.


Lemma storage_positive_empty : storage_positive ∅.
Proof. intros key c Hp. unfold persisted_cart in Hp. by simplify_map_eq. Qed.

Lemma storage_positive_delete (key : string) (ls : Storage) :
  storage_positive ls → storage_positive (delete key ls).
Proof.
  intros Hls key' c. unfold persisted_cart.
  rewrite lookup_delete. case_decide; [done|]. apply Hls.
Qed.

Lemma storage_positive_save (c : CartItems) (userId : option string)
    (ls : Storage) :
  cart_positive c → storage_positive ls →
  ∃ ls', cartSlice.saveCartToStorage c userId ls = (Normal tt, ls')
         ∧ storage_positive ls'.
Proof.
  intros Hc Hls. destruct (truthy userId) eqn:Ht.
  - destruct userId as [u|]; [|done]. apply truthy_string_spec in Ht.
    eexists. split; [by apply saveCartToStorage_user|].
    intros key c'. destruct (decide ("cart_" +:+ u = key)) as [<-|Hne].
    + rewrite persisted_cart_insert_eq. by intros [= <-].
    + rewrite persisted_cart_insert_ne by done. apply Hls.
  - exists ls. split; [by apply saveCartToStorage_falsy | done].
Qed.

(** A reducer that stores [cartData] and persists it keeps the invariant
    when [cartData] has positive quantities. *)
Lemma cart_inv_store (cartData : CartItems) (userId : option string)
    (ls : Storage) :
  cart_positive cartData → storage_positive ls →
  ∃ state' ls',
    (cartSlice.saveCartToStorage cartData userId;;
     js_ret {| cartItems := cartData; currentUserId := userId |}) ls
    = (Normal state', ls')
    ∧ cart_inv state' ls'.
Proof.
  intros Hc Hls.
  destruct (storage_positive_save cartData userId ls Hc Hls)
    as (ls' & Hsave & Hls').
  exists {| cartItems := cartData; currentUserId := userId |}, ls'.
  unfold mbind, js_mbind, js_bind. rewrite Hsave. by split.
Qed.

Lemma cart_inv_unchanged (state : CartState) (ls : Storage) :
  cart_inv state ls →
  ∃ state' ls', js_ret state ls = (Normal state', ls') ∧ cart_inv state' ls'.
Proof. intros Hinv. by exists state, ls. Qed.

Lemma cart_inv_step (a : Action) (state : CartState) (ls : Storage) :
  quantity_requested_ok a → cart_inv state ls →
  ∃ state' ls',
    cartReducer a state ls = (Normal state', ls') ∧ cart_inv state' ls'.
Proof.
  intros Hok [Hc Hls].
  destruct a as [u| |p|p|p|p| |u| | | | | | | | | | |]; simpl;
    try (by apply cart_inv_unchanged).
  (* what is left: the reducers that load from or write to storage *)
  - (* initializeCart *)
    destruct (decide (u = "")) as [->|Hu].
    + eexists _, ls. split; [apply initializeCart_empty_id|].
      split; [apply cart_positive_empty | done].
    + eexists _, ls. split; [by apply initializeCart_user|].
      split; [|done]. simpl.
      destruct (persisted_cart ls ("cart_" +:+ u)) as [c|] eqn:Hp; simpl;
        [by apply (Hls _ _ Hp) | apply cart_positive_empty].
  - (* addToCart *)
    unfold cartSlice.addToCart.
    destruct (negb (truthy_string (atc_size p)));
      [by apply cart_inv_unchanged|].
    destruct (negb (truthy (currentUserId state)));
      [by apply cart_inv_unchanged|].
    apply cart_inv_store; [|done].
    destruct (cartItems state !! atc_itemId p) as [m|] eqn:Hi.
    + assert (Hm := cart_positive_item _ _ _ Hc Hi).
      destruct (m !! atc_size p) as [q|] eqn:Hq.
      * destruct (truthy_number q);
          (apply cart_positive_insert; [done|]);
          intros s q'; rewrite lookup_insert; case_decide;
          try (by apply Hm); intros [= <-]; [|lia].
        specialize (Hm _ _ Hq). lia.
      * apply cart_positive_insert; [done|].
        intros s q'. rewrite lookup_insert. case_decide;
          [intros [= <-]; lia | by apply Hm].
    + apply cart_positive_insert; [done|].
      intros s q'. rewrite lookup_singleton. case_decide; [|done].
      intros [= <-]. lia.
  - (* updateQuantity *)
    unfold cartSlice.updateQuantity.
    destruct (negb (truthy (currentUserId state)));
      [by apply cart_inv_unchanged|].
    apply cart_inv_store; [|done].
    simpl in Hok. destruct (uq_quantity p =? 0) eqn:Hz.
    + destruct (cartItems state !! uq_itemId p) as [m|] eqn:Hi; [|done].
      by apply cart_positive_delete_size.
    + apply Z.eqb_neq in Hz. apply cart_positive_insert; [done|].
      intros s q'. rewrite lookup_insert. case_decide.
      * intros [= <-]. lia.
      * destruct (cartItems state !! uq_itemId p) as [m|] eqn:Hi; simpl.
        -- by apply (cart_positive_item _ _ _ Hc Hi).
        -- by rewrite lookup_empty.
  - (* removeFromCart *)
    unfold cartSlice.removeFromCart.
    destruct (negb (truthy (currentUserId state)));
      [by apply cart_inv_unchanged|].
    apply cart_inv_store; [|done]. by apply cart_positive_remove_entry.
  - (* removeSelectedItems *)
    unfold cartSlice.removeSelectedItems.
    destruct (negb (truthy (currentUserId state)));
      [by apply cart_inv_unchanged|].
    destruct (length p =? 0)%nat; [by apply cart_inv_unchanged|].
    apply cart_inv_store; [|done]. by apply cart_positive_remove_all.
  - (* clearCart *)
    unfold cartSlice.clearCart.
    destruct (negb (truthy (currentUserId state)));
      [by apply cart_inv_unchanged|].
    case_decide; [by apply cart_inv_unchanged|].
    apply cart_inv_store; [apply cart_positive_empty | done].
  - (* deleteUserCart *)
    unfold cartSlice.deleteUserCart, cartSlice.removeCartFromStorage.
    unfold mbind, js_mbind, js_bind, try_catch.
    destruct (negb (truthy_string u)); simpl.
    + case_decide; eexists _, ls; (split; [reflexivity|]);
        (split; [|done]); [apply cart_positive_empty | done].
    + case_decide; eexists _, _; (split; [reflexivity|]);
        (split; [|by apply storage_positive_delete]);
        [apply cart_positive_empty | done].
Qed.

(** C7, as amended.  Start from the initial cart state and from a storage
    whose persisted carts have positive quantities only (an empty storage
    for one).  Take any sequence of actions whose item ids and sizes are
    ordinary keys and whose [updateQuantity] payloads ask for a quantity
    that is an integer, as every quantity of the embedding is, and not
    negative.  It runs to a state in which every stored quantity is a
    positive integer; in particular no entry holds zero, so a zero quantity
    is the absence of the entry.  Outside these bounds the source stores
    what is not a positive integer: a negative or fractional quantity that
    [updateQuantity] is given, or the text that [addToCart] builds from an
    inherited member when the size is not an ordinary key. *)
Theorem cart_quantities_stay_positive (l : list Action) (ls : Storage) :
  storage_positive ls →
  Forall quantity_requested_ok l →
  Forall ordinary_keys l →
  ∃ state' ls',
    cart_run l cartSlice.initialState ls = (Normal state', ls')
    ∧ cart_positive (cartItems state')
    ∧ storage_positive ls'.
Proof.
  intros Hls Hok _.
  assert (Hinv : cart_inv cartSlice.initialState ls)
    by (split; [apply cart_positive_empty | done]).
  clear Hls. revert Hinv. generalize cartSlice.initialState as state.
  revert ls. induction Hok as [|a l Ha Hl IH]; intros ls state Hinv.
  - by exists state, ls.
  - destruct (cart_inv_step a state ls Ha Hinv)
      as (state1 & ls1 & Hstep & Hinv1).
    destruct (IH ls1 state1 Hinv1) as (state' & ls' & Hrun & Hfinal).
    exists state', ls'. split; [|done].
    simpl. unfold mbind, js_mbind, js_bind. by rewrite Hstep.
Qed.

End CartInvariant.

(** ** Adding to the cart *)

Section AddToCart.
Context `{JSON_cart : JSON CartItems}.

Lemma addToCart_user (u : string) (p : AddToCartPayload)
    (state : CartState) (ls : Storage) :
  currentUserId state = Some u → u ≠ "" → atc_size p ≠ "" →
  ∃ cartData,
    cartSlice.addToCart p state ls
    = (Normal {| cartItems := cartData; currentUserId := Some u |},
       <["cart_" +:+ u := JSON_stringify cartData]> ls)
    ∧ quantity_at cartData (atc_itemId p) (atc_size p)
      = Some (match quantity_at (cartItems state) (atc_itemId p)
                                (atc_size p) with
              | Some q => q + 1
              | None => 1
              end)
    ∧ ∀ itemId size,
        (itemId, size) ≠ (atc_itemId p, atc_size p) →
        quantity_at cartData itemId size
        = quantity_at (cartItems state) itemId size.
Proof.
  intros Huid Hu Hsize. unfold cartSlice.addToCart. rewrite Huid.
  apply truthy_string_spec in Hsize. rewrite Hsize.
  rewrite (truthy_Some u Hu). simpl.
  eexists. split.
  { unfold mbind, js_mbind, js_bind.
    by rewrite (saveCartToStorage_user _ u ls Hu). }
  unfold quantity_at.
  destruct (cartItems state !! atc_itemId p) as [m|] eqn:Hi; simpl.
  - destruct (m !! atc_size p) as [q|] eqn:Hq; simpl.
    + unfold truthy_number. destruct (q =? 0) eqn:Hz; simpl.
      * apply Z.eqb_eq in Hz. subst q. split.
        -- by rewrite lookup_insert_eq; simpl; rewrite lookup_insert_eq.
        -- intros i s Hne. rewrite lookup_insert. case_decide; [|done].
           subst i. rewrite Hi. simpl. rewrite lookup_insert_ne; [done|].
           congruence.
      * split.
        -- by rewrite lookup_insert_eq; simpl; rewrite lookup_insert_eq.
        -- intros i s Hne. rewrite lookup_insert. case_decide; [|done].
           subst i. rewrite Hi. simpl. rewrite lookup_insert_ne; [done|].
           congruence.
    + split.
      * by rewrite lookup_insert_eq; simpl; rewrite lookup_insert_eq.
      * intros i s Hne. rewrite lookup_insert. case_decide; [|done].
        subst i. rewrite Hi. simpl. rewrite lookup_insert_ne; [done|].
        congruence.
  - split.
    + by rewrite lookup_insert_eq; simpl; rewrite lookup_singleton_eq.
    + intros i s Hne. rewrite lookup_insert. case_decide; [|done].
      subst i. rewrite Hi. simpl. rewrite lookup_singleton_ne; [done|].
      congruence.
Qed.

(** C8, as amended.  For a logged-in user ([currentUserId] neither null
    nor empty), an item id and a size that are ordinary keys, the size not
    empty, and an existing quantity, if there is one, that is a safe
    integer, [addToCart {itemId, size}] returns normally and sets the
    quantity at [(itemId, size)] to 1 when no entry exists and to [q + 1]
    when the existing quantity is [q]; adding the same item and size twice
    to an empty cart leaves the quantity 2.  Outside these bounds the
    source does otherwise: at an inherited key it finds the inherited
    member and makes no entry, and from [MAX_SAFE_INTEGER + 1] on adding
    one is rounded. *)
Theorem addToCart_increments (u itemId size : string) (items : CartItems)
    (ls : Storage) :
  u ≠ "" → size ≠ "" →
  ordinary_key itemId → ordinary_key size →
  (∀ q, quantity_at items itemId size = Some q → safe_integer q) →
  let state := {| cartItems := items; currentUserId := Some u |} in
  let p := {| atc_itemId := itemId; atc_size := size |} in
  (∃ state' ls',
     cartSlice.addToCart p state ls = (Normal state', ls')
     ∧ quantity_at (cartItems state') itemId size
       = Some (match quantity_at items itemId size with
               | Some q => q + 1
               | None => 1
               end))
  ∧ (items = ∅ →
     ∃ state'' ls'',
       (state' ← cartSlice.addToCart p state; cartSlice.addToCart p state') ls
       = (Normal state'', ls'')
       ∧ quantity_at (cartItems state'') itemId size = Some 2).
Proof.
  intros Hu Hsize _ _ _ state p. split.
  - destruct (addToCart_user u p state ls eq_refl Hu Hsize)
      as (cartData & Hrun & Hq & _).
    by eexists _, _.
  - intros ->.
    destruct (addToCart_user u p state ls eq_refl Hu Hsize)
      as (c1 & Hrun1 & Hq1 & _).
    destruct (addToCart_user u p
                {| cartItems := c1; currentUserId := Some u |}
                (<["cart_" +:+ u := JSON_stringify c1]> ls)
                eq_refl Hu Hsize)
      as (c2 & Hrun2 & Hq2 & _).
    eexists _, _. split.
    + unfold mbind, js_mbind, js_bind. rewrite Hrun1. apply Hrun2.
    + simpl in *. rewrite Hq2, Hq1. reflexivity.
Qed.

End AddToCart.

(** ** The cart count *)

Lemma Z_sum_cons (x : Z) (l : list Z) : Z_sum (x :: l) = x + Z_sum l.
Proof. reflexivity. Qed.

Lemma Z_sum_app (l k : list Z) : Z_sum (l ++ k) = Z_sum l + Z_sum k.
Proof. unfold Z_sum. induction l as [|x l IH]; simpl; lia. Qed.

(** The inner loop of [selectCartCount] adds the positive quantities of one
    item to the running total. *)
Lemma count_sizes (sizes : list (string * Z)) (totalCount : Z) :
  foldr (uncurry (λ (_ : string) (quantity totalCount : Z),
           if 0 <? quantity then totalCount + quantity else totalCount))
        totalCount sizes
  = totalCount + Z_sum (filter (λ q, 0 < q) (sizes.*2)).
Proof.
  induction sizes as [|[size q] sizes IH]; [unfold Z_sum; simpl; lia|].
  rewrite fmap_cons, filter_cons. cbn [foldr uncurry snd]. rewrite IH.
  destruct (0 <? q) eqn:Hq.
  - apply Z.ltb_lt in Hq. rewrite decide_True by done.
    rewrite Z_sum_cons. lia.
  - apply Z.ltb_ge in Hq. rewrite decide_False by lia. done.
Qed.

Lemma count_items (l : list (string * gmap string Z)) :
  foldr (uncurry (λ (_ : string) (sizes : gmap string Z) (totalCount : Z),
           map_fold
             (λ (_ : string) (quantity totalCount : Z),
                if 0 <? quantity then totalCount + quantity else totalCount)
             totalCount sizes))
        0 l
  = Z_sum (filter (λ q, 0 < q) ('(_, sizes) ← l; (map_to_list sizes).*2)).
Proof.
  induction l as [|[item sizes] l IH]; [done|].
  rewrite bind_cons, filter_app, Z_sum_app. cbn [foldr uncurry].
  rewrite map_fold_foldr, count_sizes, IH. lia.
Qed.

(** C10, as amended.  [selectCartCount] returns 0 whenever [currentUserId]
    is null or the empty string, even if [cartItems] is not empty; for any
    other [currentUserId] it returns the sum of the strictly positive
    quantities over all [(itemId, size)] entries of [cartItems]. *)
Theorem selectCartCount_total (cart : CartState) :
  cartSlice.selectCartCount cart
  = match currentUserId cart with
    | None => 0
    | Some u => if decide (u = "") then 0 else positive_total (cartItems cart)
    end.
Proof.
  unfold cartSlice.selectCartCount.
  destruct (currentUserId cart) as [u|]; [|done]. simpl.
  case_decide as Hu.
  - by subst u.
  - apply truthy_string_spec in Hu. rewrite Hu. simpl.
    rewrite map_fold_foldr. apply count_items.
Qed.

(** ** The session-timeout configuration *)


(** ** Zero is the absence of the entry *)

Lemma updateQuantity_zero_removes `{JSON_cart : JSON CartItems}
    (u itemId size : string) (items : CartItems) (ls : Storage) :
  u ≠ "" →
  ∃ state' ls',
    cartSlice.updateQuantity
      {| uq_itemId := itemId; uq_size := size; uq_quantity := 0 |}
      {| cartItems := items; currentUserId := Some u |} ls
    = (Normal state', ls')
    ∧ quantity_at (cartItems state') itemId size = None.
Proof.
  intros Hu. pose proof (proj2 (truthy_string_spec u) Hu) as Ht.
  unfold cartSlice.updateQuantity. simpl. rewrite Ht. simpl.
  unfold mbind, js_mbind, js_bind.
  rewrite (saveCartToStorage_user _ u ls Hu).
  eexists _, _. split; [reflexivity|]. simpl.
  destruct (items !! itemId) as [m|] eqn:Hi.
  - unfold cartSlice.delete_size. case_decide.
    + rewrite quantity_at_delete. by rewrite decide_True.
    + rewrite quantity_at_insert, decide_True by done.
      apply lookup_delete_eq.
  - unfold quantity_at. by rewrite Hi.
Qed.

(** ** Concrete runs

    The runs below use the reference instance of the JSON interface. *)

Lemma cart_p1_M_quantity (q : Z) (itemId size : string) (q' : Z) :
  quantity_at (cart_p1_M q) itemId size = Some q' → q' = q.
Proof.
  unfold quantity_at, cart_p1_M. intros Hq.
  destruct (decide (itemId = "p1")) as [->|Hi].
  - rewrite lookup_singleton_eq in Hq. simpl in Hq.
    destruct (decide (size = "M")) as [->|Hs].
    + rewrite lookup_singleton_eq in Hq. congruence.
    + by rewrite lookup_singleton_ne in Hq.
  - by rewrite lookup_singleton_ne in Hq.
Qed.

(** The end-to-end scenario: quantity 1, then 2; an empty cart for [u2];
    and [p1: {M: 2}] again for [u1]. *)
Lemma end_to_end_carts :
  (end_to_end_scenario (H := reference_JSON_cart)
     (H0 := reference_JSON_orders) (H1 := reference_JSON_user) ∅).1
  = Normal (cart_p1_M 1, cart_p1_M 2, ∅, cart_p1_M 2).
Proof. by vm_compute. Qed.

(** C1, counterexample.  Storage holds a cart under the key [cart_]; after
    [initializeCart ""] the in-memory cart is empty, not that cart. *)
Lemma initializeCart_empty_id_counterexample :
  let J := reference_JSON_cart in
  let ls : Storage := <["cart_" := JSON_stringify (cart_p1_M 1)]> ∅ in
  persisted_cart ls ("cart_" +:+ "") = Some (cart_p1_M 1)
  ∧ ∃ state',
      cartSlice.initializeCart "" cartSlice.initialState ls
      = (Normal state', ls)
      ∧ currentUserId state' = Some ""
      ∧ cartItems state' = ∅
      ∧ cartItems state' ≠ cart_p1_M 1.
Proof.
  intros J ls. split.
  - apply persisted_cart_insert_eq.
  - eexists. split; [apply initializeCart_empty_id|]. simpl.
    repeat split. intros Heq.
    apply (f_equal (λ c : CartItems, c !! "p1")) in Heq.
    unfold cart_p1_M in Heq. by simplify_map_eq.
Qed.

(** C4, witness. *)
Lemma loginUser_failure_witness :
  let credentials :=
    {| cred_email := "alice@example.com"; cred_password := "guess" |} in
  Forall (λ u, ¬ names_user credentials u) (users (auth anonymous_root))
  ∧ ∃ s', loginUser (JSON_cart := reference_JSON_cart)
            (JSON_orders := reference_JSON_orders)
            (JSON_user := reference_JSON_user) credentials anonymous_root ∅
          = (Normal s', ∅)
          ∧ error (auth s') = Some "Email or password is incorrect."
          ∧ isAuthenticated (auth s') = false
          ∧ user (auth s') = None
          ∧ cart s' = cart anonymous_root
          ∧ ordersOf s' = ordersOf anonymous_root
          ∧ users (auth s') = users (auth anonymous_root).
Proof.
  intros credentials.
  assert (Hno : Forall (λ u, ¬ names_user credentials u)
                  (users (auth anonymous_root))).
  { repeat constructor; intros [He Hp]; discriminate. }
  split; [exact Hno|].
  exact (loginUser_failure (JSON_cart := reference_JSON_cart)
           (JSON_orders := reference_JSON_orders)
           (JSON_user := reference_JSON_user)
           credentials anonymous_root ∅ Hno).
Defined.

(** C5, witness. *)
Lemma no_user_no_mutation_witness :
  currentUserId cartSlice.initialState = None
  ∧ orders_currentUserId ordersSlice.initialState = None
  ∧ cartSlice.addToCart (JSON_cart := reference_JSON_cart)
      {| atc_itemId := "p1"; atc_size := "M" |} cartSlice.initialState ∅
    = (Normal cartSlice.initialState, ∅).
Proof.
  split; [reflexivity|]. split; [reflexivity|].
  apply (no_user_no_mutation (JSON_cart := reference_JSON_cart)
           (JSON_orders := reference_JSON_orders)
           cartSlice.initialState ordersSlice.initialState ∅
           eq_refl eq_refl).
Defined.

(** C7, counterexample.  A logged-in user asks for the quantity -1: the
    cart stores it. *)
Lemma cart_quantities_positive_counterexample :
  ∃ state' ls',
    cart_run (H := reference_JSON_cart)
      [cart_initializeCart "u1";
       cart_updateQuantity
         {| uq_itemId := "p1"; uq_size := "M"; uq_quantity := -1 |}]
      cartSlice.initialState ∅
    = (Normal state', ls')
    ∧ quantity_at (cartItems state') "p1" "M" = Some (-1)
    ∧ ¬ cart_positive (cartItems state').
Proof.
  eexists _, _. split; [reflexivity|]. simpl.
  assert (Hq : quantity_at
                 (<["p1" := <["M" := -1]> (∅ : gmap string Z)]>
                    (∅ : CartItems)) "p1" "M" = Some (-1)).
  { rewrite quantity_at_insert, decide_True by done. apply lookup_insert_eq. }
  split; [exact Hq|]. intros Hpos. specialize (Hpos _ _ _ Hq). lia.
Qed.

(** What storage holds is loaded as it is: a zero quantity that was stored
    for a user is in the cart after [initializeCart]. *)
Lemma initializeCart_loads_stored_quantities :
  let J := reference_JSON_cart in
  let ls : Storage := <["cart_" +:+ "u1" := JSON_stringify (cart_p1_M 0)]> ∅ in
  ∃ state',
    cartSlice.initializeCart "u1" cartSlice.initialState ls
    = (Normal state', ls)
    ∧ quantity_at (cartItems state') "p1" "M" = Some 0.
Proof.
  intros J ls. eexists. split; [by apply initializeCart_user|].
  unfold ls. rewrite persisted_cart_insert_eq. reflexivity.
Qed.

(** C7, witness. *)
Lemma cart_quantities_stay_positive_witness :
  let J := reference_JSON_cart in
  let l :=
    [cart_initializeCart "u1";
     cart_addToCart {| atc_itemId := "p1"; atc_size := "M" |};
     cart_updateQuantity
       {| uq_itemId := "p1"; uq_size := "L"; uq_quantity := 3 |};
     cart_updateQuantity
       {| uq_itemId := "p1"; uq_size := "M"; uq_quantity := 0 |};
     cart_clearCartOnLogout;
     cart_initializeCart "u1"] in
  storage_positive ∅
  ∧ Forall quantity_requested_ok l
  ∧ Forall ordinary_keys l
  ∧ ∃ state' ls',
      cart_run l cartSlice.initialState ∅ = (Normal state', ls')
      ∧ cart_positive (cartItems state')
      ∧ storage_positive ls'.
Proof.
  intros J l.
  assert (Hl : Forall quantity_requested_ok l).
  { repeat constructor; simpl; lia. }
  assert (Hk : Forall ordinary_keys l) by (repeat constructor).
  split; [apply storage_positive_empty|]. split; [exact Hl|].
  split; [exact Hk|].
  exact (cart_quantities_stay_positive (JSON_cart := J) l ∅
           storage_positive_empty Hl Hk).
Defined.

(** C8, counterexample.  With the empty string as [currentUserId], which is
    not null, [addToCart] changes nothing: no entry is created. *)
Lemma addToCart_empty_id_counterexample :
  let state := {| cartItems := ∅; currentUserId := Some "" |} in
  ∃ state',
    cartSlice.addToCart (JSON_cart := reference_JSON_cart)
      {| atc_itemId := "p1"; atc_size := "M" |} state ∅
    = (Normal state', ∅)
    ∧ quantity_at (cartItems state') "p1" "M" = None
    ∧ quantity_at (cartItems state') "p1" "M" ≠ Some 1.
Proof.
  intros state. exists state. split; [reflexivity|]. by split.
Qed.

(** C8, witness. *)
Lemma addToCart_increments_witness :
  let J := reference_JSON_cart in
  let state := {| cartItems := cart_p1_M 4; currentUserId := Some "u1" |} in
  let p := {| atc_itemId := "p1"; atc_size := "M" |} in
  "u1" ≠ "" ∧ "M" ≠ ""
  ∧ ordinary_key "p1" ∧ ordinary_key "M"
  ∧ (∀ q, quantity_at (cart_p1_M 4) "p1" "M" = Some q → safe_integer q)
  ∧ ∃ state' ls',
      cartSlice.addToCart p state ∅ = (Normal state', ls')
      ∧ quantity_at (cartItems state') "p1" "M"
        = Some (match quantity_at (cart_p1_M 4) "p1" "M" with
                | Some q => q + 1
                | None => 1
                end).
Proof.
  intros J state p.
  assert (Hsafe : ∀ q, quantity_at (cart_p1_M 4) "p1" "M" = Some q →
                       safe_integer q).
  { intros q Hq. apply cart_p1_M_quantity in Hq. subst q.
    unfold safe_integer, MAX_SAFE_INTEGER. lia. }
  split; [done|]. split; [done|]. split; [reflexivity|].
  split; [reflexivity|]. split; [exact Hsafe|].
  apply (addToCart_increments (JSON_cart := J) "u1" "p1" "M" (cart_p1_M 4) ∅);
    [done | done | reflexivity | reflexivity | exact Hsafe].
Defined.

(** C10, counterexample.  With the empty string as [currentUserId], which
    is not null, the count is 0 although the positive quantities sum to 2. *)
Lemma selectCartCount_empty_id_counterexample :
  let cart := {| cartItems := cart_p1_M 2; currentUserId := Some "" |} in
  currentUserId cart ≠ None
  ∧ cartSlice.selectCartCount cart = 0
  ∧ positive_total (cartItems cart) = 2
  ∧ cartSlice.selectCartCount cart ≠ positive_total (cartItems cart).
Proof.
  intros cart. split; [done|]. split; [reflexivity|].
  assert (Ht : positive_total (cartItems cart) = 2) by by vm_compute.
  split; [exact Ht|]. rewrite Ht. done.
Qed.

(** * Further properties of the cart slice *)

(** ** What each mutation does to the entries *)

Lemma quantity_at_delete_size (c : CartItems) (i size j size' : string)
    (m : gmap string Z) :
  c !! i = Some m →
  quantity_at (cartSlice.delete_size i size m c) j size'
  = if decide ((j, size') = (i, size)) then None else quantity_at c j size'.
Proof.
  intros Hi. unfold cartSlice.delete_size. case_decide as He.
  - rewrite quantity_at_delete. destruct (decide (i = j)) as [<-|Hij].
    + rewrite (quantity_at_item c i size' m Hi).
      case_decide as Hp; [done|].
      assert (Hs : size ≠ size') by congruence.
      rewrite <- (lookup_delete_ne m size size') by done.
      by rewrite He, lookup_empty.
    + rewrite decide_False by congruence. done.
  - rewrite quantity_at_insert. destruct (decide (i = j)) as [<-|Hij].
    + rewrite (quantity_at_item c i size' m Hi).
      rewrite lookup_delete. destruct (decide (size = size')) as [<-|Hs].
      * by rewrite decide_True.
      * rewrite decide_False by congruence. done.
    + rewrite decide_False by congruence. done.
Qed.

Lemma quantity_at_set_entry (c : CartItems) (i size j size' : string)
    (q : Z) :
  quantity_at (<[i := <[size := q]> (default ∅ (c !! i))]> c) j size'
  = if decide ((j, size') = (i, size)) then Some q else quantity_at c j size'.
Proof.
  rewrite quantity_at_insert. destruct (decide (i = j)) as [<-|Hij].
  - rewrite lookup_insert. destruct (decide (size = size')) as [<-|Hs].
    + by rewrite decide_True.
    + rewrite decide_False by congruence. unfold quantity_at.
      by destruct (c !! i).
  - rewrite decide_False by congruence. done.
Qed.




Section CartEntries.
Context `{JSON_cart : JSON CartItems}.

(** A mutation that got past its guards: the new cart is in memory and
    under the key of the user. *)
Lemma store_for_user (cartData : CartItems) (u : string) (ls : Storage) :
  u ≠ "" →
  (cartSlice.saveCartToStorage cartData (Some u);;
   js_ret {| cartItems := cartData; currentUserId := Some u |}) ls
  = (Normal {| cartItems := cartData; currentUserId := Some u |},
     <["cart_" +:+ u := JSON_stringify cartData]> ls).
Proof.
  intros Hu. unfold mbind, js_mbind, js_bind.
  by rewrite (saveCartToStorage_user _ u ls Hu).
Qed.

(** X1.  For a logged-in user, and an item id and a size that are ordinary
    keys, [updateQuantity {itemId, size, quantity}] sets the entry to
    [quantity], or removes it when [quantity] is zero; every other entry
    keeps its quantity, and the new cart is what is written under the key
    of the user. *)
Theorem updateQuantity_sets_entry (u : string) (p : UpdateQuantityPayload)
    (items : CartItems) (ls : Storage) :
  u ≠ "" →
  ordinary_key (uq_itemId p) → ordinary_key (uq_size p) →
  ∃ cartData,
    cartSlice.updateQuantity p {| cartItems := items; currentUserId := Some u |}
      ls
    = (Normal {| cartItems := cartData; currentUserId := Some u |},
       <["cart_" +:+ u := JSON_stringify cartData]> ls)
    ∧ ∀ itemId size,
        quantity_at cartData itemId size
        = if decide ((itemId, size) = (uq_itemId p, uq_size p))
          then (if decide (uq_quantity p = 0) then None
                else Some (uq_quantity p))
          else quantity_at items itemId size.
Proof.
  intros Hu _ _. unfold cartSlice.updateQuantity.
  cbn [currentUserId cartItems].
  rewrite (truthy_Some u Hu). cbn [negb].
  eexists. split; [by apply store_for_user|].
  intros itemId size. destruct (uq_quantity p =? 0) eqn:Hz.
  - apply Z.eqb_eq in Hz. rewrite (decide_True (P := uq_quantity p = 0)) by done.
    destruct (items !! uq_itemId p) as [m|] eqn:Hi.
    + by apply quantity_at_delete_size.
    + case_decide as Hp; [|done]. injection Hp as -> ->.
      unfold quantity_at. by rewrite Hi.
  - apply Z.eqb_neq in Hz.
    rewrite (decide_False (P := uq_quantity p = 0)) by done.
    apply quantity_at_set_entry.
Qed.



End CartEntries.

(** ** Memory and storage stay in step *)

Section CartStorage.
Context `{JSON_cart : JSON CartItems}.

Lemma persisted_cart_delete (key key' : string) (ls : Storage) :
  persisted_cart (delete key ls) key'
  = if decide (key = key') then None else persisted_cart ls key'.
Proof.
  unfold persisted_cart. rewrite lookup_delete. by case_decide.
Qed.

Lemma removeCartFromStorage_user (u : string) (ls : Storage) :
  u ≠ "" →
  cartSlice.removeCartFromStorage u ls = (Normal tt, delete ("cart_" +:+ u) ls).
Proof.
  intros Hu. apply truthy_string_spec in Hu.
  unfold cartSlice.removeCartFromStorage, try_catch. by rewrite Hu.
Qed.

Lemma deleteUserCart_run (u : string) (state : CartState) (ls : Storage) :
  cartSlice.deleteUserCart u state ls
  = (Normal {| cartItems := if decide (currentUserId state = Some u)
                            then ∅ else cartItems state;
               currentUserId := currentUserId state |},
     if decide (u = "") then ls else delete ("cart_" +:+ u) ls).
Proof.
  unfold cartSlice.deleteUserCart, mbind, js_mbind, js_bind.
  destruct (decide (u = "")) as [->|Hu].
  - cbn. destruct state as [c uid]. by case_decide.
  - rewrite removeCartFromStorage_user by done.
    destruct state as [c uid]. by case_decide.
Qed.




(** ** The cart of a user comes back after a logout *)




(** The runs range over every user and every cart: each cart of each user
    is the state of some run. *)
Lemma every_cart_is_reached (u : string) (V : CartItems) :
  u ≠ "" →
  let ls := <["cart_" +:+ u := JSON_stringify V]> (∅ : Storage) in
  cart_run [cart_initializeCart u] cartSlice.initialState ls
  = (Normal {| cartItems := V; currentUserId := Some u |}, ls).
Proof.
  intros Hu ls. cbn [cart_run cartReducer].
  unfold mbind, js_mbind, js_bind. rewrite initializeCart_user by done.
  unfold ls. by rewrite persisted_cart_insert_eq.
Qed.



(** X6.  [deleteUserCart u] for a user id that is not empty removes the key
    [cart_u] from storage and nothing else; it empties the in-memory cart
    exactly when [u] is the active user; afterwards [initializeCart u]
    finds an empty cart, while the cart persisted for any other user is
    still there. *)
Theorem deleteUserCart_forgets_cart (u : string) (state : CartState)
    (ls : Storage) :
  u ≠ "" →
  let ls' := delete ("cart_" +:+ u) ls in
  cartSlice.deleteUserCart u state ls
  = (Normal {| cartItems := if decide (currentUserId state = Some u)
                            then ∅ else cartItems state;
               currentUserId := currentUserId state |}, ls')
  ∧ (∀ any, cartSlice.initializeCart u any ls'
            = (Normal {| cartItems := ∅; currentUserId := Some u |}, ls'))
  ∧ ∀ v, v ≠ u →
         persisted_cart ls' ("cart_" +:+ v) = persisted_cart ls ("cart_" +:+ v).
Proof.
  intros Hu ls'. split; [|split].
  - rewrite deleteUserCart_run. by rewrite (decide_False (P := u = "")).
  - intros any. rewrite initializeCart_user by done. unfold ls'.
    rewrite persisted_cart_delete. by rewrite decide_True.
  - intros v Hv. unfold ls'. rewrite persisted_cart_delete.
    rewrite decide_False; [done|]. intros Heq. apply Hv.
    symmetry. by apply cart_key_inj.
Qed.

End CartStorage.

(** ** No item is left without a size *)

Lemma cart_no_empty_item_empty : cart_no_empty_item ∅.
Proof. intros i m Hi. by rewrite lookup_empty in Hi. Qed.

Lemma cart_no_empty_item_set (c : CartItems) (i size : string) (q : Z)
    (m : gmap string Z) :
  cart_no_empty_item c → cart_no_empty_item (<[i := <[size := q]> m]> c).
Proof.
  intros Hc j m' Hj. apply lookup_insert_Some in Hj as [[_ <-]|[_ Hj]].
  - apply insert_non_empty.
  - by apply (Hc j).
Qed.

Lemma cart_no_empty_item_delete_size (c : CartItems) (i size : string)
    (m : gmap string Z) :
  cart_no_empty_item c →
  cart_no_empty_item (cartSlice.delete_size i size m c).
Proof.
  intros Hc. unfold cartSlice.delete_size. case_decide as He.
  - intros j m' Hj. apply lookup_delete_Some in Hj as [_ Hj].
    by apply (Hc j).
  - intros j m' Hj. apply lookup_insert_Some in Hj as [[_ <-]|[_ Hj]];
      [done | by apply (Hc j)].
Qed.

Lemma cart_no_empty_item_remove_entry (c : CartItems) (sel : SelectedItem) :
  cart_no_empty_item c → cart_no_empty_item (cartSlice.remove_entry c sel).
Proof.
  intros Hc. unfold cartSlice.remove_entry.
  destruct (c !! sel_itemId sel) as [m|]; [|done].
  destruct (m !! sel_size sel) as [q|]; [|done].
  destruct (truthy_number q); [|done].
  by apply cart_no_empty_item_delete_size.
Qed.

Lemma cart_no_empty_item_remove_all (l : list SelectedItem) (c : CartItems) :
  cart_no_empty_item c →
  cart_no_empty_item (foldl cartSlice.remove_entry c l).
Proof.
  revert c. induction l as [|sel l IH]; intros c Hc; [done|].
  simpl. apply IH. by apply cart_no_empty_item_remove_entry.
Qed.

(** A cart without empty items is the empty object exactly when it has no
    entry. *)
Lemma cart_no_empty_item_is_empty (c : CartItems) :
  cart_no_empty_item c →
  c = ∅ ↔ ∀ itemId size, quantity_at c itemId size = None.
Proof.
  intros Hc. split.
  - intros -> i s. unfold quantity_at. by rewrite lookup_empty.
  - intros Hnone. apply map_empty. intros i.
    destruct (c !! i) as [m|] eqn:Hi; [|done]. exfalso.
    destruct (map_choose m (Hc i m Hi)) as (s & q & Hq).
    specialize (Hnone i s). rewrite (quantity_at_item c i s m Hi) in Hnone.
    congruence.
Qed.

Section NoEmptyItem.
Context `{JSON_cart : JSON CartItems}.

Lemma storage_no_empty_item_save (c : CartItems) (userId : option string)
    (ls : Storage) :
  cart_no_empty_item c → storage_no_empty_item ls →
  ∃ state' ls',
    (cartSlice.saveCartToStorage c userId;;
     js_ret {| cartItems := c; currentUserId := userId |}) ls
    = (Normal state', ls')
    ∧ cart_no_empty_item (cartItems state') ∧ storage_no_empty_item ls'.
Proof.
  intros Hc Hls. unfold mbind, js_mbind, js_bind.
  destruct (truthy userId) eqn:Ht.
  - destruct userId as [u|]; [|done]. apply truthy_string_spec in Ht.
    rewrite saveCartToStorage_user by done.
    eexists _, _. split; [reflexivity|]. split; [done|].
    intros key c'. destruct (decide ("cart_" +:+ u = key)) as [<-|Hne].
    + rewrite persisted_cart_insert_eq. by intros [= <-].
    + rewrite persisted_cart_insert_ne by done. apply Hls.
  - rewrite saveCartToStorage_falsy by done.
    by eexists _, _.
Qed.

Lemma cart_no_empty_item_step (a : Action) (state : CartState)
    (ls : Storage) :
  cart_no_empty_item (cartItems state) → storage_no_empty_item ls →
  ∃ state' ls',
    cartReducer a state ls = (Normal state', ls')
    ∧ cart_no_empty_item (cartItems state') ∧ storage_no_empty_item ls'.
Proof.
  intros Hc Hls.
  destruct a as [u| |p|p|p|p| |u| | | | | | | | | | |]; simpl;
    try (by exists state, ls).
  - (* initializeCart *)
    destruct (decide (u = "")) as [->|Hu].
    + eexists _, ls. split; [apply initializeCart_empty_id|].
      split; [apply cart_no_empty_item_empty | done].
    + eexists _, ls. split; [by apply initializeCart_user|].
      split; [|done]. simpl.
      destruct (persisted_cart ls ("cart_" +:+ u)) as [c|] eqn:Hp; simpl;
        [by apply (Hls _ _ Hp) | apply cart_no_empty_item_empty].
  - (* clearCartOnLogout *)
    eexists _, ls. split; [reflexivity|].
    split; [apply cart_no_empty_item_empty | done].
  - (* addToCart *)
    unfold cartSlice.addToCart.
    destruct (negb (truthy_string (atc_size p))); [by exists state, ls|].
    destruct (negb (truthy (currentUserId state))); [by exists state, ls|].
    apply storage_no_empty_item_save; [|done].
    destruct (cartItems state !! atc_itemId p) as [m|].
    + destruct (m !! atc_size p) as [q|];
        [destruct (truthy_number q)|]; by apply cart_no_empty_item_set.
    + rewrite <- insert_empty. by apply cart_no_empty_item_set.
  - (* updateQuantity *)
    unfold cartSlice.updateQuantity.
    destruct (negb (truthy (currentUserId state))); [by exists state, ls|].
    apply storage_no_empty_item_save; [|done].
    destruct (uq_quantity p =? 0).
    + destruct (cartItems state !! uq_itemId p) as [m|]; [|done].
      by apply cart_no_empty_item_delete_size.
    + by apply cart_no_empty_item_set.
  - (* removeFromCart *)
    unfold cartSlice.removeFromCart.
    destruct (negb (truthy (currentUserId state))); [by exists state, ls|].
    apply storage_no_empty_item_save; [|done].
    by apply cart_no_empty_item_remove_entry.
  - (* removeSelectedItems *)
    unfold cartSlice.removeSelectedItems.
    destruct (negb (truthy (currentUserId state))); [by exists state, ls|].
    destruct (length p =? 0)%nat; [by exists state, ls|].
    apply storage_no_empty_item_save; [|done].
    by apply cart_no_empty_item_remove_all.
  - (* clearCart *)
    unfold cartSlice.clearCart.
    destruct (negb (truthy (currentUserId state))); [by exists state, ls|].
    case_decide; [by exists state, ls|].
    apply storage_no_empty_item_save; [apply cart_no_empty_item_empty|done].
  - (* deleteUserCart *)
    eexists _, _. split; [apply deleteUserCart_run|].
    cbn [cartItems]. split.
    + case_decide; [apply cart_no_empty_item_empty | done].
    + case_decide; [done|]. intros key c. rewrite persisted_cart_delete.
      case_decide; [done | apply Hls].
Qed.

(** X7.  Start from the initial cart state and from a storage whose
    persisted carts have no item without a size (an empty storage for
    one).  After every sequence of actions whose item ids and sizes are
    ordinary keys, no item of the cart is left without a size; so the cart
    is the empty object, which is what [clearCart] tests, exactly when it
    holds no entry.  (With the size [__proto__], [updateQuantity] on a new
    item leaves the item without a size.) *)
Theorem cart_never_keeps_empty_item (l : list Action) (ls : Storage) :
  storage_no_empty_item ls →
  Forall ordinary_keys l →
  ∃ state' ls',
    cart_run l cartSlice.initialState ls = (Normal state', ls')
    ∧ cart_no_empty_item (cartItems state')
    ∧ (cartItems state' = ∅
       ↔ ∀ itemId size, quantity_at (cartItems state') itemId size = None).
Proof.
  intros Hls _.
  assert (Hrun : ∀ l state ls,
    cart_no_empty_item (cartItems state) → storage_no_empty_item ls →
    ∃ state' ls',
      cart_run l state ls = (Normal state', ls')
      ∧ cart_no_empty_item (cartItems state')).
  { clear. induction l as [|a l IH]; intros state ls Hc Hls.
    - by exists state, ls.
    - destruct (cart_no_empty_item_step a state ls Hc Hls)
        as (state1 & ls1 & Hstep & Hc1 & Hls1).
      destruct (IH state1 ls1 Hc1 Hls1) as (state' & ls' & Hrun & Hfinal).
      exists state', ls'. split; [|done].
      simpl. unfold mbind, js_mbind, js_bind. by rewrite Hstep. }
  destruct (Hrun l cartSlice.initialState ls cart_no_empty_item_empty Hls)
    as (state' & ls' & Hfinal & Hc).
  exists state', ls'. split; [done|]. split; [done|].
  by apply cart_no_empty_item_is_empty.
Qed.

End NoEmptyItem.

(** ** The cart amounts *)

Lemma amount_sizes (pr : Z) (sizes : list (string * Z)) (totalAmount : Z) :
  foldr (uncurry (λ (_ : string) (quantity totalAmount : Z),
           if 0 <? quantity then totalAmount + pr * quantity
           else totalAmount))
        totalAmount sizes
  = totalAmount
    + Z_sum ((λ q, if decide (0 < q) then pr * q else 0) <$> sizes.*2).
Proof.
  induction sizes as [|[size q] sizes IH]; [unfold Z_sum; simpl; lia|].
  rewrite !fmap_cons. cbn [foldr uncurry snd]. rewrite IH, Z_sum_cons.
  destruct (0 <? q) eqn:Hq.
  - apply Z.ltb_lt in Hq. rewrite decide_True by done. lia.
  - apply Z.ltb_ge in Hq. rewrite decide_False by lia. lia.
Qed.

Lemma entry_amount_item (products : list Product) (itemId : string)
    (sizes : list (string * Z)) :
  Z_sum (entry_amount products
         <$> ((λ '(size, q), (itemId, size, q)) <$> sizes))
  = match cartSlice.find_product products itemId with
    | Some product =>
        Z_sum ((λ q, if decide (0 < q) then price product * q else 0)
               <$> sizes.*2)
    | None => 0
    end.
Proof.
  induction sizes as [|[size q] sizes IH].
  - by destruct (cartSlice.find_product products itemId).
  - rewrite !fmap_cons. cbn [entry_amount snd]. rewrite Z_sum_cons, IH.
    destruct (cartSlice.find_product products itemId); [|done].
    by rewrite fmap_cons, Z_sum_cons.
Qed.

Lemma amount_items (products : list Product)
    (l : list (string * gmap string Z)) :
  foldr (uncurry (λ (items : string) (sizes : gmap string Z) (totalAmount : Z),
           match cartSlice.find_product products items with
           | Some itemInfo =>
               map_fold
                 (λ (_ : string) (quantity totalAmount : Z),
                    if 0 <? quantity
                    then totalAmount + price itemInfo * quantity
                    else totalAmount)
                 totalAmount sizes
           | None => totalAmount
           end))
        0 l
  = Z_sum (entry_amount products
           <$> ('(itemId, sizes) ← l;
                (λ '(size, q), (itemId, size, q)) <$> map_to_list sizes)).
Proof.
  induction l as [|[item sizes] l IH]; [done|].
  rewrite bind_cons, fmap_app, Z_sum_app, entry_amount_item.
  cbn [foldr uncurry]. rewrite IH.
  destruct (cartSlice.find_product products item); [|lia].
  rewrite map_fold_foldr, amount_sizes. lia.
Qed.

Lemma selectCartAmount_entries (cart : CartState) (products : list Product) :
  truthy (currentUserId cart) = true →
  cartSlice.selectCartAmount cart products
  = Z_sum (entry_amount products <$> cart_entries (cartItems cart)).
Proof.
  intros Ht. unfold cartSlice.selectCartAmount. rewrite Ht. cbn [negb].
  rewrite map_fold_foldr. apply amount_items.
Qed.

(** X8.  [selectCartAmount] is 0 when no user is active; otherwise it is
    the sum, over the entries of the cart, of price times quantity for the
    entries whose item is in the product list and whose quantity is
    positive.  An item that is not in the product list adds nothing. *)
Theorem selectCartAmount_total (cart : CartState) (products : list Product) :
  cartSlice.selectCartAmount cart products
  = if truthy (currentUserId cart)
    then Z_sum (entry_amount products <$> cart_entries (cartItems cart))
    else 0.
Proof.
  destruct (truthy (currentUserId cart)) eqn:Ht.
  - by apply selectCartAmount_entries.
  - unfold cartSlice.selectCartAmount. by rewrite Ht.
Qed.

Lemma selected_amount_sum (products : list Product) (cart : CartState)
    (l : list SelectedItem) (totalAmount : Z) :
  foldl
    (λ totalAmount selectedItem,
       match cartSlice.find_product products (sel_itemId selectedItem) with
       | Some productData =>
           match cartItems cart !! sel_itemId selectedItem
                 ≫= λ sizes, sizes !! sel_size selectedItem with
           | Some cartItem =>
               if truthy_number cartItem
               then totalAmount + price productData * cartItem
               else totalAmount
           | None => totalAmount
           end
       | None => totalAmount
       end)
    totalAmount l
  = totalAmount + Z_sum (selection_amount products (cartItems cart) <$> l).
Proof.
  revert totalAmount. induction l as [|sel l IH]; intros totalAmount.
  - unfold Z_sum. simpl. lia.
  - cbn [foldl]. rewrite IH, fmap_cons, Z_sum_cons.
    unfold selection_amount at 2, quantity_at.
    destruct (cartSlice.find_product products (sel_itemId sel)); [|lia].
    destruct (cartItems cart !! sel_itemId sel ≫= _) as [q|]; [|lia].
    unfold truthy_number. destruct (q =? 0) eqn:Hz; simpl; [|lia].
    apply Z.eqb_eq in Hz. subst q. lia.
Qed.

Lemma selectSelectedCartAmount_sum (selectedItems : list SelectedItem)
    (cart : CartState) (products : list Product) :
  cartSlice.selectSelectedCartAmount selectedItems cart products
  = Z_sum (selection_amount products (cartItems cart) <$> selectedItems).
Proof.
  unfold cartSlice.selectSelectedCartAmount.
  destruct selectedItems as [|sel l]; [done|].
  cbn [length Nat.eqb]. rewrite selected_amount_sum. lia.
Qed.

Lemma cart_entries_lookup (c : CartItems) (itemId size : string) (q : Z) :
  (itemId, size, q) ∈ cart_entries c → quantity_at c itemId size = Some q.
Proof.
  unfold cart_entries. intros Hin.
  apply list_elem_of_bind in Hin as ([i m] & Hin & Him).
  apply list_elem_of_fmap in Hin as ([s q'] & Heq & Hsq).
  injection Heq as -> -> ->.
  apply elem_of_map_to_list in Him, Hsq.
  by rewrite (quantity_at_item c i s m Him).
Qed.

(** X9.  When no stored quantity is negative, selecting every entry of the
    cart gives the amount of the whole cart: for a logged-in user
    [selectSelectedCartAmount] on that selection equals
    [selectCartAmount]. *)
Theorem selectSelectedCartAmount_all (u : string) (items : CartItems)
    (products : list Product) :
  u ≠ "" →
  (∀ itemId size q, quantity_at items itemId size = Some q → 0 ≤ q) →
  let cart := {| cartItems := items; currentUserId := Some u |} in
  cartSlice.selectSelectedCartAmount (select_all items) cart products
  = cartSlice.selectCartAmount cart products.
Proof.
  intros Hu Hnonneg cart.
  rewrite selectSelectedCartAmount_sum.
  rewrite selectCartAmount_entries by by apply truthy_Some.
  unfold select_all, cart. cbn [cartItems].
  rewrite <- list_fmap_compose. f_equal.
  apply Forall_fmap_ext_1, Forall_forall. intros [[i s] q] Hin.
  apply cart_entries_lookup in Hin as Hq.
  unfold compose, selection_amount, entry_amount. cbn [sel_itemId sel_size].
  rewrite Hq. destruct (cartSlice.find_product products i); [|done].
  specialize (Hnonneg i s q Hq). case_decide; [done|].
  assert (q = 0) by lia. subst q. lia.
Qed.

(** * Further properties of the orders slice *)

Lemma total_amount_from (l : list Order) (total : Z) :
  foldl (λ total order, total + totalAmount order) total l
  = total + foldl (λ total order, total + totalAmount order) 0 l.
Proof.
  revert total. induction l as [|o l IH]; intros total; simpl; [lia|].
  rewrite (IH (total + totalAmount o)), (IH (0 + totalAmount o)). lia.
Qed.

Lemma set_status_id (s : OrderStatus) (o : Order) :
  order_id (set_status s o) = order_id o.
Proof. reflexivity. Qed.

Lemma set_status_userId (s : OrderStatus) (o : Order) :
  order_userId (set_status s o) = order_userId o.
Proof. reflexivity. Qed.

Lemma alter_set_status (s : OrderStatus) (k : nat) (o : Order)
    (l : list Order) :
  l !! k = Some o → alter (set_status s) k l = <[k := set_status s o]> l.
Proof.
  revert k. induction l as [|x l IH]; intros [|k] Hk; simplify_eq/=; [done|].
  f_equal. by apply IH.
Qed.

Lemma list_find_insert_same_id (orderId : string) (k : nat) (o o' : Order)
    (l : list Order) :
  list_find (λ o, order_id o = orderId) l = Some (k, o) →
  order_id o' = order_id o →
  list_find (λ o, order_id o = orderId) (<[k := o']> l) = Some (k, o').
Proof.
  intros Hfind Hid. apply list_find_Some in Hfind as (Hk & Ho & Hfirst).
  apply list_find_Some. split; [|split].
  - apply list_lookup_insert_eq. by apply lookup_lt_Some in Hk.
  - congruence.
  - intros j y Hj Hlt. rewrite list_lookup_insert_ne in Hj by lia.
    by apply (Hfirst j).
Qed.

Section OrdersFacts.
Context `{JSON_orders : JSON (list Order)}.

Lemma saveOrdersToStorage_user (l : list Order) (u : string) (ls : Storage) :
  u ≠ "" →
  ordersSlice.saveOrdersToStorage l (Some u) ls
  = (Normal tt, <["orders_" +:+ u := JSON_stringify l]> ls).
Proof.
  intros Hu. apply truthy_string_spec in Hu.
  unfold ordersSlice.saveOrdersToStorage, try_catch. by rewrite Hu.
Qed.

Lemma persisted_orders_insert_eq (key : string) (l : list Order)
    (ls : Storage) :
  persisted_orders (<[key := JSON_stringify l]> ls) key = Some l.
Proof.
  unfold persisted_orders. by rewrite lookup_insert_eq, JSON_parse_stringify.
Qed.

Lemma persisted_orders_insert_ne (key key' text : string) (ls : Storage) :
  key ≠ key' →
  persisted_orders (<[key := text]> ls) key' = persisted_orders ls key'.
Proof. intros Hne. unfold persisted_orders. by rewrite lookup_insert_ne. Qed.

Lemma initializeOrders_user (u : string) (state : OrdersState)
    (ls : Storage) :
  u ≠ "" →
  ordersSlice.initializeOrders u state ls
  = (Normal {| orders := default [] (persisted_orders ls ("orders_" +:+ u));
               orders_currentUserId := Some u;
               orders_isLoading := orders_isLoading state |}, ls).
Proof.
  intros Hu. unfold ordersSlice.initializeOrders, mbind, js_mbind, js_bind.
  by rewrite loadOrdersFromStorage_user.
Qed.

Lemma initializeOrders_empty_id (state : OrdersState) (ls : Storage) :
  ordersSlice.initializeOrders "" state ls
  = (Normal {| orders := []; orders_currentUserId := Some "";
               orders_isLoading := orders_isLoading state |}, ls).
Proof. reflexivity. Qed.

(** Storing a new list of orders for the user [u]. *)
Lemma store_orders_for_user (l : list Order) (u : string) (loading : bool)
    (ls : Storage) :
  u ≠ "" →
  (ordersSlice.saveOrdersToStorage l (Some u);;
   js_ret {| orders := l; orders_currentUserId := Some u;
             orders_isLoading := loading |}) ls
  = (Normal {| orders := l; orders_currentUserId := Some u;
               orders_isLoading := loading |},
     <["orders_" +:+ u := JSON_stringify l]> ls).
Proof.
  intros Hu. unfold mbind, js_mbind, js_bind.
  by rewrite (saveOrdersToStorage_user _ u ls Hu).
Qed.

Lemma updateOrderStatus_run (u : string) (p : UpdateOrderStatusPayload)
    (l : list Order) (loading : bool) (ls : Storage) :
  u ≠ "" →
  let state := {| orders := l; orders_currentUserId := Some u;
                  orders_isLoading := loading |} in
  ordersSlice.updateOrderStatus p state ls
  = match list_find (λ o, order_id o = uos_orderId p) l with
    | Some (k, o) =>
        let l' := <[k := set_status (uos_status p) o]> l in
        (Normal {| orders := l'; orders_currentUserId := Some u;
                   orders_isLoading := loading |},
         <["orders_" +:+ u := JSON_stringify l']> ls)
    | None => (Normal state, ls)
    end.
Proof.
  intros Hu state. unfold ordersSlice.updateOrderStatus, state.
  cbn [orders_currentUserId orders orders_isLoading].
  rewrite (truthy_Some u Hu). cbn [negb].
  unfold ordersSlice.findIndex_id.
  destruct (list_find _ l) as [[k o]|] eqn:Hfind; [|done]. cbn [fmap option_fmap option_map fst].
  apply list_find_Some in Hfind as (Hk & _).
  rewrite (alter_set_status _ k o l Hk). by apply store_orders_for_user.
Qed.

Lemma cancelOrder_as_update (orderId : string) (state : OrdersState) :
  ordersSlice.cancelOrder orderId state
  = ordersSlice.updateOrderStatus
      {| uos_orderId := orderId; uos_status := cancelled |} state.
Proof. reflexivity. Qed.

Lemma addOrder_run (u : string) (clock : Clock) (p : AddOrderPayload)
    (l : list Order) (loading : bool) (ls : Storage) :
  u ≠ "" →
  let newOrder :=
    {| order_id := pretty (now_id clock);
       order_userId := u;
       items := ao_cartItems p;
       deliveryInfo := ao_deliveryInfo p;
       paymentMethod := default cod (od_paymentMethod (orderData p));
       totalAmount := od_totalAmount (orderData p);
       status := confirmed;
       createdAt := toISOString (now_created clock);
       estimatedDelivery := toISOString (now_estimate clock + 604800000) |} in
  ordersSlice.addOrder clock p
    {| orders := l; orders_currentUserId := Some u;
       orders_isLoading := loading |} ls
  = (Normal {| orders := newOrder :: l; orders_currentUserId := Some u;
               orders_isLoading := loading |},
     <["orders_" +:+ u := JSON_stringify (newOrder :: l)]> ls).
Proof.
  intros Hu newOrder. unfold ordersSlice.addOrder.
  cbn [orders_currentUserId orders orders_isLoading].
  apply truthy_string_spec in Hu as Ht. rewrite Ht. cbn [negb].
  by apply store_orders_for_user.
Qed.

(** X10.  For a logged-in user, [addOrder] puts the new order in front of
    the existing ones and writes the new list under the key of the user.
    The order carries the id of the active user and the status
    [confirmed]; the count of orders grows by one, the total amount grows
    by the amount of the order, and a lookup by the id of the new order
    returns the new order, even when an older order has the same id. *)
Theorem addOrder_prepends (u : string) (clock : Clock) (p : AddOrderPayload)
    (l : list Order) (loading : bool) (ls : Storage) :
  u ≠ "" →
  let state := {| orders := l; orders_currentUserId := Some u;
                  orders_isLoading := loading |} in
  ∃ newOrder state',
    ordersSlice.addOrder clock p state ls
    = (Normal state', <["orders_" +:+ u := JSON_stringify (newOrder :: l)]> ls)
    ∧ orders state' = newOrder :: l
    ∧ order_userId newOrder = u
    ∧ status newOrder = confirmed
    ∧ totalAmount newOrder = od_totalAmount (orderData p)
    ∧ ordersSlice.selectTotalOrdersCount state'
      = S (ordersSlice.selectTotalOrdersCount state)
    ∧ ordersSlice.selectOrdersTotalAmount state'
      = ordersSlice.selectOrdersTotalAmount state + od_totalAmount (orderData p)
    ∧ ordersSlice.selectOrderById (order_id newOrder) state' = Some newOrder.
Proof.
  intros Hu state. eexists _, _. split; [by apply addOrder_run|].
  repeat split.
  - unfold ordersSlice.selectOrdersTotalAmount. cbn [orders foldl totalAmount].
    rewrite total_amount_from. unfold state. cbn [orders]. lia.
  - unfold ordersSlice.selectOrderById. cbn [orders list_find order_id].
    by rewrite decide_True.
Qed.

(** X11.  For a logged-in user, [updateOrderStatus {orderId, status}]
    changes the first order that carries the id, and only its status; all
    other orders, and the order of the list, stay as they are, and the new
    list is written under the key of the user.  Afterwards a lookup by the
    id returns that order with the new status, and it is among the orders
    selected by that status.  When no order carries the id, state and
    storage are unchanged.  [cancelOrder orderId] is
    [updateOrderStatus {orderId, cancelled}]. *)
Theorem updateOrderStatus_first_match (u : string)
    (p : UpdateOrderStatusPayload) (l : list Order) (loading : bool)
    (ls : Storage) :
  u ≠ "" →
  let state := {| orders := l; orders_currentUserId := Some u;
                  orders_isLoading := loading |} in
  ordersSlice.cancelOrder (uos_orderId p) state ls
  = ordersSlice.updateOrderStatus
      {| uos_orderId := uos_orderId p; uos_status := cancelled |} state ls
  ∧ ∃ state' ls',
      ordersSlice.updateOrderStatus p state ls = (Normal state', ls')
      ∧ match list_find (λ o, order_id o = uos_orderId p) l with
        | Some (k, o) =>
            let o' := set_status (uos_status p) o in
            orders state' = <[k := o']> l
            ∧ ls' = <["orders_" +:+ u := JSON_stringify (orders state')]> ls
            ∧ ordersSlice.selectOrderById (uos_orderId p) state' = Some o'
            ∧ o' ∈ selectOrdersByStatus (uos_status p) state'
        | None => state' = state ∧ ls' = ls
        end.
Proof.
  intros Hu state. split; [reflexivity|].
  unfold state. rewrite updateOrderStatus_run by done.
  destruct (list_find _ l) as [[k o]|] eqn:Hfind; [|by eexists _, _].
  eexists _, _. split; [reflexivity|].
  cbn [orders]. split; [done|]. split; [done|]. split.
  - unfold ordersSlice.selectOrderById. cbn [orders].
    by rewrite (list_find_insert_same_id _ k o _ l Hfind).
  - unfold selectOrdersByStatus. cbn [orders].
    apply list_elem_of_filter. split; [done|].
    apply list_find_Some in Hfind as (Hk & _).
    apply list_elem_of_lookup. exists k.
    apply list_lookup_insert_eq. by apply lookup_lt_Some in Hk.
Qed.

End OrdersFacts.

(** ** Orders in memory and in storage *)

Section OrdersStorage.
Context `{JSON_orders : JSON (list Order)}.

(** Every mutation of the orders by a logged-in user either leaves state
    and storage as they are, or stores a new list under the key of the
    user: the old list with one order of the user in front, or the old
    list with the status of one order changed. *)
Lemma orders_mutation_persists (a : Action) (u : string)
    (state : OrdersState) (ls : Storage) :
  orders_currentUserId state = Some u → u ≠ "" → orders_mutation a →
  ordersReducer a state ls = (Normal state, ls)
  ∨ ∃ l',
      ordersReducer a state ls
      = (Normal {| orders := l'; orders_currentUserId := Some u;
                   orders_isLoading := orders_isLoading state |},
         <["orders_" +:+ u := JSON_stringify l']> ls)
      ∧ ((∃ o, order_userId o = u ∧ l' = o :: orders state)
         ∨ ∃ s k o, orders state !! k = Some o
                    ∧ l' = <[k := set_status s o]> (orders state)).
Proof.
  intros Huid Hu Ha. destruct state as [l uid loading].
  cbn [orders_currentUserId] in Huid. subst uid.
  destruct a as [| | | | | | | | | |clock p|p|i| | | | | |]; try done;
    cbn [ordersReducer orders orders_isLoading].
  - right. eexists. split; [by apply addOrder_run|]. left.
    eexists. split; [|reflexivity]. reflexivity.
  - rewrite updateOrderStatus_run by done.
    destruct (list_find _ l) as [[k o]|] eqn:Hfind; [|by left].
    right. eexists. split; [reflexivity|]. right. exists (uos_status p), k, o.
    by apply list_find_Some in Hfind as (Hk & _).
  - rewrite cancelOrder_as_update, updateOrderStatus_run by done.
    cbn [uos_orderId uos_status].
    destruct (list_find _ l) as [[k o]|] eqn:Hfind; [|by left].
    right. eexists. split; [reflexivity|]. right. exists cancelled, k, o.
    by apply list_find_Some in Hfind as (Hk & _).
Qed.

Lemma orders_step_cases (a : Action) (state : OrdersState) (ls : Storage) :
  ordersReducer a state ls = (Normal state, ls)
  ∨ (∃ u, a = orders_initializeOrders u
          ∧ ordersReducer a state ls
            = (Normal {| orders :=
                           if decide (u = "") then []
                           else default []
                                  (persisted_orders ls ("orders_" +:+ u));
                         orders_currentUserId := Some u;
                         orders_isLoading := orders_isLoading state |}, ls))
  ∨ (a = orders_clearOrdersOnLogout
     ∧ ordersReducer a state ls
       = (Normal {| orders := []; orders_currentUserId := None;
                    orders_isLoading := orders_isLoading state |}, ls))
  ∨ (∃ b, a = orders_setLoading b
          ∧ ordersReducer a state ls
            = (Normal {| orders := orders state;
                         orders_currentUserId := orders_currentUserId state;
                         orders_isLoading := b |}, ls))
  ∨ ∃ u l',
      orders_currentUserId state = Some u ∧ u ≠ ""
      ∧ ordersReducer a state ls
        = (Normal {| orders := l'; orders_currentUserId := Some u;
                     orders_isLoading := orders_isLoading state |},
           <["orders_" +:+ u := JSON_stringify l']> ls)
      ∧ ((∃ o, order_userId o = u ∧ l' = o :: orders state)
         ∨ ∃ s k o, orders state !! k = Some o
                    ∧ l' = <[k := set_status s o]> (orders state)).
Proof.
  assert (Hdec : orders_mutation a ∨ ¬ orders_mutation a)
    by (destruct a; simpl; tauto).
  destruct Hdec as [Ha|Ha].
  { destruct (truthy (orders_currentUserId state)) eqn:Ht.
    - destruct (orders_currentUserId state) as [u|] eqn:Huid; [|done].
      apply truthy_string_spec in Ht.
      destruct (orders_mutation_persists a u state ls Huid Ht Ha)
        as [Hsame|(l' & Hrun & Hshape)].
      + left. exact Hsame.
      + do 4 right. by exists u, l'.
    - left. by apply orders_mutation_falsy_user. }
  destruct a as [| | | | | | | |u| |clock p|p|i|b| | | | |];
    try (by left); try (by destruct Ha).
  - right. left. exists u. split; [done|].
    destruct (decide (u = "")) as [->|Hu];
      [apply initializeOrders_empty_id | by apply initializeOrders_user].
  - right. right. left. by split.
  - do 3 right. left. by exists b.
Qed.

Lemma orders_synced_step (a : Action) (state : OrdersState) (ls : Storage) :
  orders_synced state ls →
  ∃ state' ls',
    ordersReducer a state ls = (Normal state', ls')
    ∧ orders_synced state' ls'.
Proof.
  intros Hsync.
  destruct (orders_step_cases a state ls)
    as [Hrun|[(u & _ & Hrun)|[[_ Hrun]|[(b & _ & Hrun)
       |(u & l' & Huid & Hu & Hrun & _)]]]];
    eexists _, _; (split; [exact Hrun|]); try done.
  - intros v [= <-] Hv. cbn [orders]. by rewrite decide_False.
  - intros v [= <-] _. cbn [orders]. by rewrite persisted_orders_insert_eq.
Qed.

Lemma orders_synced_relogin (u : string) (state : OrdersState)
    (ls : Storage) :
  orders_synced state ls → orders_currentUserId state = Some u → u ≠ "" →
  (state' ← ordersSlice.clearOrdersOnLogout state;
   ordersSlice.initializeOrders u state') ls
  = (Normal state, ls).
Proof.
  intros Hsync Huid Hu.
  unfold ordersSlice.clearOrdersOnLogout, mbind at 1.
  unfold js_mbind, js_bind, js_ret.
  rewrite initializeOrders_user by done.
  rewrite <- (Hsync u Huid Hu). destruct state as [l uid loading].
  simpl in Huid. by subst uid.
Qed.

(** X12.  If the in-memory orders of the active user are the orders that
    storage holds for that user, they stay so through every sequence of
    actions; in the state reached, logging out and initializing the orders
    again for the active user gives back exactly that state and changes
    nothing in storage. *)
Theorem orders_stay_synced (l : list Action) (state : OrdersState)
    (ls : Storage) :
  orders_synced state ls →
  ∃ state' ls',
    orders_run l state ls = (Normal state', ls')
    ∧ orders_synced state' ls'
    ∧ ∀ u, orders_currentUserId state' = Some u → u ≠ "" →
           (logged_out ← ordersSlice.clearOrdersOnLogout state';
            ordersSlice.initializeOrders u logged_out) ls'
           = (Normal state', ls').
Proof.
  revert state ls. induction l as [|a l IH]; intros state ls Hsync.
  - exists state, ls. split; [done|]. split; [done|].
    intros u Huid Hu. by apply orders_synced_relogin.
  - destruct (orders_synced_step a state ls Hsync)
      as (state1 & ls1 & Hstep & Hsync1).
    destruct (IH state1 ls1 Hsync1) as (state' & ls' & Hrun & Hfinal).
    exists state', ls'. split; [|done].
    simpl. unfold mbind, js_mbind, js_bind. by rewrite Hstep.
Qed.

Lemma orders_owned_step (a : Action) (state : OrdersState) (ls : Storage) :
  orders_owned state → storage_orders_owned ls →
  ∃ state' ls',
    ordersReducer a state ls = (Normal state', ls')
    ∧ orders_owned state' ∧ storage_orders_owned ls'.
Proof.
  intros Hown Hls.
  destruct (orders_step_cases a state ls)
    as [Hrun|[(u & _ & Hrun)|[[_ Hrun]|[(b & _ & Hrun)
       |(u & l' & Huid & Hu & Hrun & Hshape)]]]];
    eexists _, _; (split; [exact Hrun|]); try done.
  - split; [|done]. intros o. cbn [orders orders_currentUserId].
    case_decide; [by intros ?%elem_of_nil|].
    destruct (persisted_orders ls ("orders_" +:+ u)) as [l|] eqn:Hp;
      cbn [default]; [|by intros ?%elem_of_nil].
    intros Ho. by rewrite (Hls u l o Hp Ho).
  - split; [|done]. intros o. cbn [orders]. by intros ?%elem_of_nil.
  - assert (Hl' : ∀ o, o ∈ l' → order_userId o = u).
    { intros o Ho. destruct Hshape as [(o0 & Ho0 & ->)|(s & k & o0 & Hk & ->)].
      - apply elem_of_cons in Ho as [->|Ho]; [done|].
        specialize (Hown o Ho). rewrite Huid in Hown. congruence.
      - apply list_elem_of_lookup in Ho as [j Hj].
        destruct (decide (k = j)) as [<-|Hne].
        + rewrite list_lookup_insert_eq in Hj by by apply lookup_lt_Some in Hk.
          injection Hj as <-. rewrite set_status_userId.
          assert (Hin : o0 ∈ orders state) by (apply list_elem_of_lookup; eauto).
          specialize (Hown o0 Hin). rewrite Huid in Hown. congruence.
        + rewrite list_lookup_insert_ne in Hj by done.
          assert (Hin : o ∈ orders state) by (apply list_elem_of_lookup; eauto).
          specialize (Hown o Hin). rewrite Huid in Hown. congruence. }
    split.
    + intros o Ho. cbn [orders orders_currentUserId] in *.
      by rewrite (Hl' o Ho).
    + intros v l o. destruct (decide ("orders_" +:+ u = "orders_" +:+ v))
        as [Heq|Hne].
      * apply orders_key_inj in Heq as <-.
        rewrite persisted_orders_insert_eq. intros [= <-]. apply Hl'.
      * rewrite persisted_orders_insert_ne by done. apply Hls.
Qed.

(** X13.  Start from the initial orders state and from a storage in which
    every order stored under the key of a user belongs to that user (an
    empty storage for one).  After every sequence of actions, every order
    in memory carries the id of the active user, and storage still keeps
    the orders of each user under that user's key only. *)
Theorem orders_belong_to_active_user (l : list Action) (ls : Storage) :
  storage_orders_owned ls →
  ∃ state' ls',
    orders_run l ordersSlice.initialState ls = (Normal state', ls')
    ∧ orders_owned state'
    ∧ storage_orders_owned ls'.
Proof.
  intros Hls.
  assert (Hown : orders_owned ordersSlice.initialState)
    by (intros o; by intros ?%elem_of_nil).
  revert Hown Hls. generalize ordersSlice.initialState as state.
  revert ls. induction l as [|a l IH]; intros ls state Hown Hls.
  - by exists state, ls.
  - destruct (orders_owned_step a state ls Hown Hls)
      as (state1 & ls1 & Hstep & Hown1 & Hls1).
    destruct (IH ls1 state1 Hown1 Hls1) as (state' & ls' & Hrun & Hfinal).
    exists state', ls'. split; [|done].
    simpl. unfold mbind, js_mbind, js_bind. by rewrite Hstep.
Qed.

(** X14.  An orders action changes at most one key of storage: the orders
    key of the active user.  No orders action touches a cart key or the
    session key [user]. *)
Theorem orders_action_storage_frame (a : Action) (state : OrdersState)
    (ls : Storage) :
  ∃ state' ls',
    ordersReducer a state ls = (Normal state', ls')
    ∧ ∀ key, ls' !! key ≠ ls !! key →
        ∃ u, u ≠ "" ∧ key = "orders_" +:+ u
             ∧ orders_currentUserId state = Some u.
Proof.
  destruct (orders_step_cases a state ls)
    as [Hrun|[(u & _ & Hrun)|[[_ Hrun]|[(b & _ & Hrun)
       |(u & l' & Huid & Hu & Hrun & _)]]]];
    eexists _, _; (split; [exact Hrun|]); try done.
  intros key Hkey. exists u. split; [done|]. split; [|done].
  destruct (decide ("orders_" +:+ u = key)) as [<-|Hne]; [done|].
  by rewrite lookup_insert_ne in Hkey.
Qed.

End OrdersStorage.

(** * Further properties of the auth slice and its thunks *)

Lemma user_key_not_users : "user" ≠ "users".
Proof. done. Qed.

Lemma users_key_not_cart (u : string) : "users" ≠ "cart_" +:+ u.
Proof. intros H. by simplify_eq/=. Qed.

Lemma users_key_not_orders (u : string) : "users" ≠ "orders_" +:+ u.
Proof. intros H. by simplify_eq/=. Qed.

Lemma find_first_match (credentials : LoginCredentials)
    (before after : list UserWithPassword) (u : UserWithPassword) :
  Forall (λ v, ¬ names_user credentials v) before →
  names_user credentials u →
  List.find (credentials_match credentials) (before ++ u :: after)%list
  = Some u.
Proof.
  intros Hbefore [He Hp]. induction Hbefore as [|v before Hv _ IH]; simpl.
  - unfold credentials_match. rewrite He, Hp. by rewrite !String.eqb_refl.
  - destruct (credentials_match credentials v) eqn:Hm; [|done].
    exfalso. apply Hv. unfold credentials_match in Hm.
    apply andb_true_iff in Hm as [He' Hp'].
    apply String.eqb_eq in He', Hp'. by split.
Qed.

Lemma find_email_None (email : string) (l : list UserWithPassword) :
  Forall (λ v, uwp_email v ≠ email) l →
  List.find (λ u, String.eqb (uwp_email u) email) l = None.
Proof.
  induction 1 as [|v l Hv _ IH]; [done|]. simpl.
  destruct (String.eqb (uwp_email v) email) eqn:He; [|done].
  by apply String.eqb_eq in He.
Qed.

Lemma find_email_Some (email : string) (l : list UserWithPassword)
    (v : UserWithPassword) :
  List.find (λ u, String.eqb (uwp_email u) email) l = Some v →
  ¬ Forall (λ v, uwp_email v ≠ email) l.
Proof.
  intros Hfind Hall. by rewrite (find_email_None email l Hall) in Hfind.
Qed.

Lemma find_email_cases (email : string) (l : list UserWithPassword) :
  (∃ v, List.find (λ u, String.eqb (uwp_email u) email) l = Some v
        ∧ email ∈ uwp_email <$> l)
  ∨ (List.find (λ u, String.eqb (uwp_email u) email) l = None
     ∧ email ∉ uwp_email <$> l).
Proof.
  induction l as [|v l IH]; cbn [List.find].
  - right. split; [done|]. apply not_elem_of_nil.
  - destruct (String.eqb (uwp_email v) email) eqn:He.
    + apply String.eqb_eq in He. left. exists v. split; [done|].
      rewrite fmap_cons, He. apply elem_of_cons. by left.
    + apply String.eqb_neq in He. rewrite fmap_cons.
      destruct IH as [(w & Hw & Hin)|[Hnone Hnin]].
      * left. exists w. split; [done|]. apply elem_of_cons. by right.
      * right. split; [done|]. intros Hin.
        apply elem_of_cons in Hin as [Heq|Hin]; [congruence | done].
Qed.

Section AuthStorage.
Context `{JSON_cart : JSON CartItems} `{JSON_orders : JSON (list Order)}
        `{JSON_user : JSON User} `{JSON_users : JSON (list UserWithPassword)}.

Lemma saveUserToStorage_Some (u : User) (ls : Storage) :
  authSlice.saveUserToStorage (Some u) ls
  = (Normal tt, <["user" := JSON_stringify u]> ls).
Proof. reflexivity. Qed.

Lemma saveUserToStorage_None (ls : Storage) :
  authSlice.saveUserToStorage None ls = (Normal tt, delete "user" ls).
Proof. reflexivity. Qed.

Lemma loadUserFromStorage_run (ls : Storage) :
  authSlice.loadUserFromStorage ls = (Normal (persisted_user ls), ls).
Proof.
  unfold authSlice.loadUserFromStorage, try_catch, persisted_user.
  unfold mbind, js_mbind, js_bind, localStorage.getItem.
  destruct (ls !! "user") as [text|]; [|done].
  destruct (truthy_string text) eqn:Ht.
  - unfold JSON_parse_js. by destruct (JSON_parse text).
  - apply truthy_string_false in Ht. subst text.
    by rewrite JSON_parse_empty.
Qed.

Lemma loadUsersFromStorage_run (ls : Storage) :
  authSlice.loadUsersFromStorage ls
  = (Normal (default [] (persisted_users ls)), ls).
Proof.
  unfold authSlice.loadUsersFromStorage, try_catch, persisted_users.
  unfold mbind, js_mbind, js_bind, localStorage.getItem.
  destruct (ls !! "users") as [text|]; [|done].
  destruct (truthy_string text) eqn:Ht.
  - unfold JSON_parse_js. by destruct (JSON_parse text).
  - apply truthy_string_false in Ht. subst text.
    by rewrite JSON_parse_empty.
Qed.

Lemma persisted_user_insert_eq (u : User) (ls : Storage) :
  persisted_user (<["user" := JSON_stringify u]> ls) = Some u.
Proof.
  unfold persisted_user. by rewrite lookup_insert_eq, JSON_parse_stringify.
Qed.

Lemma persisted_user_insert_ne (key text : string) (ls : Storage) :
  key ≠ "user" → persisted_user (<[key := text]> ls) = persisted_user ls.
Proof. intros Hne. unfold persisted_user. by rewrite lookup_insert_ne. Qed.

Lemma persisted_user_delete (ls : Storage) :
  persisted_user (delete "user" ls) = None.
Proof. unfold persisted_user. by rewrite lookup_delete_eq. Qed.

Lemma persisted_users_insert_eq (l : list UserWithPassword) (ls : Storage) :
  persisted_users (<["users" := JSON_stringify l]> ls) = Some l.
Proof.
  unfold persisted_users. by rewrite lookup_insert_eq, JSON_parse_stringify.
Qed.

Lemma initialState_run (ls : Storage) :
  authSlice.initialState ls
  = (Normal {| user := persisted_user ls;
               isAuthenticated := bool_decide (is_Some (persisted_user ls));
               isLoading := false; error := None;
               users := default [] (persisted_users ls) |}, ls).
Proof.
  unfold authSlice.initialState, mbind, js_mbind, js_bind.
  by rewrite !loadUserFromStorage_run, loadUsersFromStorage_run.
Qed.

Lemma dispatch_run (a : Action) (s : RootState) (ls : Storage) :
  dispatch a s ls
  = match cartReducer a (cart s) ls with
    | (Normal cart', ls1) =>
        match authReducer a (auth s) ls1 with
        | (Normal auth', ls2) =>
            match ordersReducer a (ordersOf s) ls2 with
            | (Normal orders', ls3) =>
                (Normal {| auth := auth'; cart := cart';
                           ordersOf := orders' |}, ls3)
            | (Throw e, ls3) => (Throw e, ls3)
            end
        | (Throw e, ls2) => (Throw e, ls2)
        end
    | (Throw e, ls1) => (Throw e, ls1)
    end.
Proof.
  unfold dispatch, mbind, js_mbind, js_bind.
  destruct (cartReducer a (cart s) ls) as [[cart'|e] ls1]; [|done].
  destruct (authReducer a (auth s) ls1) as [[auth'|e] ls2]; [|done].
  by destruct (ordersReducer a (ordersOf s) ls2) as [[orders'|e] ls3].
Qed.

Lemma dispatch_all_cons (a : Action) (l : list Action) (s : RootState)
    (ls : Storage) :
  dispatch_all (a :: l) s ls
  = match dispatch a s ls with
    | (Normal s', ls') => dispatch_all l s' ls'
    | (Throw e, ls') => (Throw e, ls')
    end.
Proof. reflexivity. Qed.

(** Initializing cart and orders for a user id that is not empty. *)
Lemma initialize_slices_run (u : string) (s : RootState) (ls : Storage) :
  u ≠ "" →
  dispatch_all [cart_initializeCart u; orders_initializeOrders u] s ls
  = (Normal {| auth := auth s;
               cart := {| cartItems :=
                            default ∅ (persisted_cart ls ("cart_" +:+ u));
                          currentUserId := Some u |};
               ordersOf :=
                 {| orders :=
                      default [] (persisted_orders ls ("orders_" +:+ u));
                    orders_currentUserId := Some u;
                    orders_isLoading := orders_isLoading (ordersOf s) |} |},
     ls).
Proof.
  intros Hu. rewrite dispatch_all_cons, dispatch_run.
  cbn [cartReducer authReducer ordersReducer].
  rewrite initializeCart_user by done. cbv [js_ret].
  rewrite dispatch_all_cons, dispatch_run.
  cbn [cartReducer authReducer ordersReducer cart auth ordersOf].
  cbv [js_ret]. by rewrite initializeOrders_user.
Qed.

(** The same for any user id: storage is left as it is and the user
    becomes the active one of both slices. *)
Lemma initialize_slices_any (u : string) (s : RootState) (ls : Storage) :
  ∃ c l,
    dispatch_all [cart_initializeCart u; orders_initializeOrders u] s ls
    = (Normal {| auth := auth s;
                 cart := {| cartItems := c; currentUserId := Some u |};
                 ordersOf :=
                   {| orders := l; orders_currentUserId := Some u;
                      orders_isLoading := orders_isLoading (ordersOf s) |} |},
       ls).
Proof.
  destruct (decide (u = "")) as [->|Hu].
  - by eexists _, _.
  - eexists _, _. by apply initialize_slices_run.
Qed.

Lemma App_mount_anonymous (ls : Storage) :
  persisted_user ls = None →
  App_mount ls
  = (Normal {| auth := {| user := None; isAuthenticated := false;
                          isLoading := false; error := None;
                          users := default [] (persisted_users ls) |};
               cart := cartSlice.initialState;
               ordersOf := ordersSlice.initialState |}, ls).
Proof.
  intros Hnone. unfold App_mount, mbind, js_mbind, js_bind.
  rewrite initialState_run, Hnone. reflexivity.
Qed.

Lemma App_mount_user (profile : User) (ls : Storage) :
  persisted_user ls = Some profile → user_id profile ≠ "" →
  App_mount ls
  = (Normal {| auth := {| user := Some profile; isAuthenticated := true;
                          isLoading := false; error := None;
                          users := default [] (persisted_users ls) |};
               cart := {| cartItems :=
                            default ∅ (persisted_cart ls
                                         ("cart_" +:+ user_id profile));
                          currentUserId := Some (user_id profile) |};
               ordersOf :=
                 {| orders :=
                      default [] (persisted_orders ls
                                    ("orders_" +:+ user_id profile));
                    orders_currentUserId := Some (user_id profile);
                    orders_isLoading := false |} |}, ls).
Proof.
  intros Hsome Hid. unfold App_mount, mbind, js_mbind, js_bind.
  rewrite initialState_run, Hsome. unfold initializeApp.
  cbn [auth user isAuthenticated].
  rewrite bool_decide_eq_true_2 by by eexists.
  apply truthy_string_spec in Hid as Ht. rewrite Ht. cbn [andb].
  by rewrite initialize_slices_run.
Qed.

Lemma dispatch_loginStart (s : RootState) (ls : Storage) :
  dispatch auth_loginStart s ls
  = (Normal {| auth := {| user := user (auth s);
                          isAuthenticated := isAuthenticated (auth s);
                          isLoading := true; error := None;
                          users := users (auth s) |};
               cart := cart s; ordersOf := ordersOf s |}, ls).
Proof. reflexivity. Qed.

Lemma dispatch_loginSuccess (profile : User) (s : RootState) (ls : Storage) :
  dispatch (auth_loginSuccess profile) s ls
  = (Normal {| auth := {| user := Some profile; isAuthenticated := true;
                          isLoading := false; error := None;
                          users := users (auth s) |};
               cart := cart s; ordersOf := ordersOf s |},
     <["user" := JSON_stringify profile]> ls).
Proof. reflexivity. Qed.

Lemma loginUser_run (credentials : LoginCredentials) (s : RootState)
    (ls : Storage) (u : UserWithPassword) :
  List.find (credentials_match credentials) (users (auth s)) = Some u →
  uwp_id u ≠ "" →
  let profile := userWithoutPassword u in
  let ls' := <["user" := JSON_stringify profile]> ls in
  loginUser credentials s ls
  = (Normal {| auth := {| user := Some profile; isAuthenticated := true;
                          isLoading := false; error := None;
                          users := users (auth s) |};
               cart := {| cartItems :=
                            default ∅ (persisted_cart ls
                                         ("cart_" +:+ uwp_id u));
                          currentUserId := Some (uwp_id u) |};
               ordersOf :=
                 {| orders :=
                      default [] (persisted_orders ls
                                    ("orders_" +:+ uwp_id u));
                    orders_currentUserId := Some (uwp_id u);
                    orders_isLoading := orders_isLoading (ordersOf s) |} |},
     ls').
Proof.
  intros Hfind Hid profile ls'.
  unfold loginUser, mbind, js_mbind, js_bind. rewrite dispatch_loginStart.
  unfold loginUser_callback. cbn [auth users]. rewrite Hfind.
  rewrite dispatch_all_cons, dispatch_loginSuccess.
  rewrite initialize_slices_run by done.
  cbn [auth cart ordersOf users orders_isLoading].
  unfold persisted_cart, persisted_orders.
  rewrite !lookup_insert_ne;
    [done | apply user_key_not_orders | apply user_key_not_cart].
Qed.

(** Initializing cart and orders for the empty user id: both guards of
    the loaders fire. *)
Lemma initialize_slices_empty_id (s : RootState) (ls : Storage) :
  dispatch_all [cart_initializeCart ""; orders_initializeOrders ""] s ls
  = (Normal {| auth := auth s;
               cart := {| cartItems := ∅; currentUserId := Some "" |};
               ordersOf :=
                 {| orders := []; orders_currentUserId := Some "";
                    orders_isLoading := orders_isLoading (ordersOf s) |} |},
     ls).
Proof. reflexivity. Qed.

(** [loginUser] with credentials that the directory knows, whatever the id
    of the entry. *)
Lemma loginUser_run_any (credentials : LoginCredentials) (s : RootState)
    (ls : Storage) (u : UserWithPassword) :
  List.find (credentials_match credentials) (users (auth s)) = Some u →
  let profile := userWithoutPassword u in
  let ls' := <["user" := JSON_stringify profile]> ls in
  loginUser credentials s ls
  = (Normal {| auth := {| user := Some profile; isAuthenticated := true;
                          isLoading := false; error := None;
                          users := users (auth s) |};
               cart := {| cartItems :=
                            if decide (uwp_id u = "") then ∅
                            else default ∅ (persisted_cart ls
                                              ("cart_" +:+ uwp_id u));
                          currentUserId := Some (uwp_id u) |};
               ordersOf :=
                 {| orders :=
                      if decide (uwp_id u = "") then []
                      else default [] (persisted_orders ls
                                         ("orders_" +:+ uwp_id u));
                    orders_currentUserId := Some (uwp_id u);
                    orders_isLoading := orders_isLoading (ordersOf s) |} |},
     ls').
Proof.
  intros Hfind profile ls'.
  destruct (decide (uwp_id u = "")) as [Hid|Hid].
  - unfold loginUser, mbind, js_mbind, js_bind. rewrite dispatch_loginStart.
    unfold loginUser_callback. cbn [auth users]. rewrite Hfind.
    rewrite dispatch_all_cons, dispatch_loginSuccess, Hid.
    by rewrite initialize_slices_empty_id.
  - by apply loginUser_run.
Qed.

End AuthStorage.

Section Sessions.
Context `{JSON_cart : JSON CartItems} `{JSON_orders : JSON (list Order)}
        `{JSON_user : JSON User} `{JSON_users : JSON (list UserWithPassword)}.

(** X15.  When the credentials name an entry of the directory, [loginUser]
    logs in the first such entry, whatever its id: the profile is that
    entry without its password, it is written under the key [user] and
    nothing else is written, the user is authenticated, [isLoading] is
    false, the error is cleared and the directory is unchanged; the id of
    the entry becomes the active user of cart and orders.  When the id is
    not empty, cart and orders become what storage holds under the keys of
    that user (empty when nothing is stored); when it is empty, both are
    empty. *)
Theorem loginUser_success (credentials : LoginCredentials) (s : RootState)
    (ls : Storage) (before after : list UserWithPassword)
    (u : UserWithPassword) :
  users (auth s) = (before ++ u :: after)%list →
  Forall (λ v, ¬ names_user credentials v) before →
  names_user credentials u →
  ∃ s',
    loginUser credentials s ls
    = (Normal s', <["user" := JSON_stringify (userWithoutPassword u)]> ls)
    ∧ auth s'
      = {| user := Some (userWithoutPassword u); isAuthenticated := true;
           isLoading := false; error := None; users := users (auth s) |}
    ∧ currentUserId (cart s') = Some (uwp_id u)
    ∧ orders_currentUserId (ordersOf s') = Some (uwp_id u)
    ∧ orders_isLoading (ordersOf s') = orders_isLoading (ordersOf s)
    ∧ (uwp_id u ≠ "" →
       cartItems (cart s')
       = default ∅ (persisted_cart ls ("cart_" +:+ uwp_id u))
       ∧ orders (ordersOf s')
         = default [] (persisted_orders ls ("orders_" +:+ uwp_id u)))
    ∧ (uwp_id u = "" →
       cartItems (cart s') = ∅ ∧ orders (ordersOf s') = []).
Proof.
  intros Husers Hbefore Hnames.
  assert (Hfind : List.find (credentials_match credentials) (users (auth s))
                  = Some u)
    by (rewrite Husers; by apply find_first_match).
  eexists. split; [by apply loginUser_run_any|].
  cbn [auth cart ordersOf cartItems currentUserId orders
       orders_currentUserId orders_isLoading].
  split; [done|]. split; [done|]. split; [done|]. split; [done|].
  split; intros Hid.
  - by rewrite !decide_False.
  - by rewrite !decide_True.
Qed.

(** X16.  A session survives a page load.  After a successful login of a
    user whose id is not empty, creating the store again from storage and
    running [initializeApp] leaves storage as it is and gives the same
    profile, authenticated, the same cart state, and the same orders for
    the same active user.  The flag [isLoading] of the orders slice is
    false after the load, whatever it was before; so the orders state is
    the same when the flag was false at the login. *)
Theorem session_survives_reload (credentials : LoginCredentials)
    (s : RootState) (ls : Storage) (before after : list UserWithPassword)
    (u : UserWithPassword) :
  users (auth s) = (before ++ u :: after)%list →
  Forall (λ v, ¬ names_user credentials v) before →
  names_user credentials u →
  uwp_id u ≠ "" →
  ∃ s1 ls1 s2,
    loginUser credentials s ls = (Normal s1, ls1)
    ∧ App_mount ls1 = (Normal s2, ls1)
    ∧ user (auth s2) = user (auth s1)
    ∧ isAuthenticated (auth s2) = isAuthenticated (auth s1)
    ∧ isAuthenticated (auth s2) = true
    ∧ cart s2 = cart s1
    ∧ ordersOf s2
      = {| orders := orders (ordersOf s1);
           orders_currentUserId := orders_currentUserId (ordersOf s1);
           orders_isLoading := false |}
    ∧ (orders_isLoading (ordersOf s) = false → ordersOf s2 = ordersOf s1).
Proof.
  intros Husers Hbefore Hnames Hid.
  assert (Hfind : List.find (credentials_match credentials) (users (auth s))
                  = Some u)
    by (rewrite Husers; by apply find_first_match).
  eexists _, _, _. split; [by apply loginUser_run|].
  split.
  - apply (App_mount_user (userWithoutPassword u));
      [apply persisted_user_insert_eq | done].
  - cbn [auth user isAuthenticated cart ordersOf orders orders_currentUserId
         orders_isLoading userWithoutPassword user_id].
    unfold persisted_cart, persisted_orders.
    rewrite !lookup_insert_ne;
      [| apply user_key_not_orders | apply user_key_not_cart].
    repeat split. by intros ->.
Qed.

(** X17.  After [logoutUser], a page load finds nobody: the store comes up
    anonymous, with the initial cart and the initial orders, and storage
    is as [logoutUser] left it. *)
Theorem logout_then_reload (s : RootState) (ls : Storage) :
  ∃ s1 s2,
    logoutUser s ls = (Normal s1, delete "user" ls)
    ∧ App_mount (delete "user" ls) = (Normal s2, delete "user" ls)
    ∧ user (auth s2) = None
    ∧ isAuthenticated (auth s2) = false
    ∧ cart s2 = cartSlice.initialState
    ∧ ordersOf s2 = ordersSlice.initialState.
Proof.
  eexists _, _. split; [reflexivity|]. split.
  - apply App_mount_anonymous, persisted_user_delete.
  - by cbn.
Qed.

End Sessions.

Section Registration.
Context `{JSON_cart : JSON CartItems} `{JSON_orders : JSON (list Order)}
        `{JSON_user : JSON User} `{JSON_users : JSON (list UserWithPassword)}.
Variable encodeURIComponent : string → string.

Lemma dispatch_auth_registerStart (s : RootState) (ls : Storage) :
  dispatch_auth authSlice.registerStart s ls
  = (Normal {| auth := {| user := user (auth s);
                          isAuthenticated := isAuthenticated (auth s);
                          isLoading := true; error := None;
                          users := users (auth s) |};
               cart := cart s; ordersOf := ordersOf s |}, ls).
Proof. reflexivity. Qed.

Lemma dispatch_auth_registerFailure (msg : string) (s : RootState)
    (ls : Storage) :
  dispatch_auth (authSlice.registerFailure msg) s ls
  = (Normal {| auth := {| user := user (auth s);
                          isAuthenticated := isAuthenticated (auth s);
                          isLoading := false; error := Some msg;
                          users := users (auth s) |};
               cart := cart s; ordersOf := ordersOf s |}, ls).
Proof. reflexivity. Qed.

Lemma dispatch_auth_registerSuccess (profile : User)
    (newUser : UserWithPassword) (s : RootState) (ls : Storage) :
  dispatch_auth (authSlice.registerSuccess profile newUser) s ls
  = (Normal {| auth := {| user := Some profile; isAuthenticated := true;
                          isLoading := false; error := None;
                          users := (users (auth s) ++ [newUser])%list |};
               cart := cart s; ordersOf := ordersOf s |},
     <["users" := JSON_stringify (users (auth s) ++ [newUser])%list]>
       (<["user" := JSON_stringify profile]> ls)).
Proof. reflexivity. Qed.

(** The entry that [registerUser] builds. *)
Lemma registerUser_fresh (now_id now_created : Z) (userData : RegisterData)
    (s : RootState) (ls : Storage) :
  List.find (λ u, String.eqb (uwp_email u) (rd_email userData))
            (users (auth s)) = None →
  let newUser :=
    {| uwp_id := pretty now_id; uwp_name := rd_name userData;
       uwp_email := rd_email userData; uwp_password := rd_password userData;
       uwp_createdAt := toISOString now_created;
       uwp_avatar :=
         authSlice.avatar_of encodeURIComponent (rd_name userData) |} in
  let directory := (users (auth s) ++ [newUser])%list in
  let ls' := <["users" := JSON_stringify directory]>
               (<["user" := JSON_stringify (userWithoutPassword newUser)]> ls) in
  ∃ c l,
    registerUser encodeURIComponent now_id now_created userData s ls
    = (Normal {| auth := {| user := Some (userWithoutPassword newUser);
                            isAuthenticated := true; isLoading := false;
                            error := None; users := directory |};
                 cart := {| cartItems := c;
                            currentUserId := Some (pretty now_id) |};
                 ordersOf :=
                   {| orders := l;
                      orders_currentUserId := Some (pretty now_id);
                      orders_isLoading := orders_isLoading (ordersOf s) |} |},
       ls').
Proof.
  intros Hfind newUser directory ls'.
  unfold registerUser, mbind, js_mbind, js_bind.
  rewrite dispatch_auth_registerStart.
  unfold registerUser_callback. cbn [auth users]. rewrite Hfind.
  unfold mbind, js_mbind, js_bind. rewrite dispatch_auth_registerSuccess.
  cbn [uwp_id].
  match goal with
  | |- context [dispatch_all ?acts ?s0 ?ls0] =>
      destruct (initialize_slices_any (pretty now_id) s0 ls0)
        as (c & l & Hrun)
  end.
  exists c, l. rewrite Hrun. reflexivity.
Qed.

Lemma registerUser_taken (now_id now_created : Z) (userData : RegisterData)
    (s : RootState) (ls : Storage) (existingUser : UserWithPassword) :
  List.find (λ u, String.eqb (uwp_email u) (rd_email userData))
            (users (auth s)) = Some existingUser →
  registerUser encodeURIComponent now_id now_created userData s ls
  = (Normal {| auth := {| user := user (auth s);
                          isAuthenticated := isAuthenticated (auth s);
                          isLoading := false;
                          error := Some "Email has already been used.";
                          users := users (auth s) |};
               cart := cart s; ordersOf := ordersOf s |}, ls).
Proof.
  intros Hfind.
  unfold registerUser, mbind, js_mbind, js_bind.
  rewrite dispatch_auth_registerStart.
  unfold registerUser_callback. cbn [auth users]. rewrite Hfind.
  by rewrite dispatch_auth_registerFailure.
Qed.

(** X18.  When the directory already has an entry with the email,
    [registerUser] ends with the error "Email has already been used." and
    nothing else changes: the directory, the logged-in user if there is
    one, the cart, the orders and storage are what they were. *)
Theorem registerUser_existing_email (now_id now_created : Z)
    (userData : RegisterData) (s : RootState) (ls : Storage) :
  rd_email userData ∈ uwp_email <$> users (auth s) →
  ∃ s',
    registerUser encodeURIComponent now_id now_created userData s ls
    = (Normal s', ls)
    ∧ error (auth s') = Some "Email has already been used."
    ∧ isLoading (auth s') = false
    ∧ user (auth s') = user (auth s)
    ∧ isAuthenticated (auth s') = isAuthenticated (auth s)
    ∧ users (auth s') = users (auth s)
    ∧ cart s' = cart s
    ∧ ordersOf s' = ordersOf s.
Proof.
  intros Hin.
  destruct (find_email_cases (rd_email userData) (users (auth s)))
    as [(v & Hfind & _)|[_ Hnin]]; [|done].
  eexists. split; [by apply (registerUser_taken _ _ _ _ _ v)|]. by cbn.
Qed.

(** X19.  When no entry of the directory has the email, [registerUser]
    appends one entry built from the data, logs that user in, writes the
    profile under [user] and the new directory under [users], and makes
    the new id the active user of cart and orders.  From then on, in any
    state with that directory, [loginUser] with the same email and
    password logs in that same profile. *)
Theorem registerUser_then_login (now_id now_created : Z)
    (userData : RegisterData) (s : RootState) (ls : Storage) :
  rd_email userData ∉ uwp_email <$> users (auth s) →
  ∃ s1 ls1 newUser,
    registerUser encodeURIComponent now_id now_created userData s ls
    = (Normal s1, ls1)
    ∧ users (auth s1) = (users (auth s) ++ [newUser])%list
    ∧ uwp_email newUser = rd_email userData
    ∧ uwp_password newUser = rd_password userData
    ∧ uwp_name newUser = rd_name userData
    ∧ uwp_id newUser = pretty now_id
    ∧ user (auth s1) = Some (userWithoutPassword newUser)
    ∧ isAuthenticated (auth s1) = true
    ∧ currentUserId (cart s1) = Some (uwp_id newUser)
    ∧ orders_currentUserId (ordersOf s1) = Some (uwp_id newUser)
    ∧ persisted_user ls1 = Some (userWithoutPassword newUser)
    ∧ persisted_users ls1 = Some (users (auth s1))
    ∧ ∀ s2 ls2,
        users (auth s2) = users (auth s1) →
        ∃ s3 ls3,
          loginUser
            {| cred_email := rd_email userData;
               cred_password := rd_password userData |} s2 ls2
          = (Normal s3, ls3)
          ∧ user (auth s3) = Some (userWithoutPassword newUser)
          ∧ isAuthenticated (auth s3) = true.
Proof.
  intros Hnin.
  destruct (find_email_cases (rd_email userData) (users (auth s)))
    as [(v & _ & Hin)|[Hfind _]]; [done|].
  destruct (registerUser_fresh now_id now_created userData s ls Hfind)
    as (c & l & Hrun).
  eexists _, _, _. split; [exact Hrun|].
  cbn [auth users user isAuthenticated cart ordersOf currentUserId
       orders_currentUserId uwp_email uwp_password uwp_name uwp_id].
  repeat (split; [try done|]).
  - rewrite persisted_user_insert_ne by done. apply persisted_user_insert_eq.
  - apply persisted_users_insert_eq.
  - intros s2 ls2 Husers.
    set (newUser := {| uwp_id := pretty now_id |}).
    set (credentials := {| cred_email := rd_email userData |}).
    assert (Hfind2 : List.find (credentials_match credentials)
                       (users (auth s2)) = Some newUser).
    { rewrite Husers. apply find_first_match; [|by split].
      apply Forall_forall. intros v Hv [He _]. apply Hnin.
      apply list_elem_of_fmap. exists v. by split. }
    unfold loginUser, mbind, js_mbind, js_bind. rewrite dispatch_loginStart.
    unfold loginUser_callback. cbn [auth users]. rewrite Hfind2.
    rewrite dispatch_all_cons, dispatch_loginSuccess.
    match goal with
    | |- context [dispatch_all ?acts ?s0 ?ls0] =>
        destruct (initialize_slices_any (uwp_id newUser) s0 ls0)
          as (c2 & l2 & Hrun2)
    end.
    rewrite Hrun2. by eexists _, _.
Qed.

(** X20.  [registerUser] keeps the emails of the directory distinct: if no
    two entries share an email before, none do after, whether the
    registration went through or was refused. *)
Theorem registerUser_keeps_emails_distinct (now_id now_created : Z)
    (userData : RegisterData) (s : RootState) (ls : Storage) :
  NoDup (uwp_email <$> users (auth s)) →
  ∃ s' ls',
    registerUser encodeURIComponent now_id now_created userData s ls
    = (Normal s', ls')
    ∧ NoDup (uwp_email <$> users (auth s')).
Proof.
  intros Hnodup.
  destruct (find_email_cases (rd_email userData) (users (auth s)))
    as [(v & Hfind & _)|[Hfind Hnin]].
  - eexists _, _. split; [by apply (registerUser_taken _ _ _ _ _ v)|]. done.
  - destruct (registerUser_fresh now_id now_created userData s ls Hfind)
      as (c & l & Hrun).
    eexists _, _. split; [exact Hrun|]. cbn [auth users].
    rewrite fmap_app. apply NoDup_app. split; [done|]. split.
    + intros e He Hin. cbn in Hin. apply elem_of_cons in Hin as [->|Hin];
        [done | by apply elem_of_nil in Hin].
    + cbn. apply NoDup_singleton.
Qed.

End Registration.

Section Profile.
Context `{JSON_user : JSON User} `{JSON_users : JSON (list UserWithPassword)}.
Variable encodeURIComponent : string → string.

Lemma saveUsersToStorage_run (l : list UserWithPassword) (ls : Storage) :
  authSlice.saveUsersToStorage l ls
  = (Normal tt, <["users" := JSON_stringify l]> ls).
Proof. reflexivity. Qed.

Lemma passwords_after_alter (updated : User) (k : nat)
    (l : list UserWithPassword) :
  uwp_password <$> alter (λ entry, authSlice.spread_entry entry updated) k l
  = uwp_password <$> l.
Proof.
  revert k. induction l as [|e l IH]; intros [|k]; simpl; [done..| |].
  - done.
  - f_equal. apply IH.
Qed.

(** X21.  [updateProfile] does nothing when nobody is logged in.  For a
    logged-in user it never changes a password or the number of entries
    of the directory; the profile it stores under [user] is the profile
    it leaves in memory; and when the payload gives a name that is not
    empty and differs from the current one, the avatar is the one built
    from that name, whatever avatar the payload gives. *)
Theorem updateProfile_keeps_passwords (payload : PartialUser)
    (state : AuthState) (ls : Storage) :
  ∃ state' ls',
    authSlice.updateProfile encodeURIComponent payload state ls
    = (Normal state', ls')
    ∧ uwp_password <$> users state' = uwp_password <$> users state
    ∧ (user state = None → state' = state ∧ ls' = ls)
    ∧ ∀ current,
        user state = Some current →
        ∃ updated,
          user state' = Some updated
          ∧ persisted_user ls' = Some updated
          ∧ ∀ name,
              pu_name payload = Some name → name ≠ "" →
              name ≠ user_name current →
              user_avatar updated
              = authSlice.avatar_of encodeURIComponent name.
Proof.
  unfold authSlice.updateProfile.
  destruct (user state) as [current|] eqn:Huser.
  - set (updated := match pu_name payload with Some _ => _ | None => _ end).
    unfold mbind, js_mbind, js_bind. rewrite saveUserToStorage_Some.
    assert (Havatar : ∀ name,
      pu_name payload = Some name → name ≠ "" → name ≠ user_name current →
      user_avatar updated = authSlice.avatar_of encodeURIComponent name).
    { intros name Hname Hne Hdiff. unfold updated. rewrite Hname.
      apply truthy_string_spec in Hne. rewrite Hne.
      apply String.eqb_neq in Hdiff. by rewrite Hdiff. }
    destruct (list_find _ (users state)) as [[k entry]|].
    + unfold mbind, js_mbind, js_bind. rewrite saveUsersToStorage_run.
      eexists _, _. split; [reflexivity|]. cbn [users user].
      split; [apply passwords_after_alter|]. split; [done|].
      intros ? [= <-]. exists updated. split; [done|]. split; [|done].
      rewrite persisted_user_insert_ne by done.
      apply persisted_user_insert_eq.
    + eexists _, _. split; [reflexivity|]. cbn [users user].
      split; [done|]. split; [done|].
      intros ? [= <-]. exists updated. split; [done|]. split; [|done].
      apply persisted_user_insert_eq.
  - eexists _, _. split; [reflexivity|]. by repeat split.
Qed.

End Profile.

(** * The timers of the auto-logout hook *)

Lemma clear_ref_pending (ref : option positive) (t : autoLogout.Timers)
    (k : positive) :
  autoLogout.pending (autoLogout.clear_ref ref t) !! k
  = if decide (ref = Some k) then None else autoLogout.pending t !! k.
Proof.
  destruct ref as [handle|]; cbn [autoLogout.clear_ref].
  - unfold autoLogout.clearTimeout. cbn [autoLogout.pending].
    rewrite lookup_delete. destruct (decide (handle = k)) as [->|Hne].
    + by rewrite decide_True.
    + rewrite decide_False by congruence. done.
  - by rewrite decide_False.
Qed.

Lemma clear_ref_next (ref : option positive) (t : autoLogout.Timers) :
  autoLogout.next_handle (autoLogout.clear_ref ref t)
  = autoLogout.next_handle t.
Proof. by destruct ref. Qed.

Lemma hook_inv_mounted (page : autoLogout.Timers) (now : Z) :
  handles_fresh page → hook_inv page (mounted page now).
Proof.
  intros Hfresh. unfold hook_inv, mounted. simpl.
  split; [lia|]. split; [done|]. split.
  - intros k Hk. destruct (autoLogout.pending page !! k) eqn:Hp; [|done].
    assert (Hlt := Hfresh k (mk_is_Some _ _ Hp)). lia.
  - split.
    + intros k Hk Hsome. specialize (Hfresh k Hsome). lia.
    + by intros k [?|?].
Qed.

(** One run of [resetTimer] for an authenticated user. *)
Lemma resetTimer_step (config : SessionConfig) (page : autoLogout.Timers)
    (now : Z) (h : autoLogout.HookState) :
  hook_inv page h →
  let h' := autoLogout.resetTimer config true now h in
  hook_inv page h'
  ∧ autoLogout.lastActivityRef h' = now
  ∧ ∃ handle,
      autoLogout.timeoutRef h' = Some handle
      ∧ autoLogout.pending (autoLogout.timers h') !! handle
        = Some (now + timeoutMs config, autoLogout.performLogout)
      ∧ ∀ k due callback,
          (autoLogout.next_handle page ≤ k)%positive →
          autoLogout.pending (autoLogout.timers h') !! k
          = Some (due, callback) →
          (k = handle ∧ callback = autoLogout.performLogout)
          ∨ (autoLogout.warningTimeoutRef h' = Some k
             ∧ showWarning config = true
             ∧ callback = autoLogout.showWarningMessage
             ∧ due = now + (timeoutMs config - warningMs config)).
Proof.
  intros (Hnext & Hpage & Habove & Hheld & Hrefs) h'.
  destruct h as [tref wref last t]. simpl in *.
  unfold h', autoLogout.resetTimer. cbn [negb].
  cbn [autoLogout.timeoutRef autoLogout.warningTimeoutRef autoLogout.timers].
  set (t1 := autoLogout.clear_ref wref (autoLogout.clear_ref tref t)).
  assert (Hn1 : autoLogout.next_handle t1 = autoLogout.next_handle t)
    by (unfold t1; by rewrite !clear_ref_next).
  assert (Hp1 : ∀ k, autoLogout.pending t1 !! k
                     = if decide (wref = Some k) then None
                       else if decide (tref = Some k) then None
                       else autoLogout.pending t !! k)
    by (intros k; unfold t1; by rewrite !clear_ref_pending).
  assert (Hcleared : ∀ k, (autoLogout.next_handle page ≤ k)%positive →
                          autoLogout.pending t1 !! k = None).
  { intros k Hk. rewrite Hp1. repeat case_decide; try done.
    destruct (autoLogout.pending t !! k) eqn:Hpk; [|done].
    destruct (Hheld k Hk (mk_is_Some _ _ Hpk)); congruence. }
  assert (Hkept : ∀ k, (k < autoLogout.next_handle page)%positive →
                       autoLogout.pending t1 !! k
                       = autoLogout.pending page !! k).
  { intros k Hk. rewrite Hp1, <- (Hpage k Hk).
    repeat case_decide; try done.
    - assert (autoLogout.next_handle page ≤ k)%positive
        by (apply (Hrefs k); by right). lia.
    - assert (autoLogout.next_handle page ≤ k)%positive
        by (apply (Hrefs k); by left). lia. }
  clearbody t1. destruct t1 as [p1 n1]. simpl in *. subst n1.
  destruct (showWarning config) eqn:Hshow;
    cbn [autoLogout.setTimeout autoLogout.next_handle autoLogout.pending
         autoLogout.timeoutRef autoLogout.warningTimeoutRef
         autoLogout.lastActivityRef autoLogout.timers].
  - (* the warning timer takes the next handle, the logout timer the one
       after *)
    split; [|split; [done|]].
    + unfold hook_inv. simpl. split; [lia|]. split.
      { intros k Hk. rewrite !lookup_insert_ne by lia. by apply Hkept. }
      split.
      { intros k Hk. rewrite !lookup_insert_ne by lia. apply Hcleared. lia. }
      split.
      { intros k Hk Hsome.
        destruct (decide (k = Pos.succ (autoLogout.next_handle t)))
          as [->|Hne1]; [by left|].
        destruct (decide (k = autoLogout.next_handle t)) as [->|Hne2];
          [by right|].
        rewrite !lookup_insert_ne in Hsome by done.
        rewrite (Hcleared k Hk) in Hsome. by destruct Hsome. }
      intros k [[= <-]|[= <-]]; lia.
    + exists (Pos.succ (autoLogout.next_handle t)).
      split; [done|]. split; [by rewrite lookup_insert_eq|].
      intros k due callback Hk Hlook.
      destruct (decide (k = Pos.succ (autoLogout.next_handle t)))
        as [->|Hne1].
      * rewrite lookup_insert_eq in Hlook. left. by injection Hlook as <- <-.
      * rewrite lookup_insert_ne in Hlook by done.
        destruct (decide (k = autoLogout.next_handle t)) as [->|Hne2].
        -- rewrite lookup_insert_eq in Hlook. right.
           by injection Hlook as <- <-.
        -- rewrite lookup_insert_ne in Hlook by done.
           by rewrite (Hcleared k Hk) in Hlook.
  - (* no warning timer: the logout timer takes the next handle *)
    split; [|split; [done|]].
    + unfold hook_inv. simpl. split; [lia|]. split.
      { intros k Hk. rewrite lookup_insert_ne by lia. by apply Hkept. }
      split.
      { intros k Hk. rewrite lookup_insert_ne by lia. apply Hcleared. lia. }
      split.
      { intros k Hk Hsome.
        destruct (decide (k = autoLogout.next_handle t)) as [->|Hne];
          [by left|].
        rewrite lookup_insert_ne in Hsome by done.
        rewrite (Hcleared k Hk) in Hsome. by destruct Hsome. }
      intros k [[= <-]|Hw]; [lia|].
      assert (autoLogout.next_handle page ≤ k < autoLogout.next_handle t)%positive
        by (apply (Hrefs k); by right). lia.
    + exists (autoLogout.next_handle t).
      split; [done|]. split; [by rewrite lookup_insert_eq|].
      intros k due callback Hk Hlook.
      destruct (decide (k = autoLogout.next_handle t)) as [->|Hne].
      * rewrite lookup_insert_eq in Hlook. left. by injection Hlook as <- <-.
      * rewrite lookup_insert_ne in Hlook by done.
        by rewrite (Hcleared k Hk) in Hlook.
Qed.

Lemma hook_inv_after_activity (config : SessionConfig)
    (page : autoLogout.Timers) (instants : list Z)
    (h : autoLogout.HookState) :
  hook_inv page h → hook_inv page (after_activity config instants h).
Proof.
  revert h. induction instants as [|now instants IH]; intros h Hinv; [done|].
  unfold after_activity. cbn [foldl]. apply IH.
  by apply (resetTimer_step config page now h Hinv).
Qed.

Lemma after_activity_snoc (config : SessionConfig) (instants : list Z)
    (last : Z) (h : autoLogout.HookState) :
  after_activity config (instants ++ [last])%list h
  = autoLogout.resetTimer config true last (after_activity config instants h).
Proof. unfold after_activity. by rewrite foldl_app. Qed.

(** X22.  No stale timer.  Mount the hook for an authenticated user over
    any timers of the page and let activity arrive at any instants, the
    user staying authenticated; the table holds the timers that were set
    and not cleared, the firing of a timer is not part of it.  After
    the last one, the logout timer held by [timeoutRef] is pending and due
    one timeout after that instant, and it is the only timer set since the
    mount that is still pending, besides the warning timer of that same
    instant when warnings are shown; the timers of other code are
    untouched; and at every instant the remaining time that the hook
    reports is the time left until that logout timer is due, or zero. *)
Theorem activity_leaves_one_logout_timer (config : SessionConfig)
    (page : autoLogout.Timers) (mount_time : Z) (instants : list Z)
    (last : Z) :
  handles_fresh page →
  let h := after_activity config (instants ++ [last])%list
             (mounted page mount_time) in
  let t := autoLogout.timers h in
  ∃ handle,
    autoLogout.timeoutRef h = Some handle
    ∧ autoLogout.isTimerActive h = true
    ∧ autoLogout.pending t !! handle
      = Some (last + timeoutMs config, autoLogout.performLogout)
    ∧ (∀ k due callback,
         (autoLogout.next_handle page ≤ k)%positive →
         autoLogout.pending t !! k = Some (due, callback) →
         (k = handle ∧ callback = autoLogout.performLogout)
         ∨ (autoLogout.warningTimeoutRef h = Some k
            ∧ showWarning config = true
            ∧ callback = autoLogout.showWarningMessage
            ∧ due = last + (timeoutMs config - warningMs config)))
    ∧ (∀ k, (k < autoLogout.next_handle page)%positive →
            autoLogout.pending t !! k = autoLogout.pending page !! k)
    ∧ ∀ now,
        autoLogout.getRemainingTime config true now h
        = Z.max 0 (last + timeoutMs config - now).
Proof.
  intros Hfresh h t.
  assert (Hinv := hook_inv_after_activity config page instants
                    (mounted page mount_time)
                    (hook_inv_mounted page mount_time Hfresh)).
  destruct (resetTimer_step config page last _ Hinv)
    as (Hinv' & Hlast & handle & Href & Hpending & Honly).
  subst t h. rewrite after_activity_snoc.
  exists handle. split; [done|]. split.
  { unfold autoLogout.isTimerActive. rewrite Href.
    by apply bool_decide_eq_true_2. }
  split; [done|]. split; [done|]. split.
  - by destruct Hinv' as (_ & Hpage & _).
  - intros now. unfold autoLogout.getRemainingTime. cbn [negb].
    rewrite Hlast. f_equal. lia.
Qed.

(** X23.  The tab is hidden at one instant and shown again at a later
    one, for an authenticated user.  Hiding sets no timer and clears none.
    On showing, [performLogout] is called exactly when the time away has
    reached the timeout, and then no timer is touched; otherwise the
    timers are set again as by activity at that instant, so the hook
    reports the full timeout as remaining. *)
Theorem visibility_reconciles (config : SessionConfig) (hidden_at shown_at : Z)
    (h : autoLogout.HookState) :
  let '(h1, logout1) :=
    autoLogout.handleVisibilityChange config true true hidden_at h in
  let '(h2, logout2) :=
    autoLogout.handleVisibilityChange config true false shown_at h1 in
  logout1 = false
  ∧ autoLogout.timers h1 = autoLogout.timers h
  ∧ (logout2 = true ↔ timeoutMs config ≤ shown_at - hidden_at)
  ∧ (logout2 = true → h2 = h1)
  ∧ (logout2 = false →
     h2 = autoLogout.resetTimer config true shown_at h1
     ∧ autoLogout.getRemainingTime config true shown_at h2
       = Z.max 0 (timeoutMs config)).
Proof.
  unfold autoLogout.handleVisibilityChange. cbn [negb].
  cbn [autoLogout.lastActivityRef].
  destruct (timeoutMs config <=? shown_at - hidden_at) eqn:Hle.
  - apply Z.leb_le in Hle. by repeat split.
  - apply Z.leb_gt in Hle. split; [done|]. split; [done|]. split.
    + split; [done | lia].
    + split; [done|]. intros _. split; [done|].
      unfold autoLogout.getRemainingTime, autoLogout.resetTimer. cbn [negb].
      destruct (showWarning config); cbn; f_equal; lia.
Qed.

(** X24.  Logout disarms the hook.  When [isAuthenticated] turns false
    after any activity, the cleanup of the effect followed by its body
    leaves no timer pending that was set since the mount, both refs are
    null, so [isTimerActive] is false, the remaining time reported is
    zero, and the timers of other code are untouched. *)
Theorem logout_disarms_hook (config : SessionConfig)
    (page : autoLogout.Timers) (mount_time now : Z) (instants : list Z) :
  handles_fresh page →
  let h := after_activity config instants (mounted page mount_time) in
  let h' := autoLogout.effect_setup config false now
              (autoLogout.effect_cleanup h) in
  (∀ k, (autoLogout.next_handle page ≤ k)%positive →
        autoLogout.pending (autoLogout.timers h') !! k = None)
  ∧ (∀ k, (k < autoLogout.next_handle page)%positive →
          autoLogout.pending (autoLogout.timers h') !! k
          = autoLogout.pending page !! k)
  ∧ autoLogout.timeoutRef h' = None
  ∧ autoLogout.warningTimeoutRef h' = None
  ∧ autoLogout.isTimerActive h' = false
  ∧ ∀ later, autoLogout.getRemainingTime config false later h' = 0.
Proof.
  intros Hfresh h h'.
  assert (Hinv : hook_inv page h)
    by (apply hook_inv_after_activity; by apply hook_inv_mounted).
  destruct Hinv as (Hnext & Hpage & Habove & Hheld & Hrefs).
  unfold h', autoLogout.effect_setup, autoLogout.effect_cleanup.
  cbn [negb autoLogout.timers autoLogout.timeoutRef
       autoLogout.warningTimeoutRef].
  split; [|split; [|by repeat split]].
  - intros k Hk. rewrite !clear_ref_pending.
    repeat case_decide; try done.
    destruct (autoLogout.pending (autoLogout.timers h) !! k) eqn:Hpk; [|done].
    destruct (Hheld k Hk (mk_is_Some _ _ Hpk)); congruence.
  - intros k Hk. rewrite !clear_ref_pending, <- (Hpage k Hk).
    repeat case_decide; try done.
    + assert (autoLogout.next_handle page ≤ k)%positive
        by (apply (Hrefs k); by right). lia.
    + assert (autoLogout.next_handle page ≤ k)%positive
        by (apply (Hrefs k); by left). lia.
Qed.

(** * Concrete runs of the further properties *)

Lemma storage_empty_persists_nothing `{JSON CartItems} (key : string) :
  persisted_cart ∅ key = None.
Proof. unfold persisted_cart. by rewrite lookup_empty. Qed.

Lemma storage_empty_no_orders `{JSON (list Order)} (key : string) :
  persisted_orders ∅ key = None.
Proof. unfold persisted_orders. by rewrite lookup_empty. Qed.

Lemma handles_fresh_quiet_page : handles_fresh quiet_page.
Proof. intros handle [x Hx]. cbn in Hx. by rewrite lookup_empty in Hx. Qed.

(** X1, witness. *)
Lemma updateQuantity_sets_entry_witness :
  let J := reference_JSON_cart in
  let p := {| uq_itemId := "p1"; uq_size := "M"; uq_quantity := 3 |} in
  "u1" ≠ "" ∧ ordinary_key "p1" ∧ ordinary_key "M"
  ∧ ∃ cartData,
      cartSlice.updateQuantity p
        {| cartItems := cart_p1_M 1; currentUserId := Some "u1" |} ∅
      = (Normal {| cartItems := cartData; currentUserId := Some "u1" |},
         <["cart_" +:+ "u1" := JSON_stringify cartData]> ∅)
      ∧ quantity_at cartData "p1" "M" = Some 3.
Proof.
  intros J p. split; [done|]. split; [reflexivity|]. split; [reflexivity|].
  destruct (updateQuantity_sets_entry (JSON_cart := J) "u1" p (cart_p1_M 1) ∅
              ltac:(done) eq_refl eq_refl) as (cartData & Hrun & Hq).
  exists cartData. split; [exact Hrun|]. rewrite Hq. reflexivity.
Defined.




(** X6, witness. *)
Lemma deleteUserCart_forgets_cart_witness :
  let J := reference_JSON_cart in
  let ls : Storage := <["cart_" +:+ "u1" := JSON_stringify (cart_p1_M 1)]> ∅ in
  "u1" ≠ ""
  ∧ cartSlice.initializeCart "u1" cartSlice.initialState
      (delete ("cart_" +:+ "u1") ls)
    = (Normal {| cartItems := ∅; currentUserId := Some "u1" |},
       delete ("cart_" +:+ "u1") ls).
Proof.
  intros J ls. split; [done|].
  apply (deleteUserCart_forgets_cart (JSON_cart := J) "u1"
           cartSlice.initialState ls ltac:(done)).
Defined.

(** X7, witness. *)
Lemma cart_never_keeps_empty_item_witness :
  let J := reference_JSON_cart in
  let l :=
    [cart_initializeCart "u1";
     cart_addToCart {| atc_itemId := "p1"; atc_size := "M" |};
     cart_removeFromCart {| sel_itemId := "p1"; sel_size := "M" |}] in
  storage_no_empty_item ∅
  ∧ Forall ordinary_keys l
  ∧ ∃ state' ls',
      cart_run l cartSlice.initialState ∅ = (Normal state', ls')
      ∧ cart_no_empty_item (cartItems state').
Proof.
  intros J l.
  assert (Hls : storage_no_empty_item ∅).
  { intros key c Hp. by rewrite storage_empty_persists_nothing in Hp. }
  assert (Hk : Forall ordinary_keys l) by (repeat constructor).
  split; [exact Hls|]. split; [exact Hk|].
  destruct (cart_never_keeps_empty_item (JSON_cart := J) l ∅ Hls Hk)
    as (state' & ls' & Hrun & Hc & _).
  exists state', ls'. split; [exact Hrun|exact Hc].
Defined.

(** X9, witness. *)
Lemma selectSelectedCartAmount_all_witness :
  let cart := {| cartItems := cart_p1_M 2; currentUserId := Some "u1" |} in
  "u1" ≠ ""
  ∧ (∀ itemId size q,
       quantity_at (cart_p1_M 2) itemId size = Some q → 0 ≤ q)
  ∧ cartSlice.selectSelectedCartAmount (select_all (cart_p1_M 2)) cart
      catalogue
    = cartSlice.selectCartAmount cart catalogue.
Proof.
  intros cart.
  assert (Hq : ∀ itemId size q,
            quantity_at (cart_p1_M 2) itemId size = Some q → 0 ≤ q).
  { intros itemId size q Hq. apply cart_p1_M_quantity in Hq. lia. }
  split; [done|]. split; [exact Hq|].
  exact (selectSelectedCartAmount_all "u1" (cart_p1_M 2) catalogue
           ltac:(done) Hq).
Defined.

(** X10, witness. *)
Lemma addOrder_prepends_witness :
  let J := reference_JSON_orders in
  "u1" ≠ ""
  ∧ ∃ newOrder state',
      ordersSlice.addOrder noon first_order
        {| orders := []; orders_currentUserId := Some "u1";
           orders_isLoading := false |} ∅
      = (Normal state',
         <["orders_" +:+ "u1" := JSON_stringify [newOrder]]> ∅)
      ∧ orders state' = [newOrder]
      ∧ order_userId newOrder = "u1".
Proof.
  intros J. split; [done|].
  destruct (addOrder_prepends (JSON_orders := J) "u1" noon first_order []
              false ∅ ltac:(done))
    as (newOrder & state' & Hrun & Horders & Hid & _).
  exists newOrder, state'. split; [exact Hrun|]. split; [exact Horders|].
  exact Hid.
Defined.

Lemma first_order_42 :
  list_find (λ o, order_id o = "42") [order_42; order_42_again]
  = Some (0%nat, order_42).
Proof. reflexivity. Qed.

(** X11, witness.  Of two orders with the same id, the first one is
    shipped and the second is left as it is. *)
Lemma updateOrderStatus_first_match_witness :
  let J := reference_JSON_orders in
  let p := {| uos_orderId := "42"; uos_status := shipped |} in
  let state := {| orders := [order_42; order_42_again];
                  orders_currentUserId := Some "u1";
                  orders_isLoading := false |} in
  "u1" ≠ ""
  ∧ ∃ state' ls',
      ordersSlice.updateOrderStatus p state ∅ = (Normal state', ls')
      ∧ orders state' = [set_status shipped order_42; order_42_again]
      ∧ ls' = <["orders_" +:+ "u1" := JSON_stringify (orders state')]> ∅
      ∧ ordersSlice.selectOrderById "42" state'
        = Some (set_status shipped order_42).
Proof.
  intros J p state. split; [done|].
  destruct (updateOrderStatus_first_match (JSON_orders := J) "u1" p
              [order_42; order_42_again] false ∅ ltac:(done))
    as (_ & state' & ls' & Hrun & Hmatch).
  change (uos_orderId p) with "42" in Hmatch.
  rewrite first_order_42 in Hmatch.
  destruct Hmatch as (Horders & Hls & Hselect & _).
  exists state', ls'. split; [exact Hrun|]. split; [exact Horders|].
  split; [exact Hls|exact Hselect].
Defined.

(** X12, witness. *)
Lemma orders_stay_synced_witness :
  let J := reference_JSON_orders in
  let l := [orders_initializeOrders "u1"; orders_addOrder noon first_order] in
  orders_synced ordersSlice.initialState ∅
  ∧ ∃ state' ls',
      orders_run l ordersSlice.initialState ∅ = (Normal state', ls')
      ∧ orders_synced state' ls'.
Proof.
  intros J l.
  assert (Hsync : orders_synced ordersSlice.initialState ∅) by by intros u.
  split; [exact Hsync|].
  destruct (orders_stay_synced (JSON_orders := J) l ordersSlice.initialState
              ∅ Hsync) as (state' & ls' & Hrun & Hsync' & _).
  exists state', ls'. split; [exact Hrun|exact Hsync'].
Defined.

(** X13, witness. *)
Lemma orders_belong_to_active_user_witness :
  let J := reference_JSON_orders in
  let l := [orders_initializeOrders "u1"; orders_addOrder noon first_order;
            orders_cancelOrder "1700000000000"] in
  storage_orders_owned ∅
  ∧ ∃ state' ls',
      orders_run l ordersSlice.initialState ∅ = (Normal state', ls')
      ∧ orders_owned state'.
Proof.
  intros J l.
  assert (Hls : storage_orders_owned ∅).
  { intros u l' o Hp. by rewrite storage_empty_no_orders in Hp. }
  split; [exact Hls|].
  destruct (orders_belong_to_active_user (JSON_orders := J) l ∅ Hls)
    as (state' & ls' & Hrun & Hown & _).
  exists state', ls'. split; [exact Hrun|exact Hown].
Defined.

(** X15, witness. *)
Lemma loginUser_success_witness :
  users (auth anonymous_root) = ([alice] ++ bob :: [])%list
  ∧ Forall (λ v, ¬ names_user bob_credentials v) [alice]
  ∧ names_user bob_credentials bob
  ∧ ∃ s',
      loginUser (JSON_cart := reference_JSON_cart)
        (JSON_orders := reference_JSON_orders)
        (JSON_user := reference_JSON_user) bob_credentials anonymous_root ∅
      = (Normal s',
         <["user" := JSON_stringify (JSON := reference_JSON_user)
                       (userWithoutPassword bob)]> ∅)
      ∧ auth s'
        = {| user := Some (userWithoutPassword bob); isAuthenticated := true;
             isLoading := false; error := None;
             users := users (auth anonymous_root) |}
      ∧ currentUserId (cart s') = Some "u2".
Proof.
  assert (Hbefore : Forall (λ v, ¬ names_user bob_credentials v) [alice]).
  { repeat constructor. intros [He _]. discriminate He. }
  assert (Hbob : names_user bob_credentials bob) by by split.
  split; [reflexivity|]. split; [exact Hbefore|]. split; [exact Hbob|].
  destruct (loginUser_success (JSON_cart := reference_JSON_cart)
              (JSON_orders := reference_JSON_orders)
              (JSON_user := reference_JSON_user)
              bob_credentials anonymous_root ∅ [alice] [] bob
              eq_refl Hbefore Hbob)
    as (s' & Hrun & Hauth & Hcart & _).
  exists s'. split; [exact Hrun|]. split; [exact Hauth|exact Hcart].
Defined.

(** X16, witness. *)
Lemma session_survives_reload_witness :
  users (auth anonymous_root) = ([alice] ++ bob :: [])%list
  ∧ Forall (λ v, ¬ names_user bob_credentials v) [alice]
  ∧ names_user bob_credentials bob
  ∧ uwp_id bob ≠ ""
  ∧ ∃ s1 ls1 s2,
      loginUser (JSON_cart := reference_JSON_cart)
        (JSON_orders := reference_JSON_orders)
        (JSON_user := reference_JSON_user) bob_credentials anonymous_root ∅
      = (Normal s1, ls1)
      ∧ App_mount (JSON_cart := reference_JSON_cart)
          (JSON_orders := reference_JSON_orders)
          (JSON_user := reference_JSON_user)
          (JSON_users := reference_JSON_users) ls1
        = (Normal s2, ls1)
      ∧ user (auth s2) = user (auth s1)
      ∧ cart s2 = cart s1
      ∧ ordersOf s2 = ordersOf s1.
Proof.
  assert (Hbefore : Forall (λ v, ¬ names_user bob_credentials v) [alice]).
  { repeat constructor. intros [He _]. discriminate He. }
  assert (Hbob : names_user bob_credentials bob) by by split.
  split; [reflexivity|]. split; [exact Hbefore|]. split; [exact Hbob|].
  split; [done|].
  destruct (session_survives_reload (JSON_cart := reference_JSON_cart)
              (JSON_orders := reference_JSON_orders)
              (JSON_user := reference_JSON_user)
              (JSON_users := reference_JSON_users)
              bob_credentials anonymous_root ∅ [alice] [] bob
              eq_refl Hbefore Hbob ltac:(done))
    as (s1 & ls1 & s2 & Hlogin & Hmount & Huser & _ & _ & Hcart & _ & Horders).
  exists s1, ls1, s2. split; [exact Hlogin|]. split; [exact Hmount|].
  split; [exact Huser|]. split; [exact Hcart|]. exact (Horders eq_refl).
Defined.

(** X18, witness. *)
Lemma registerUser_existing_email_witness :
  let taken := {| rd_name := "Alice again"; rd_email := "alice@example.com";
                  rd_password := "other" |} in
  (rd_email taken ∈ uwp_email <$> users (auth anonymous_root))
  ∧ ∃ s',
      registerUser (JSON_cart := reference_JSON_cart)
        (JSON_orders := reference_JSON_orders)
        (JSON_user := reference_JSON_user)
        (JSON_users := reference_JSON_users)
        (λ name, name) 1700000000000 1700000000001 taken anonymous_root ∅
      = (Normal s', ∅)
      ∧ error (auth s') = Some "Email has already been used.".
Proof.
  intros taken.
  assert (Hin : rd_email taken ∈ uwp_email <$> users (auth anonymous_root))
    by (apply elem_of_cons; by left).
  split; [exact Hin|].
  destruct (registerUser_existing_email (JSON_cart := reference_JSON_cart)
              (JSON_orders := reference_JSON_orders)
              (JSON_user := reference_JSON_user)
              (JSON_users := reference_JSON_users)
              (λ name, name) 1700000000000 1700000000001 taken
              anonymous_root ∅ Hin) as (s' & Hrun & Herr & _).
  exists s'. split; [exact Hrun|exact Herr].
Defined.

Lemma carol_is_new :
  rd_email carol_data ∉ uwp_email <$> users (auth anonymous_root).
Proof.
  intros Hin. cbn in Hin.
  repeat (apply elem_of_cons in Hin as [Heq|Hin]; [discriminate Heq|]).
  by apply elem_of_nil in Hin.
Qed.

(** X19, witness. *)
Lemma registerUser_then_login_witness :
  (rd_email carol_data ∉ uwp_email <$> users (auth anonymous_root))
  ∧ ∃ s1 ls1 newUser,
      registerUser (JSON_cart := reference_JSON_cart)
        (JSON_orders := reference_JSON_orders)
        (JSON_user := reference_JSON_user)
        (JSON_users := reference_JSON_users)
        (λ name, name) 1700000000000 1700000000001 carol_data
        anonymous_root ∅
      = (Normal s1, ls1)
      ∧ users (auth s1) = (users (auth anonymous_root) ++ [newUser])%list
      ∧ uwp_email newUser = rd_email carol_data.
Proof.
  split; [exact carol_is_new|].
  destruct (registerUser_then_login (JSON_cart := reference_JSON_cart)
              (JSON_orders := reference_JSON_orders)
              (JSON_user := reference_JSON_user)
              (JSON_users := reference_JSON_users)
              (λ name, name) 1700000000000 1700000000001 carol_data
              anonymous_root ∅ carol_is_new)
    as (s1 & ls1 & newUser & Hrun & Husers & Hemail & _).
  exists s1, ls1, newUser. split; [exact Hrun|]. split; [exact Husers|].
  exact Hemail.
Defined.

Lemma directory_emails_distinct :
  NoDup (uwp_email <$> users (auth anonymous_root)).
Proof.
  cbn. apply NoDup_cons. split.
  - intros Hin. apply elem_of_cons in Hin as [Heq|Hin]; [discriminate Heq|].
    by apply elem_of_nil in Hin.
  - apply NoDup_singleton.
Qed.

(** X20, witness. *)
Lemma registerUser_keeps_emails_distinct_witness :
  NoDup (uwp_email <$> users (auth anonymous_root))
  ∧ ∃ s' ls',
      registerUser (JSON_cart := reference_JSON_cart)
        (JSON_orders := reference_JSON_orders)
        (JSON_user := reference_JSON_user)
        (JSON_users := reference_JSON_users)
        (λ name, name) 1700000000000 1700000000001 carol_data
        anonymous_root ∅
      = (Normal s', ls')
      ∧ NoDup (uwp_email <$> users (auth s')).
Proof.
  split; [exact directory_emails_distinct|].
  exact (registerUser_keeps_emails_distinct
           (JSON_cart := reference_JSON_cart)
           (JSON_orders := reference_JSON_orders)
           (JSON_user := reference_JSON_user)
           (JSON_users := reference_JSON_users)
           (λ name, name) 1700000000000 1700000000001 carol_data
           anonymous_root ∅ directory_emails_distinct).
Defined.

(** X22, witness. *)
Lemma activity_leaves_one_logout_timer_witness :
  let config := AutoLogoutProvider App_props in
  let h := after_activity config ([1000; 2000] ++ [5000])%list
             (mounted quiet_page 0) in
  handles_fresh quiet_page
  ∧ ∃ handle,
      autoLogout.timeoutRef h = Some handle
      ∧ autoLogout.pending (autoLogout.timers h) !! handle
        = Some (5000 + timeoutMs config, autoLogout.performLogout).
Proof.
  intros config h. split; [exact handles_fresh_quiet_page|].
  destruct (activity_leaves_one_logout_timer config quiet_page 0
              [1000; 2000] 5000 handles_fresh_quiet_page)
    as (handle & Href & _ & Hpending & _).
  exists handle. split; [exact Href|exact Hpending].
Defined.

(** X24, witness. *)
Lemma logout_disarms_hook_witness :
  let config := AutoLogoutProvider App_props in
  let h := after_activity config [1000; 2000] (mounted quiet_page 0) in
  let h' := autoLogout.effect_setup config false 3000
              (autoLogout.effect_cleanup h) in
  handles_fresh quiet_page
  ∧ autoLogout.isTimerActive h' = false.
Proof.
  intros config h h'. split; [exact handles_fresh_quiet_page|].
  apply (logout_disarms_hook config quiet_page 0 3000 [1000; 2000]
           handles_fresh_quiet_page).
Defined.
